(** * HTMLCalc: the calculator (calc.js) and the form validator

    A shallow embedding of the two browser scripts of the repository and
    the properties their specification states about them.

    Definitions:
    - [JS]        the parts of the JavaScript language the scripts rely on:
                  strings, [trim], binary64 numbers, [parseInt],
                  [parseFloat], [ToNumber], [ToString], objects used as
                  dictionaries;
    - [Regex]     regular expressions by derivatives, for the patterns of
                  the validator;
    - [Calendar]  the proleptic Gregorian calendar behind [Date];
    - [Dom]       the fragment of the document the validator reads and
                  writes through jQuery;
    - [Val]       the validator: [ValidationTarget], [Validator], the
                  built-in rules, [isDate] and [normalizeDate];
    - [Calc]      the calculator;
    - [Page]      a sample page;
    - [Keypad]    the number buttons of the calculator;
    - [Rules]     the phone rule, the length rules and the date sequence
                  rules;
    - [Report]    the agreement of the state of a target with its
                  messages;
    - [Results]   [setValidationResults] in two steps;
    - [Samples]   more sample pages;
    - [Build]     the constructor of the validator and its reset handler.

    Properties:
    - [ObjFacts], [DomFacts], [CalendarFacts], [RegexFacts]: the laws of
      the structures above;
    - [ValProps]    cumulative state, post-validation, submission, the
                    submit button, registration of validation functions;
    - [DateProps]   year windowing and the date check;
    - [EMailProps]  the e-mail rule;
    - [CalcProps]   addition and division by zero in the calculator;
    - [KeypadProps] number entry, clearing and operators in the
                    calculator;
    - [HandlerProps] the event handlers of the validation functions;
    - [ReportProps] state and messages of a target;
    - [ResultsProps] the highlight, the help block, the icons and the
                    attribute aria-invalid;
    - [MatcherFacts], [RulesProps]: blank values, phone numbers, the date
                    format, sequences of dates;
    - [TargetProps], [SizeProps]: targets and the size of an object;
    - [BuildProps]  the constructor and the reset button. *)

From Stdlib Require Import ZArith String Ascii List Bool Lia DecimalString.
From Stdlib Require Import Floats.SpecFloat.
From stdpp Require Import base gmap strings list fin_maps.
Import ListNotations.

Open Scope Z_scope.

(* ===================================================================== *)
(** * JavaScript values *)
(* ===================================================================== *)

Module JS.

(** ** Strings

    A JavaScript string is a sequence of UTF-16 code units.  The scripts
    only inspect characters of the Latin-1 range, so a string is a Rocq
    [string] whose characters are the code units U+0000..U+00FF. *)

Definition code (c : ascii) : Z := Z.of_N (N_of_ascii c).

(** WhiteSpace and LineTerminator code points (ECMA-262, 12.2 and 12.3)
    of the Latin-1 range: TAB, LF, VT, FF, CR, SP, NBSP. *)
Definition is_space (c : ascii) : bool :=
  let n := code c in
  ((9 <=? n) && (n <=? 13)) || (n =? 32) || (n =? 160).

Fixpoint trimStart (s : string) : string :=
  match s with
  | String c r => if is_space c then trimStart r else s
  | EmptyString => EmptyString
  end.

(** [trimEnd] keeps a character when it, or something after it, is not
    white space. *)
Fixpoint trimEnd (s : string) : string :=
  match s with
  | String c r =>
      match trimEnd r with
      | EmptyString => if is_space c then EmptyString else String c EmptyString
      | r' => String c r'
      end
  | EmptyString => EmptyString
  end.

(** [String.prototype.trim]. *)
Definition trim (s : string) : string := trimEnd (trimStart s).

(** [s.indexOf(c) != -1] for a one-character needle. *)
Fixpoint contains_char (c : ascii) (s : string) : bool :=
  match s with
  | String d r => Ascii.eqb c d || contains_char c r
  | EmptyString => false
  end.

(** [s.split(c)] for a one-character separator: the pieces between the
    separators, in order; always at least one piece. *)
Fixpoint split (c : ascii) (s : string) : list string :=
  match s with
  | EmptyString => [EmptyString]
  | String d r =>
      if Ascii.eqb c d then EmptyString :: split c r
      else match split c r with
           | p :: ps => String d p :: ps
           | [] => [String d EmptyString]
           end
  end.

(** [s.replace(/c/g, by)]: every occurrence of the character replaced. *)
Fixpoint replace_all (c : ascii) (by_ : string) (s : string) : string :=
  match s with
  | EmptyString => EmptyString
  | String d r =>
      if Ascii.eqb c d then by_ +:+ replace_all c by_ r
      else String d (replace_all c by_ r)
  end.

(** [s.replace(c, by)] with a string pattern: the first occurrence only. *)
Fixpoint replace_first (c : ascii) (by_ : string) (s : string) : string :=
  match s with
  | EmptyString => EmptyString
  | String d r =>
      if Ascii.eqb c d then by_ +:+ r
      else String d (replace_first c by_ r)
  end.

Definition is_digit (c : ascii) : bool :=
  let n := code c in (48 <=? n) && (n <=? 57).

Definition digit_val (c : ascii) : Z := code c - 48.

(** The longest prefix of decimal digits (most significant first) and what
    follows it. *)
Fixpoint span_digits (s : string) : list Z * string :=
  match s with
  | String c r =>
      if is_digit c then let '(ds, t) := span_digits r in (digit_val c :: ds, t)
      else ([], s)
  | EmptyString => ([], EmptyString)
  end.

(** Strings of decimal digits only. *)
Fixpoint all_digits (s : string) : bool :=
  match s with
  | EmptyString => true
  | String c r => is_digit c && all_digits r
  end.

(** The mathematical value of a digit sequence in radix [b]. *)
Definition digits_value (b : Z) (ds : list Z) : Z :=
  fold_left (fun acc d => acc * b + d) ds 0.

(** ** Numbers

    A Number is an IEEE 754 binary64 value: [spec_float] with 53 bits of
    precision and maximal exponent 1024, rounded to nearest, ties to
    even. *)

Definition f64 : Type := spec_float.

Definition prec : Z := 53.
Definition emax : Z := 1024.

Definition NaN : f64 := S754_nan.
Definition pzero : f64 := S754_zero false.

Definition fadd : f64 -> f64 -> f64 := SFadd prec emax.
Definition fsub : f64 -> f64 -> f64 := SFsub prec emax.
Definition fmul : f64 -> f64 -> f64 := SFmul prec emax.
Definition fdiv : f64 -> f64 -> f64 := SFdiv prec emax.

(** [x == y], [x < y] on Numbers: false as soon as one side is NaN. *)
Definition feqb (x y : f64) : bool := SFeqb x y.
Definition fltb (x y : f64) : bool := SFltb x y.

(** The Number nearest to the integer [z]; [neg] is the sign of a zero. *)
Definition of_int (neg : bool) (z : Z) : f64 :=
  binary_normalize prec emax (if neg then - z else z) 0 neg.

Definition of_Z (z : Z) : f64 :=
  binary_normalize prec emax z 0 false.

(** The Number nearest to [m * 10^e10], for [0 <= m]. *)
Definition of_decimal (neg : bool) (m e10 : Z) : f64 :=
  if m =? 0 then S754_zero neg
  else if 0 <=? e10 then of_int neg (m * 10 ^ e10)
  else
    let '(q, e, l) := SFdiv_core_binary prec emax m 0 (10 ^ (- e10)) 0 in
    binary_round_aux prec emax neg q e l.

(** *** Numeric literals in strings *)

Definition starts_with (p s : string) : bool := String.prefix p s.

Definition drop (n : nat) (s : string) : string :=
  String.substring n (String.length s - n) s.

(** The value of [c] as a digit of radix [b], if it is one. *)
Definition radix_digit (b : Z) (c : ascii) : option Z :=
  let n := code c in
  let v := if (48 <=? n) && (n <=? 57) then n - 48
           else if (97 <=? n) && (n <=? 122) then n - 87
           else if (65 <=? n) && (n <=? 90) then n - 55
           else b in
  if v <? b then Some v else None.

Fixpoint span_radix (b : Z) (s : string) : list Z * string :=
  match s with
  | String c r =>
      match radix_digit b c with
      | Some v => let '(ds, t) := span_radix b r in (v :: ds, t)
      | None => ([], s)
      end
  | EmptyString => ([], EmptyString)
  end.

(** An optional sign in front of [s]. *)
Definition split_sign (s : string) : bool * string :=
  match s with
  | String "-" r => (true, r)
  | String "+" r => (false, r)
  | _ => (false, s)
  end.

(** [parseInt(s)] without a radix (ECMA-262, 19.2.5). *)
Definition parseInt_str (s : string) : f64 :=
  let '(neg, s1) := split_sign (trimStart s) in
  let '(b, s2) :=
    match s1 with
    | String "0" (String "x" r) => (16, r)
    | String "0" (String "X" r) => (16, r)
    | _ => (10, s1)
    end in
  match span_radix b s2 with
  | ([], _) => NaN
  | (ds, _) => of_int neg (digits_value b ds)
  end.

(** ExponentPart: [e] or [E], an optional sign and at least one digit.
    Returns the exponent and the rest; no exponent leaves [s] untouched. *)
Definition exponent_part (s : string) : Z * string :=
  match s with
  | String c r =>
      if Ascii.eqb c "e" || Ascii.eqb c "E" then
        let '(neg, r1) := split_sign r in
        match span_digits r1 with
        | ([], _) => (0, s)
        | (ds, t) => ((if neg then - digits_value 10 ds else digits_value 10 ds), t)
        end
      else (0, s)
  | EmptyString => (0, s)
  end.

(** The longest prefix of [s] that is a StrDecimalLiteral, as a Number,
    with what follows it. *)
Definition str_decimal_literal (s : string) : option (f64 * string) :=
  let '(neg, s1) := split_sign s in
  if starts_with "Infinity" s1 then Some (S754_infinity neg, drop 8 s1)
  else
    let '(ip, r1) := span_digits s1 in
    match r1 with
    | String "." r2 =>
        let '(fp, r3) := span_digits r2 in
        match ip, fp with
        | [], [] => None
        | _, _ =>
            let '(e, r4) := exponent_part r3 in
            Some (of_decimal neg (digits_value 10 (ip ++ fp))
                             (e - Z.of_nat (length fp)), r4)
        end
    | _ =>
        match ip with
        | [] => None
        | _ =>
            let '(e, r4) := exponent_part r1 in
            Some (of_decimal neg (digits_value 10 ip) e, r4)
        end
    end.

(** [parseFloat(s)] (ECMA-262, 19.2.4). *)
Definition parseFloat_str (s : string) : f64 :=
  match str_decimal_literal (trimStart s) with
  | Some (x, _) => x
  | None => NaN
  end.

(** NonDecimalIntegerLiteral: [0x], [0o] or [0b] and digits, nothing else. *)
Definition non_decimal_literal (s : string) : option f64 :=
  match s with
  | String "0" (String p r) =>
      let b := if Ascii.eqb p "x" || Ascii.eqb p "X" then 16
               else if Ascii.eqb p "o" || Ascii.eqb p "O" then 8
               else if Ascii.eqb p "b" || Ascii.eqb p "B" then 2
               else 0 in
      match span_radix b r with
      | (_ :: _ as ds, EmptyString) => Some (of_int false (digits_value b ds))
      | _ => None
      end
  | _ => None
  end.

(** [ToNumber] of a string (StringToNumber, ECMA-262, 7.1.4.1.1). *)
Definition StringToNumber (s : string) : f64 :=
  let t := trim s in
  match t with
  | EmptyString => pzero
  | _ =>
      match str_decimal_literal t with
      | Some (x, EmptyString) => x
      | _ =>
          match non_decimal_literal t with
          | Some x => x
          | None => NaN
          end
      end
  end.

(** *** Number to string

    [Number::toString] in radix 10 (ECMA-262, 6.1.6.1.20): the shortest
    decimal [s * 10^(n-k)], [s] of [k] digits, that reads back as the
    Number, printed in positional notation for [-6 < n <= 21] and in
    exponent notation otherwise. *)

(** The decimal digits of a natural number, without leading zeros. *)
Definition decimal (z : Z) : string :=
  NilZero.string_of_uint (N.to_uint (Z.to_N z)).

Fixpoint zeros (n : nat) : string :=
  match n with
  | O => EmptyString
  | S n' => String "0" (zeros n')
  end.

(** A positive Number [m * 2^e] as a fraction. *)
Definition fraction (m : positive) (e : Z) : Z * Z :=
  if 0 <=? e then (Z.pos m * 2 ^ e, 1) else (Z.pos m, 2 ^ (- e)).

(** [10^n <= num / den]. *)
Definition pow10_le (n num den : Z) : bool :=
  if 0 <=? n then 10 ^ n * den <=? num else den <=? num * 10 ^ (- n).

Fixpoint climb (fuel : nat) (n num den : Z) : Z :=
  match fuel with
  | O => n
  | S f => if pow10_le n num den then climb f (n + 1) num den else n
  end.

(** The [n] with [10^(n-1) <= num/den < 10^n]. *)
Definition magnitude (num den : Z) : Z :=
  let est := (Z.log2 num - Z.log2 den) * 30103 / 100000 in
  climb 8 (est - 2) num den.

(** Structural equality of Numbers in canonical form. *)
Definition same (x y : f64) : bool :=
  match x, y with
  | S754_zero a, S754_zero b => Bool.eqb a b
  | S754_infinity a, S754_infinity b => Bool.eqb a b
  | S754_nan, S754_nan => true
  | S754_finite a m e, S754_finite b m' e' =>
      Bool.eqb a b && Pos.eqb m m' && (e =? e')
  | _, _ => false
  end.

(** [| s * 10^p - num/den |] as a fraction. *)
Definition distance (s p num den : Z) : Z * Z :=
  if 0 <=? p then (Z.abs (s * 10 ^ p * den - num), den)
  else (Z.abs (s * den - num * 10 ^ (- p)), den * 10 ^ (- p)).

(** Of two candidates [(s, n)] the one nearer to the Number, the even [s]
    on a tie. *)
Definition nearer (k num den : Z) (a b : Z * Z) : Z * Z :=
  let '(a1, a2) := distance (fst a) (snd a - k) num den in
  let '(b1, b2) := distance (fst b) (snd b - k) num den in
  match a1 * b2 ?= b1 * a2 with
  | Lt => a
  | Gt => b
  | Eq => if Z.even (fst a) then a else b
  end.

(** The candidates of [k] digits: [s] next to [x * 10^(k-n)], for the
    magnitude [n0] of [x] and, when rounding reaches the next power of
    ten, [n0 + 1]. *)
Definition candidates (x : f64) (k n0 num den : Z) : list (Z * Z) :=
  let at_ (n : Z) :=
    let p := k - n in
    let s0 := if 0 <=? p then num * 10 ^ p / den
              else num / (den * 10 ^ (- p)) in
    [(s0, n); (s0 + 1, n)] in
  List.filter
    (fun c => if (10 ^ (k - 1) <=? fst c) && (fst c <? 10 ^ k)
              then same (of_decimal false (fst c) (snd c - k)) x
              else false)
    (at_ n0 ++ at_ (n0 + 1)).

Fixpoint shortest (fuel : nat) (x : f64) (k n0 num den : Z) : Z * Z * Z :=
  match candidates x k n0 num den with
  | c :: cs => let '(s, n) := fold_left (nearer k num den) cs c in (s, n, k)
  | [] =>
      match fuel with
      | O => (0, n0, k)
      | S f => shortest f x (k + 1) n0 num den
      end
  end.

Definition signed_exponent (e : Z) : string :=
  (if e <? 0 then "-" else "+") +:+ decimal (Z.abs e).

(** Steps 6 to 10 of the algorithm: [s] has [k] digits. *)
Definition layout (s n k : Z) : string :=
  let ds := decimal s in
  if (k <=? n) && (n <=? 21) then ds +:+ zeros (Z.to_nat (n - k))
  else if (0 <? n) && (n <=? 21) then
    String.substring 0 (Z.to_nat n) ds +:+ "." +:+ drop (Z.to_nat n) ds
  else if (-6 <? n) && (n <=? 0) then
    "0." +:+ zeros (Z.to_nat (- n)) +:+ ds
  else if k =? 1 then ds +:+ "e" +:+ signed_exponent (n - 1)
  else String.substring 0 1 ds +:+ "." +:+ drop 1 ds
       +:+ "e" +:+ signed_exponent (n - 1).

Definition NumberToString (x : f64) : string :=
  match x with
  | S754_nan => "NaN"
  | S754_zero _ => "0"
  | S754_infinity s => if s then "-Infinity" else "Infinity"
  | S754_finite sg m e =>
      let '(num, den) := fraction m e in
      let '(s, n, k) :=
        shortest 17 (S754_finite false m e) 1 (magnitude num den) num den in
      (if sg then "-" else "") +:+ layout s n k
  end.

(** ** Values

    The values the scripts compute with: [undefined], Numbers and
    strings. *)

Inductive value : Type :=
  | Undefined
  | Num (x : f64)
  | Str (s : string).

Definition ToString (v : value) : string :=
  match v with
  | Undefined => "undefined"
  | Num x => NumberToString x
  | Str s => s
  end.

Definition ToNumber (v : value) : f64 :=
  match v with
  | Undefined => NaN
  | Num x => x
  | Str s => StringToNumber s
  end.

(** The global functions convert their argument to a string first. *)
Definition parseInt (v : value) : f64 := parseInt_str (ToString v).
Definition parseFloat (v : value) : f64 := parseFloat_str (ToString v).

(** [a + b]: concatenation as soon as one operand is a string. *)
Definition add (a b : value) : value :=
  match a, b with
  | Str _, _ | _, Str _ => Str (ToString a +:+ ToString b)
  | _, _ => Num (fadd (ToNumber a) (ToNumber b))
  end.

(** [a == b] (IsLooselyEqual): a Number and a string compare as
    Numbers. *)
Definition loose_eq (a b : value) : bool :=
  match a, b with
  | Undefined, Undefined => true
  | Num x, Num y => feqb x y
  | Str s, Str t => String.eqb s t
  | Num x, Str t => feqb x (StringToNumber t)
  | Str s, Num y => feqb (StringToNumber s) y
  | _, _ => false
  end.

(** ** Objects used as dictionaries

    An object is the list of its own properties in the order [for .. in]
    and [Object.keys] visit them (OrdinaryOwnPropertyKeys): first the
    keys that are array indices, ascending, then the other keys in the
    order of their creation. *)

Definition array_index (k : string) : option Z :=
  match span_digits k with
  | (d :: ds, EmptyString) =>
      let n := digits_value 10 (d :: ds) in
      if ((d =? 0) && negb (Nat.eqb (length ds) 0)) || (4294967294 <? n)
      then None else Some n
  | _ => None
  end.

(** [before k k']: a new key [k] is enumerated before the existing [k']. *)
Definition before (k k' : string) : bool :=
  match array_index k, array_index k' with
  | Some i, Some j => i <? j
  | Some _, None => true
  | None, _ => false
  end.

Section Obj.
Context {V : Type}.

Definition obj : Type := list (string * V).

Fixpoint get (k : string) (o : obj) : option V :=
  match o with
  | [] => None
  | (k', v) :: r => if String.eqb k k' then Some v else get k r
  end.

Fixpoint update (k : string) (v : V) (o : obj) : obj :=
  match o with
  | [] => []
  | (k', v') :: r =>
      if String.eqb k k' then (k, v) :: r else (k', v') :: update k v r
  end.

Fixpoint insert_new (k : string) (v : V) (o : obj) : obj :=
  match o with
  | [] => [(k, v)]
  | (k', v') :: r =>
      if before k k' then (k, v) :: o else (k', v') :: insert_new k v r
  end.

(** [o[k] = v] *)
Definition set (k : string) (v : V) (o : obj) : obj :=
  match get k o with
  | Some _ => update k v o
  | None => insert_new k v o
  end.

(** [delete o[k]] *)
Fixpoint remove (k : string) (o : obj) : obj :=
  match o with
  | [] => []
  | (k', v) :: r =>
      if String.eqb k k' then remove k r else (k', v) :: remove k r
  end.

(** [Object.size(o)], the helper the validator adds to [Object]. *)
Definition size (o : obj) : Z := Z.of_nat (length o).

Definition keys (o : obj) : list string := map fst o.
End Obj.

Arguments obj : clear implicits.

End JS.

(* ===================================================================== *)
(** * Regular expressions *)
(* ===================================================================== *)

(** The patterns of the validator are only ever used through
    [RegExp.prototype.test], which asks whether the subject belongs to
    the language of the pattern.  Membership is decided with Brzozowski
    derivatives. *)

Module Regex.
Import JS.

Inductive re : Type :=
  | Void                       (* matches nothing *)
  | Eps                        (* the empty string *)
  | Class (p : ascii -> bool)  (* one character of a class *)
  | Cat (r1 r2 : re)
  | Alt (r1 r2 : re)
  | Star (r : re).

Fixpoint nullable (r : re) : bool :=
  match r with
  | Void => false
  | Eps => true
  | Class _ => false
  | Cat r1 r2 => nullable r1 && nullable r2
  | Alt r1 r2 => nullable r1 || nullable r2
  | Star _ => true
  end.

Fixpoint deriv (c : ascii) (r : re) : re :=
  match r with
  | Void => Void
  | Eps => Void
  | Class p => if p c then Eps else Void
  | Cat r1 r2 =>
      if nullable r1 then Alt (Cat (deriv c r1) r2) (deriv c r2)
      else Cat (deriv c r1) r2
  | Alt r1 r2 => Alt (deriv c r1) (deriv c r2)
  | Star r1 => Cat (deriv c r1) (Star r1)
  end.

(** [/^r$/.test(s)] *)
Fixpoint matches (r : re) (s : string) : bool :=
  match s with
  | EmptyString => nullable r
  | String c t => matches (deriv c r) t
  end.

(** The language of a pattern, for reference. *)
Inductive Matches : re -> string -> Prop :=
  | MEps : Matches Eps EmptyString
  | MClass p c : p c = true -> Matches (Class p) (String c EmptyString)
  | MCat r1 r2 s1 s2 :
      Matches r1 s1 -> Matches r2 s2 -> Matches (Cat r1 r2) (s1 +:+ s2)
  | MAltL r1 r2 s : Matches r1 s -> Matches (Alt r1 r2) s
  | MAltR r1 r2 s : Matches r2 s -> Matches (Alt r1 r2) s
  | MStar0 r : Matches (Star r) EmptyString
  | MStarS r s1 s2 :
      Matches r s1 -> Matches (Star r) s2 -> Matches (Star r) (s1 +:+ s2).

(** Derived forms. *)
Definition chr (c : ascii) : re := Class (Ascii.eqb c).
Definition plus (r : re) : re := Cat r (Star r).
Definition opt (r : re) : re := Alt Eps r.
Definition any : re := Class (fun _ => true).
Definition seq (rs : list re) : re := fold_right Cat Eps rs.
Definition alts (rs : list re) : re := fold_right Alt Void rs.

Definition lit (s : string) : re :=
  seq (map chr (list_ascii_of_string s)).

(** [r{2,4}] *)
Definition rep_2_4 (r : re) : re := seq [r; r; opt r; opt r].

Definition between (lo hi : ascii) (c : ascii) : bool :=
  (code lo <=? code c) && (code c <=? code hi).

(** [\d] *)
Definition digit : re := Class is_digit.
(** [[a-zA-Z]] *)
Definition is_alpha (c : ascii) : bool := between "a" "z" c || between "A" "Z" c.
(** [[a-zA-Z0-9-]] *)
Definition is_host (c : ascii) : bool := is_alpha c || is_digit c || Ascii.eqb c "-".
(** [[_a-zA-Z0-9-]] *)
Definition is_local (c : ascii) : bool := Ascii.eqb c "_" || is_host c.
(** [[-\/]] *)
Definition is_sep (c : ascii) : bool := Ascii.eqb c "-" || Ascii.eqb c "/".

End Regex.

(* ===================================================================== *)
(** * The calendar behind [Date] *)
(* ===================================================================== *)

Module Calendar.

(** Day numbers count days from 1 January 1970 (ECMA-262, 21.4.1). *)

(** [DayFromYear]: the day number of 1 January of year [y]. *)
Definition DayFromYear (y : Z) : Z :=
  365 * (y - 1970) + (y - 1969) / 4 - (y - 1901) / 100 + (y - 1601) / 400.

Definition leap (y : Z) : bool :=
  ((y mod 4 =? 0) && negb (y mod 100 =? 0)) || (y mod 400 =? 0).

(** Days of the months [0..11] of a year. *)
Definition month_lengths (y : Z) : list Z :=
  [31; if leap y then 29 else 28; 31; 30; 31; 30; 31; 31; 30; 31; 30; 31].

Definition sum (l : list Z) : Z := fold_right Z.add 0 l.

(** [MakeDay (year, month, date)]: months count from 0 and, like dates,
    may lie outside their range; the excess carries over. *)
Definition MakeDay (year month date : Z) : Z :=
  let ym := year + month / 12 in
  let mn := month mod 12 in
  DayFromYear ym + sum (firstn (Z.to_nat mn) (month_lengths ym)) + date - 1.

(** The year that contains day [day], looked for upwards from [y]: step
    up while the next year has begun. *)
Fixpoint year_up (fuel : nat) (day y : Z) : Z :=
  match fuel with
  | O => y
  | S f => if DayFromYear (y + 1) <=? day then year_up f day (y + 1) else y
  end.

(** [YearFromTime]: the year that contains day [day].  A year has
    146097 / 400 days on average, which gives the year to within two. *)
Definition YearFromDay (day : Z) : Z :=
  year_up 4 day (1970 + day * 400 / 146097 - 2).

(** The month [0..11] and the date [1..31] of the [n]-th day of a year
    whose months have the lengths [ms]. *)
Fixpoint month_and_date (ms : list Z) (m n : Z) : Z * Z :=
  match ms with
  | [] => (m, n + 1)
  | l :: r => if n <? l then (m, n + 1) else month_and_date r (m + 1) (n - l)
  end.

Record civil : Type := mkCivil { year : Z; month : Z; date : Z }.

(** [getFullYear], [getMonth] and [getDate] of a day number. *)
Definition civil_of_day (day : Z) : civil :=
  let y := YearFromDay day in
  let '(m, d) := month_and_date (month_lengths y) 0 (day - DayFromYear y) in
  mkCivil y m d.

(** Lists of month lengths have positive entries. *)
Definition positive_lengths (ms : list Z) : Prop := Forall (fun l => 0 < l) ms.

(** [TimeClip]: a time value is at most 8.64e15 ms, that is 100 000 000
    days, away from the epoch. *)
Definition in_range (day : Z) : bool := Z.abs day <=? 100000000.

End Calendar.

(* ===================================================================== *)
(** * The document *)
(* ===================================================================== *)

(** The validator reaches the page through jQuery.  The document is a
    store of elements; an element is named by its position in the store
    and records where it hangs.  Only what the validator reads or writes
    is kept: tag, [id], [name], classes, attributes, the [aria-invalid]
    property, the value, the text of the selected options, the inner
    HTML (kept as the string that was written) and the colour style. *)

Module Dom.
Import JS.

Inductive place : Type :=
  | Root              (* a top element of the document *)
  | Child (p : nat)   (* a child of element [p] *)
  | Detached.         (* removed from the document *)

Record element : Type := mkElement {
  tag : string;
  ident : string;
  name : string;
  classes : list string;
  at_ : place;
  attrs : gmap string string;
  aria_invalid : option bool;
  value : string;
  selected : string;
  html : string;
  color : string
}.

Abbreviation document := (list element).

(** A jQuery object: the matched elements, in document order. *)
Abbreviation jq := (list nat).

Definition with_classes (c : list string) (e : element) : element :=
  mkElement (tag e) (ident e) (name e) c (at_ e) (attrs e)
            (aria_invalid e) (value e) (selected e) (html e) (color e).
Definition with_place (p : place) (e : element) : element :=
  mkElement (tag e) (ident e) (name e) (classes e) p (attrs e)
            (aria_invalid e) (value e) (selected e) (html e) (color e).
Definition with_attrs (a : gmap string string) (e : element) : element :=
  mkElement (tag e) (ident e) (name e) (classes e) (at_ e) a
            (aria_invalid e) (value e) (selected e) (html e) (color e).
Definition with_aria_invalid (b : option bool) (e : element) : element :=
  mkElement (tag e) (ident e) (name e) (classes e) (at_ e) (attrs e)
            b (value e) (selected e) (html e) (color e).
Definition with_html (h : string) (e : element) : element :=
  mkElement (tag e) (ident e) (name e) (classes e) (at_ e) (attrs e)
            (aria_invalid e) (value e) (selected e) h (color e).

(** *** Traversal *)

Definition place_of (d : document) (n : nat) : place :=
  match d !! n with
  | Some e => at_ e
  | None => Detached
  end.

Definition is_child_of (p : nat) (pl : place) : bool :=
  match pl with
  | Child q => Nat.eqb p q
  | _ => false
  end.

Definition is_root (pl : place) : bool :=
  match pl with
  | Root => true
  | _ => false
  end.

Definition handles (d : document) : list nat := List.seq 0 (length d).

(** The children of an element, in order: [append] adds at the end of
    the store, hence after the earlier children. *)
Definition children (d : document) (p : nat) : jq :=
  List.filter (fun n => is_child_of p (place_of d n)) (handles d).

(** An element and what is below it, in document order. *)
Fixpoint subtree (fuel : nat) (d : document) (n : nat) : jq :=
  match fuel with
  | O => []
  | S f => n :: flat_map (subtree f d) (children d n)
  end.

(** The elements of the document, in document order. *)
Definition nodes (d : document) : jq :=
  flat_map (subtree (length d) d)
           (List.filter (fun n => is_root (place_of d n)) (handles d)).

(** The ancestors of an element, nearest first. *)
Fixpoint ancestors (fuel : nat) (d : document) (n : nat) : jq :=
  match fuel with
  | O => []
  | S f =>
      match place_of d n with
      | Child p => p :: ancestors f d p
      | _ => []
      end
  end.

Definition mem (n : nat) (l : jq) : bool := existsb (Nat.eqb n) l.

Definition satisfies (d : document) (P : element -> bool) (n : nat) : bool :=
  match d !! n with
  | Some e => P e
  | None => false
  end.

(** [$(roots).find(selector)]: the elements below one of [roots] that
    the selector [P] accepts. *)
Definition find (d : document) (roots : jq) (P : element -> bool) : jq :=
  List.filter
    (fun n => satisfies d P n
              && existsb (fun a => mem a roots) (ancestors (length d) d n))
    (nodes d).

(** [$(selector)]: the elements of the document that [P] accepts. *)
Definition select (d : document) (P : element -> bool) : jq :=
  List.filter (satisfies d P) (nodes d).

(** [$(n).parents(selector)] *)
Definition parents (d : document) (n : nat) (P : element -> bool) : jq :=
  List.filter (satisfies d P) (ancestors (length d) d n).

(** [$(n).parent()] *)
Definition parent (d : document) (n : nat) : jq :=
  match place_of d n with
  | Child p => [p]
  | _ => []
  end.

(** [$(q).children(selector)] *)
Definition children_where (d : document) (q : jq) (P : element -> bool) : jq :=
  List.filter (satisfies d P) (flat_map (children d) q).

(** *** Selectors *)

Definition has_class (c : string) (e : element) : bool :=
  existsb (String.eqb c) (classes e).

Definition has_id (i : string) (e : element) : bool := String.eqb i (ident e).

(** [$('#' + i)]: at most one element, the first with that [id]. *)
Definition by_id (d : document) (i : string) : jq :=
  firstn 1 (select d (has_id i)).

(** [label[for="i"]] *)
Definition label_for (i : string) (e : element) : bool :=
  String.eqb (tag e) "LABEL"
  && match attrs e !! "for" with
     | Some f => String.eqb f i
     | None => false
     end.

Definition is_label (e : element) : bool := String.eqb (tag e) "LABEL".

(** *** Reading *)

Definition val (d : document) (n : nat) : string :=
  match d !! n with
  | Some e => value e
  | None => ""
  end.

Definition attr (d : document) (n : nat) (a : string) : option string :=
  match d !! n with
  | Some e => attrs e !! a
  | None => None
  end.

(** [$(q).html()]: of the first element. *)
Definition get_html (d : document) (q : jq) : string :=
  match q with
  | n :: _ => match d !! n with Some e => html e | None => "" end
  | [] => ""
  end.

(** [q[0].id] *)
Definition first_id (d : document) (q : jq) : string :=
  match q with
  | n :: _ => match d !! n with Some e => ident e | None => "" end
  | [] => ""
  end.

(** *** Writing: every element of the jQuery object is changed *)

Definition each (f : element -> element) (q : jq) (d : document) : document :=
  fold_left (fun d n => alter f n d) q d.

Definition addClass (c : string) : jq -> document -> document :=
  each (fun e => if has_class c e || String.eqb c "" then e
                 else with_classes (classes e ++ [c]) e).

Definition removeClass (c : string) : jq -> document -> document :=
  each (fun e =>
          with_classes (List.filter (fun x => negb (String.eqb c x)) (classes e)) e).

Definition set_attr (a v : string) : jq -> document -> document :=
  each (fun e => with_attrs (<[a := v]> (attrs e)) e).

Definition set_prop_aria_invalid (b : bool) : jq -> document -> document :=
  each (with_aria_invalid (Some b)).

Definition set_html (h : string) : jq -> document -> document :=
  each (with_html h).

(** [$(q).remove()]: the elements leave the document, with what is
    below them. *)
Definition remove (q : jq) (d : document) : document :=
  each (with_place Detached) q d.

(** [$(q).append(markup)]: a new element at the end of each element of
    [q]. *)
Definition append (e : element) (q : jq) (d : document) : document :=
  fold_left (fun d p => d ++ [with_place (Child p) e]) q d.

End Dom.

(* ===================================================================== *)
(** * The validator *)
(* ===================================================================== *)

Module Val.
Import JS Dom.

(** ** Enumerations

    Status and behaviour values are small non-negative integers combined
    with [|] and tested with [&]; on such values the 32-bit operators of
    the language are [Z.lor] and [Z.land]. *)

Module StateEnum.
Definition PASS : Z := 0.
Definition WARN : Z := 1.
Definition FAIL : Z := 2.
End StateEnum.

Module SubmitEnum.
Definition NONE : Z := 0.
Definition ICON : Z := 1.
Definition HIGHLIGHT : Z := 2.
Definition HELP : Z := 4.
Definition SUMMARY : Z := 8.
Definition DISABLE : Z := 16.
End SubmitEnum.

Module ValidateEnum.
Definition NONE : Z := 0.
Definition ICON : Z := 1.
Definition HIGHLIGHT : Z := 2.
Definition HELP : Z := 4.
End ValidateEnum.

(** [IconEnum], [HighlightEnum] and [ColorEnum], at their defaults. *)
Record palette : Type := mkPalette { pPASS : string; pFAIL : string; pWARN : string }.

Definition IconEnum : palette :=
  mkPalette "glyphicon-ok" "glyphicon-remove" "glyphicon-warning-sign".
Definition HighlightEnum : palette := mkPalette "" "alert-danger" "alert-warn".
Definition ColorEnum : palette := mkPalette "green" "red" "gold".

(** The line feed. *)
Definition nl : string := String "010" EmptyString.

(** ** Data *)

(** What a validation function sees of a [ValidationTarget]: the control,
    the indicator, the name, the state and the messages. *)
Record target : Type := mkTarget {
  key : string;
  control : nat;
  indicator : jq;
  name : string;
  state : Z;
  messages : list string
}.

(** The body of a validation function: it reads the document and reports
    through [fail] and [warn], which change the target and the
    document. *)
Definition rule : Type := target -> document -> target * document.

(** [new ValidationFunction(name, f)] *)
Record ValidationFunction : Type := mkVF { vf_name : string; vf_method : rule }.

(** An entry of [validations]: [refCount] maps [triggerId.event] to the
    number of registrations. *)
Record validation : Type := mkValidation {
  lock : bool;
  refCount : gmap string f64;
  method : rule
}.

Record ValidationTarget : Type := mkVT {
  this : target;
  validations : obj validation
}.

(** The [Validator] object.  [scope] is the resolved scope selector, the
    empty selection standing for the whole document; [submitButtons] the
    resolved submit selector; [postValidation] tells whether a callback is
    installed. *)
Record Validator : Type := mkValidator {
  scope : jq;
  targets : obj ValidationTarget;
  validationBehavior : Z;
  submitBehavior : Z;
  submitButtons : jq;
  postValidation : bool
}.

(** The page: the document, the validator, the handlers jQuery holds for
    the validator (trigger element, event, key of the target in
    [event.data]), the arguments [postValidation] has been called with,
    oldest first, and the content of the [#ValidatorModal] popup when it
    is shown. *)
Record world : Type := mkWorld {
  doc : document;
  self : Validator;
  bound : list (nat * string * string);
  calls : list bool;
  modal : option (string * string)
}.

Definition with_doc (d : document) (w : world) : world :=
  mkWorld d (self w) (bound w) (calls w) (modal w).
Definition with_self (v : Validator) (w : world) : world :=
  mkWorld (doc w) v (bound w) (calls w) (modal w).
Definition with_bound (b : list (nat * string * string)) (w : world) : world :=
  mkWorld (doc w) (self w) b (calls w) (modal w).
Definition with_targets (t : obj ValidationTarget) (v : Validator) : Validator :=
  mkValidator (scope v) t (validationBehavior v) (submitBehavior v)
              (submitButtons v) (postValidation v).
Definition with_state (s : Z) (t : target) : target :=
  mkTarget (key t) (control t) (indicator t) (name t) s (messages t).
Definition with_messages (m : list string) (t : target) : target :=
  mkTarget (key t) (control t) (indicator t) (name t) (state t) m.

(** ** Helpers *)

(** [isEmpty]: the string conversion of the input, trimmed, is empty. *)
Definition isEmpty (s : string) : bool := String.eqb (trim s) "".

(** [element.id || element.name] *)
Definition id_or_name (d : document) (n : nat) : string :=
  match d !! n with
  | Some e => if String.eqb (ident e) "" then Dom.name e else ident e
  | None => ""
  end.

(** [a || b] on strings: the empty string is falsy. *)
Definition or_else (a b : string) : string :=
  if String.eqb a "" then b else a.

(** [scope.find(selector)] *)
Definition scope_find (v : Validator) (d : document) (P : element -> bool) : jq :=
  match scope v with
  | [] => select d P
  | roots => find d roots P
  end.

(** ** ValidationTarget *)

(** Add message to message list if not already present. *)
Definition addMessage (message : string) (t : target) : target :=
  if existsb (String.eqb message) (messages t) then t
  else with_messages (messages t ++ [message]) t.

(** The function a validation function uses to indicate a failure. *)
Definition fail (message : string) (t : target) (d : document) : target * document :=
  let t1 := with_state (Z.lor (state t) StateEnum.FAIL) t in
  let d1 := set_attr "aria-invalid" "true" [control t] d in
  (addMessage ("Error: " +:+ message) t1, d1).

(** The function a validation function uses to indicate a warning. *)
Definition warn (message : string) (t : target) (d : document) : target * document :=
  let t1 := with_state (Z.lor (state t) StateEnum.WARN) t in
  (addMessage ("Warning: " +:+ message) t1, d).

(** Assembles all messages of the target, one per line. *)
Definition fullMessage (t : target) : string :=
  fold_left (fun m x => (if String.eqb m "" then m else m +:+ nl) +:+ x)
            (messages t) "".

(** Is the value of the control blank?  For a [SELECT] the text of the
    selected options is looked at. *)
Definition blank_control (d : document) (c : nat) : bool :=
  match d !! c with
  | Some e =>
      if String.eqb (tag e) "SELECT" then isEmpty (selected e)
      else isEmpty (value e)
  | None => true
  end.

(** The help block of a control: the element [aria-describedby] names,
    else the help blocks below the parent of the control, else a new one
    appended to the parent.  (A control always has a parent; were it
    detached, [help[0]] would not exist.) *)
Definition help_block (t : target) (d : document) : document * jq :=
  let c := control t in
  let help :=
    match attr d c "aria-describedby" with
    | Some i => by_id d i
    | None => []
    end in
  let help :=
    match help with
    | [] => find d (parent d c) (has_class "help-block")
    | _ => help
    end in
  match help with
  | [] =>
      let helpId := first_id d [c] +:+ "-autohelpblock" in
      let label :=
        mkElement "LABEL" helpId "" ["help-block"; "hidden"] Detached
                  {[ "style" := ";font-size:x-small;" ]} None "" "" "" "" in
      let d1 := append label (parent d c) d in
      (d1, by_id d1 helpId)
  | _ => (d, help)
  end.

(** The status icon appended to the indicator. *)
Definition icon (t : target) : element :=
  let '(iconClass, iconColor) :=
    if state t =? StateEnum.PASS then (pPASS IconEnum, pPASS ColorEnum)
    else if state t =? StateEnum.WARN then (pWARN IconEnum, pWARN ColorEnum)
    else (pFAIL IconEnum, pFAIL ColorEnum) in
  mkElement "SPAN" "" "" ["glyphicon"; "validationIndicator"; iconClass] Detached
            {[ "style" := "margin-left:1em;"; "aria-hidden" := "true";
               "title" := fullMessage t ]}
            None "" "" "" iconColor.

(** Sets the results of validating this target.  When [submitting], the
    configured submission behaviours are used. *)
Definition setValidationResults (submitting : bool) (v : Validator)
    (t : target) (d : document) : document :=
  let c := control t in
  match d !! c with
  | None => d
  | Some _ =>
      let '(d, help) := help_block t d in
      let d := set_attr "aria-describedby" (first_id d help) [c] d in
      (* clear prior validation results *)
      let d := set_prop_aria_invalid false [c] d in
      let d := removeClass (pPASS HighlightEnum) [c] d in
      let d := removeClass (pFAIL HighlightEnum) [c] d in
      let d := removeClass (pWARN HighlightEnum) [c] d in
      let d := set_html "" help d in
      let d := addClass "hidden" help d in
      let d := remove (children_where d (indicator t)
                                      (has_class "validationIndicator")) d in
      if (state t =? StateEnum.PASS) && blank_control d c then d
      else
        let '(relevantBehavior, HELP, ICON, HIGHLIGHT) :=
          if submitting
          then (submitBehavior v,
                SubmitEnum.HELP, SubmitEnum.ICON, SubmitEnum.HIGHLIGHT)
          else (validationBehavior v,
                ValidateEnum.HELP, ValidateEnum.ICON, ValidateEnum.HIGHLIGHT) in
        (* Make help text visible? *)
        let d := set_html (fullMessage t) help d in
        let d := if Z.land relevantBehavior HELP =? HELP
                 then removeClass "hidden" help d
                 else addClass "hidden" help d in
        (* Display an icon? *)
        let d := if Z.land relevantBehavior ICON =? ICON
                 then append (icon t) (indicator t) d else d in
        (* Add a highlight? *)
        if Z.land relevantBehavior HIGHLIGHT =? HIGHLIGHT then
          if state t =? StateEnum.WARN then addClass (pWARN HighlightEnum) [c] d
          else if state t =? StateEnum.FAIL then addClass (pFAIL HighlightEnum) [c] d
          else addClass (pPASS HighlightEnum) [c] d
        else d
  end.

(** Reset a ValidationTarget. *)
Definition clear (v : Validator) (t : target) (d : document) : target * document :=
  let t := with_state StateEnum.PASS t in
  let d := set_attr "aria-invalid" "false" [control t] d in
  let t := with_messages [] t in
  (t, setValidationResults false v t d).

Definition with_lock (b : bool) (x : validation) : validation :=
  mkValidation b (refCount x) (method x).

(** One turn of the loop over [validations]: the function runs unless
    it is locked, and is locked while it runs. *)
Definition run_validation (n : string) (st : ValidationTarget * document)
    : ValidationTarget * document :=
  let '(vt, d) := st in
  match get n (validations vt) with
  | Some x =>
      if lock x then st
      else
        let vs := set n (with_lock true x) (validations vt) in
        let '(t, d) := method x (this vt) d in
        (mkVT t (set n (with_lock false x) vs), d)
  | None => st
  end.

Definition unlock_all (vs : obj validation) : obj validation :=
  map (fun kv => (fst kv, with_lock false (snd kv))) vs.

(** [ValidationTarget.prototype.validateAll]: the entry point for
    validating a target. *)
Definition validateAll_target (submitting : bool) (v : Validator)
    (vt : ValidationTarget) (d : document) : ValidationTarget * document :=
  let '(t, d) := clear v (this vt) d in
  let vt := mkVT t (validations vt) in
  match parents d (control t) (has_class "disabled") with
  | [] =>
      let '(vt, d) := fold_left (fun st n => run_validation n st)
                                (keys (validations vt)) (vt, d) in
      let vt := mkVT (this vt) (unlock_all (validations vt)) in
      (vt, setValidationResults submitting v (this vt) d)
  | _ => (vt, d)
  end.

(** [new ValidationTarget(validator, targetControl, name, indicatorControl)] *)
Definition new_ValidationTarget (v : Validator) (d : document)
    (targetControl : nat) (name : option string) (indicatorControl : option jq)
    : ValidationTarget :=
  let k := id_or_name d targetControl in
  let '(ind, label_name) :=
    match indicatorControl with
    | Some i => (i, "")
    | None =>
        let i := scope_find v d (label_for (first_id d [targetControl])) in
        match i with
        | [] => (i, "")
        | _ => (i, replace_first ":" "" (get_html d i))
        end
    end in
  let ind := match ind with
             | [] => find d (parents d targetControl (has_class "form-group")) is_label
             | _ => ind
             end in
  let ind := match ind with
             | [] => [targetControl]
             | _ => ind
             end in
  let e_name := match d !! targetControl with Some e => Dom.name e | None => "" end in
  let nm := or_else (default "" name)
              (or_else label_name (or_else e_name (first_id d [targetControl]))) in
  mkVT (mkTarget k targetControl ind nm StateEnum.PASS []) [].

(** ** Validator *)

(** The state of an entry of [targets]. *)
Definition status (kt : string * ValidationTarget) : Z := state (this (snd kt)).

(** Returns the cumulative state of validity of all targets. *)
Definition cumulative (ts : obj ValidationTarget) : Z :=
  fold_left (fun s kt => Z.lor s (state (this (snd kt)))) ts StateEnum.PASS.

(** [Validator.prototype.state], on the page. *)
Definition state_of (w : world) : Z := cumulative (targets (self w)).

(** [Validator.prototype.post] *)
Definition post (w : world) : world :=
  let hasFailures :=
    negb (Z.land (state_of w) StateEnum.FAIL =? StateEnum.FAIL) in
  let w := if postValidation (self w)
           then mkWorld (doc w) (self w) (bound w) (calls w ++ [hasFailures]) (modal w)
           else w in
  if submitBehavior (self w) =? SubmitEnum.DISABLE then
    if hasFailures
    then with_doc (addClass "disabled" (submitButtons (self w)) (doc w)) w
    else with_doc (removeClass "disabled" (submitButtons (self w)) (doc w)) w
  else w.

(** [this.targets[k].validateAll(submitting)] *)
Definition validate_key (submitting : bool) (w : world) (k : string) : world :=
  match get k (targets (self w)) with
  | Some vt =>
      let '(vt, d) := validateAll_target submitting (self w) vt (doc w) in
      with_doc d (with_self (with_targets (set k vt (targets (self w))) (self w)) w)
  | None => w
  end.

(** Run all ValidationFunctions for all targets. *)
Definition validateAll (submitting : bool) (w : world) : world :=
  post (fold_left (validate_key submitting) (keys (targets (self w))) w).

(** [ValidationTarget.prototype.validate]: the handler of the trigger
    events, for the target of key [k]. *)
Definition validate (k : string) (w : world) : world :=
  post (validate_key false w k).

(** An event of type [ev] on the element [trigger]: the handlers bound to
    it run in the order of their binding. *)
Definition fire (trigger : nat) (ev : string) (w : world) : world :=
  fold_left
    (fun w h => let '(n, e, k) := h in
                if Nat.eqb n trigger && String.eqb e ev then validate k w else w)
    (bound w) w.

Definition displayInPopup (title message : string) (w : world) : world :=
  mkWorld (doc w) (self w) (bound w) (calls w) (Some (title, message)).

(** Line feeds (code 10) and tabs (code 9) of a help text, written as
    markup. *)
Definition escape (h : string) : string :=
  replace_all "009" "&nbsp;&nbsp;&nbsp;&nbsp;" (replace_all "010" "<br>" h).

Definition header : string :=
  "Please correct all validation errors on this page before submitting.<br><br><ul>".

(** The summary of all help blocks of the scope that are not blank. *)
Definition summary (w : world) : string :=
  fold_left
    (fun message h =>
       let localMessage := escape (get_html (doc w) [h]) in
       if isEmpty localMessage then message
       else message +:+ "<li>" +:+ localMessage +:+ "</li>")
    (scope_find (self w) (doc w) (has_class "help-block"))
    header.

(** What [summary] lists, for reference: an item for every help text
    that is not blank. *)
Definition listing (texts : list string) : string :=
  fold_right String.append ""
    (map (fun x => "<li>" +:+ x +:+ "</li>")
         (List.filter (fun x => negb (isEmpty x)) (map escape texts))).

Definition displayAllErrors (w : world) : world :=
  displayInPopup "Validation Errors" (summary w +:+ "</ul>") w.

(** The event object handed to a click handler. *)
Record event : Type := mkEvent {
  immediatePropagationStopped : bool;
  defaultPrevented : bool
}.

(** If validation errors exist within scope, display a summary and stop
    propagation of the triggering event. *)
Definition isValid (ev : option event) (w : world) : world * option event * bool :=
  let w := validateAll true w in
  if negb (Z.land (state_of w) StateEnum.FAIL =? 0) then
    let ev := match ev with
              | Some _ => Some (mkEvent true true)
              | None => None
              end in
    (displayAllErrors w, ev, false)
  else (w, ev, true).

(** Add a validation target, or find the existing one. *)
Definition addTarget (targetControl : nat) (name : option string)
    (indicatorControl : option jq) (w : world) : world :=
  let targetId := id_or_name (doc w) targetControl in
  match get targetId (targets (self w)) with
  | None =>
      let vt := new_ValidationTarget (self w) (doc w) targetControl name indicatorControl in
      with_self (with_targets (set targetId vt (targets (self w))) (self w)) w
  | Some _ => w
  end.

(** [v.refCount[eventId]++] *)
Definition incr (x : f64) : f64 := fadd x (of_Z 1).
(** [v.refCount[eventId]--]; an absent entry counts as [undefined]. *)
Definition decr (x : option f64) : f64 := fsub (default NaN x) (of_Z 1).

(** [triggerId + '.' + events[i]] *)
Definition event_id (triggerId ev : string) : string :=
  triggerId +:+ "." +:+ ev.

(** The loop of [addValidation] over the events. *)
Definition add_event (triggerControl : nat) (triggerId k : string)
    (st : gmap string f64 * list (nat * string * string)) (ev : string)
    : gmap string f64 * list (nat * string * string) :=
  let '(rc, b) := st in
  let eventId := event_id triggerId ev in
  match rc !! eventId with
  | None => (<[eventId := of_Z 1]> rc, b ++ [(triggerControl, ev, k)])
  | Some n => (<[eventId := incr n]> rc, b)
  end.

(** The body of [addValidation]: the entry of [vf] is created when
    absent, then every event is counted. *)
Definition register (triggerControl : nat) (triggerId k : string)
    (events : list string) (vf : ValidationFunction)
    (st : obj validation * list (nat * string * string))
    : obj validation * list (nat * string * string) :=
  let '(vs, b) := st in
  let x := default (mkValidation false ∅ (vf_method vf)) (get (vf_name vf) vs) in
  let '(rc, b) := fold_left (add_event triggerControl triggerId k)
                            events (refCount x, b) in
  (set (vf_name vf) (mkValidation (lock x) rc (method x)) vs, b).

Definition with_validations (k : string) (vt : ValidationTarget)
    (st : obj validation * list (nat * string * string)) (w : world) : world :=
  with_bound (snd st)
    (with_self (with_targets (set k (mkVT (this vt) (fst st)) (targets (self w)))
                             (self w)) w).

(** [target.addValidation(triggerControl, events, vf)] for the target of
    key [k]. *)
Definition addValidation (k : string) (triggerControl : nat)
    (events : list string) (vf : ValidationFunction) (w : world) : world :=
  match get k (targets (self w)) with
  | None => w
  | Some vt =>
      let triggerId := id_or_name (doc w) triggerControl in
      with_validations k vt
        (register triggerControl triggerId k events vf (validations vt, bound w)) w
  end.

(** [$(triggerControl).off(ev, this.validate)]: [validate] is the one
    function of the prototype, so every handler the validator bound for
    the event on that element goes. *)
Definition off (triggerControl : nat) (ev : string)
    (b : list (nat * string * string)) : list (nat * string * string) :=
  List.filter
    (fun h => let '(n, e, _) := h in
              negb (Nat.eqb n triggerControl && String.eqb e ev)) b.

(** The loop of [removeValidation] over the events. *)
Definition remove_event (triggerControl : nat) (triggerId : string)
    (st : gmap string f64 * list (nat * string * string)) (ev : string)
    : gmap string f64 * list (nat * string * string) :=
  let '(rc, b) := st in
  let eventId := event_id triggerId ev in
  let n := decr (rc !! eventId) in
  if fltb n (of_Z 1) then (delete eventId rc, off triggerControl ev b)
  else (<[eventId := n]> rc, b).

(** The body of [removeValidation] before the final [validate]: the
    counts of the events go down, an event whose count drops below 1 is
    unbound and forgotten, and the entry of [vf] goes with its last
    event. *)
Definition unregister (triggerControl : nat) (triggerId : string)
    (events : list string) (vf : ValidationFunction)
    (st : obj validation * list (nat * string * string))
    : obj validation * list (nat * string * string) :=
  let '(vs, b) := st in
  match get (vf_name vf) vs with
  | Some x =>
      let '(rc, b) := fold_left (remove_event triggerControl triggerId)
                                events (refCount x, b) in
      if Nat.eqb (base.size rc) 0 then (JS.remove (vf_name vf) vs, b)
      else (set (vf_name vf) (mkValidation (lock x) rc (method x)) vs, b)
  | None => st
  end.

(** [target.removeValidation(triggerControl, events, vf)] for the target
    of key [k]. *)
Definition removeValidation (k : string) (triggerControl : nat)
    (events : list string) (vf : ValidationFunction) (w : world) : world :=
  match get k (targets (self w)) with
  | None => w
  | Some vt =>
      let triggerId := id_or_name (doc w) triggerControl in
      validate k
        (with_validations k vt
           (unregister triggerControl triggerId events vf (validations vt, bound w)) w)
  end.

(** Remove a validation function from a control validator and remove the
    control validator if there are no more functions. *)
Definition removeControlFunction (targetControl triggerControl : nat)
    (events : list string) (vf : ValidationFunction) (w : world) : world :=
  let targetId := id_or_name (doc w) targetControl in
  match get targetId (targets (self w)) with
  | None => w
  | Some _ =>
      let w := removeValidation targetId triggerControl events vf w in
      match get targetId (targets (self w)) with
      | Some vt =>
          if JS.size (validations vt) =? 0 then
            let '(t, d) := clear (self w) (this vt) (doc w) in
            let d := Dom.remove (indicator t) d in
            with_doc d (with_self (with_targets (JS.remove targetId (targets (self w)))
                                                (self w)) w)
          else w
      | None => w
      end
  end.

(** The counts of the validation function [n] in an object of
    validations, and for the target of key [k] of the page. *)
Definition counts_of (vs : obj validation) (n : string) : option (gmap string f64) :=
  option_map refCount (get n vs).

Definition registered (k n : string) (w : world) : option (gmap string f64) :=
  match get k (targets (self w)) with
  | Some vt => counts_of (validations vt) n
  | None => None
  end.

(** ** Dates *)

(** The longest prefix of digits, as a string, and what follows it. *)
Fixpoint digits_prefix (s : string) : string * string :=
  match s with
  | String c r =>
      if is_digit c then let '(a, t) := digits_prefix r in (String c a, t)
      else (EmptyString, s)
  | EmptyString => (EmptyString, EmptyString)
  end.

(** Three non-empty runs of digits separated by one character of [sep]
    each, and nothing else: the groups of
    [/^(\d+)[-\/](\d+)[-\/](\d+)$/] when [sep] is [[-\/]]. *)
Definition three_numbers (sep : ascii -> bool) (s : string)
    : option (string * string * string) :=
  match digits_prefix s with
  | (String _ _ as a, String c1 r1) =>
      match digits_prefix r1 with
      | (String _ _ as b, String c2 r2) =>
          match digits_prefix r2 with
          | (String _ _ as c, EmptyString) =>
              if sep c1 && sep c2 then Some (a, b, c) else None
          | _ => None
          end
      | _ => None
      end
  | _ => None
  end.

(** [data.match(rx)] for the [rx] of [isDate]. *)
Definition rx_match (data : string) : option (string * string * string) :=
  three_numbers Regex.is_sep data.

(** A [Date] object: [None] is the Invalid Date; otherwise the day number
    of the date in the local calendar.  [getFullYear], [getMonth] and
    [getDate] read the local calendar, in which a date given without a
    time of day was also interpreted, so the time zone plays no role. *)
Definition Date : Type := option Z.

(** [new Date(s)] for a string of the shape [M/D/Y].  The language leaves
    the reading of this format to the implementation; this is the lenient
    reading the comment on [isDate] describes, in which a month or a day
    out of range carries over into the next months (1/41/2015 is
    2/10/2015).  A year below 50 is taken in the 2000s and a year below
    100 in the 1900s.  Any other string gives the Invalid Date. *)
Definition new_Date (s : string) : Date :=
  match three_numbers (Ascii.eqb "/") s with
  | Some (a, b, c) =>
      let num (x : string) := digits_value 10 (fst (span_digits x)) in
      let y := num c in
      let y := if y <? 50 then y + 2000 else if y <? 100 then y + 1900 else y in
      let day := Calendar.MakeDay y (num a - 1) (num b) in
      if Calendar.in_range day then Some day else None
  | None => None
  end.

Definition getFullYear (day : Z) : Z := Calendar.year (Calendar.civil_of_day day).
Definition getMonth (day : Z) : Z := Calendar.month (Calendar.civil_of_day day).
Definition getDate (day : Z) : Z := Calendar.date (Calendar.civil_of_day day).

(** Year, month and day of the month, as they are written. *)
Definition civil_of (day : Z) : Z * Z * Z :=
  (getFullYear day, getMonth day + 1, getDate day).

(** The [parts] object [normalizeDate] fills in. *)
Record parts : Type := mkParts { m : f64; d : f64; y : f64; mdy : string }.

(** [normalizeDate(data, rx, window, parts)]: [None] when [data] does not
    match, in which case [parts] stays empty. *)
Definition normalizeDate (data : string) (window : JS.value) : option parts :=
  (* if no window is defined, use 50: [parseInt] does not throw, the
     [catch] clause never runs *)
  let window := parseInt window in
  (* extract the pieces from the original string *)
  match rx_match data with
  | Some (f1, f2, f3) =>
      let m := parseInt_str f1 in
      let d := parseInt_str f2 in
      let y := parseInt_str f3 in
      (* apply the window *)
      let y := if fltb y window then fadd y (of_Z 2000)
               else if fltb y (of_Z 100) then fadd y (of_Z 1900)
               else y in
      Some (mkParts m d y
              (NumberToString m +:+ "/" +:+ NumberToString d
               +:+ "/" +:+ NumberToString y))
  | None => None
  end.

(** Returns true for inputs which are valid dates. *)
Definition isDate (data : string) (window : JS.value) : bool :=
  match rx_match data with
  | Some _ =>
      match normalizeDate data window with
      | Some originalParts =>
          match new_Date (mdy originalParts) with
          | Some dt =>
              let m2 := fadd (of_Z (getMonth dt)) (of_Z 1) in
              let d2 := of_Z (getDate dt) in
              let y2 := of_Z (getFullYear dt) in
              feqb (m originalParts) m2 && feqb (d originalParts) d2
              && feqb (y originalParts) y2
          | None => false
          end
      | None => false
      end
  | None => false
  end.

(** ** Validation functions *)

Import Regex.

Definition one_to_nine : re := Class (between "1" "9").

(** [/^([1-9]|0[1-9]|1[012])[-\/]([1-9]|0[1-9]|[12][0-9]|3[01])[-\/](\d\d|(19|20)\d\d$)/]:
    the [$] belongs to the second alternative of the year only, so after
    two digits of a year anything may follow. *)
Definition date_format : re :=
  seq [ alts [one_to_nine; Cat (chr "0") one_to_nine;
              Cat (chr "1") (Class (between "0" "2"))];
        Class is_sep;
        alts [one_to_nine; Cat (chr "0") one_to_nine;
              Cat (Class (between "1" "2")) digit;
              Cat (chr "3") (Class (between "0" "1"))];
        Class is_sep;
        Alt (seq [digit; digit; Star any])
            (seq [Alt (lit "19") (lit "20"); digit; digit]) ].

(** Validate a date. *)
Definition Validator_Date : ValidationFunction :=
  mkVF "Validator_Date" (fun target d =>
    let dt := val d (control target) in
    if negb (isEmpty dt) then
      let window := match attr d (control target) "date-window" with
                    | Some a => Str a
                    | None => Undefined
                    end in
      if negb (isDate dt window) then
        fail (name target +:+ ", " +:+ dt +:+ " is not a date.") target d
      else if negb (matches date_format dt) then
        fail (name target +:+ " is not a validly formatted date. Use mm/dd/yyyy.")
             target d
      else (target, d)
    else (target, d)).

(** [/^([_a-zA-Z0-9-]+)(\.[_a-zA-Z0-9-]+)*@([a-zA-Z0-9-]+)(\.[a-zA-Z0-9-]+)*(\.[a-zA-Z]{2,4})$/] *)
Definition patt : re :=
  seq [ plus (Class is_local);
        Star (Cat (chr ".") (plus (Class is_local)));
        chr "@";
        plus (Class is_host);
        Star (Cat (chr ".") (plus (Class is_host)));
        Cat (chr ".") (rep_2_4 (Class is_alpha)) ].

Definition not_an_address (x : string) : string :=
  x +:+ " is not a valid email address.".

(** Validate format of an email address (can contain multiple, semicolon
    separated addresses). *)
Definition Validator_EMail : ValidationFunction :=
  mkVF "Validator_EMail" (fun target d =>
    let email := val d (control target) in
    if contains_char ";" email then
      fold_left
        (fun st x =>
           if negb (matches patt (trim x))
           then fail (not_an_address (trim x)) (fst st) (snd st)
           else st)
        (split ";" email) (target, d)
    else if negb (isEmpty email) then
      if negb (matches patt (trim email))
      then fail (not_an_address (trim email)) target d
      else (target, d)
    else (target, d)).

(** Validate that a required field has a value. *)
Definition Validator_Required : ValidationFunction :=
  mkVF "Validator_Required" (fun target d =>
    if blank_control d (control target)
    then fail (name target +:+ " is a required field.") target d
    else (target, d)).

(** Make an element required at run-time. *)
Definition require (targetControl : nat) (name : option string)
    (indicatorControl : option jq) (w : world) : world :=
  let w := addTarget targetControl name indicatorControl w in
  let k := id_or_name (doc w) targetControl in
  let w := addValidation k targetControl ["keyup"] Validator_Required w in
  let w := addValidation k targetControl ["change"] Validator_Required w in
  fire targetControl "change" w.

(** Make an element not-required at run-time. *)
Definition unRequire (targetControl : nat) (w : world) : world :=
  removeControlFunction targetControl targetControl ["keyup"; "change"]
                        Validator_Required w.

End Val.

(* ===================================================================== *)
(** * The calculator (calc.js) *)
(* ===================================================================== *)

Module Calc.
Import JS.

(** The variables of the closure, and the value of the [#display] field. *)
Record state : Type := mkState {
  acc : value;
  reg : value;
  op : string;
  err : bool;
  decimal : bool;
  display : string
}.

(** [$('#display').val(v)]: jQuery stores the empty string for
    [undefined] and the string conversion of anything else. *)
Definition val (v : value) : string :=
  match v with
  | Undefined => ""
  | _ => ToString v
  end.

Definition zero : value := Num (of_Z 0).

Definition clearAcc (s : state) : state :=
  mkState zero (reg s) (op s) (err s) false (display s).

Definition clear (s : state) : state :=
  let s1 := mkState (acc s) (reg s) "" false (decimal s) (display s) in
  let s2 := clearAcc s1 in
  mkState (acc s2) (reg s2) (op s2) (err s2) (decimal s2) (val (acc s2)).

(** The script ends with a call of [clear()]: this is the state in which
    the first click arrives. *)
Definition start : state :=
  clear (mkState Undefined Undefined "" false false "").

(** The click of a "number" button whose value is [num]. *)
Definition numberClick (num : string) (s0 : state) : state :=
  let s := if err s0 then clear s0 else s0 in
  if String.eqb num "." && decimal s then s
  else
    let s := if String.eqb num "."
             then mkState (acc s) (reg s) (op s) (err s) true (display s)
             else s in
    if loose_eq (acc s) zero && loose_eq (Str num) zero then s
    else
      let '(a, num) :=
        if loose_eq (acc s) zero && negb (String.eqb num ".")
        then (Str num, "") else (acc s, num) in
      let a := add a (Str num) in
      mkState a (reg s) (op s) (err s) (decimal s) (val a).

(** Perform the calculation specified by the saved [op]. *)
Definition calc (s : state) : state :=
  let '(r, e) :=
    if String.eqb (op s) "*" then
      (Num (fmul (ToNumber (reg s)) (ToNumber (acc s))), err s)
    else if String.eqb (op s) "/" then
      if feqb (parseFloat (acc s)) (of_Z 0)
      then (Str "Divide by zero.", true)
      else (Num (fdiv (ToNumber (reg s)) (ToNumber (acc s))), err s)
    else if String.eqb (op s) "+" then
      (Num (fadd (parseInt (reg s)) (parseInt (acc s))), err s)
    else if String.eqb (op s) "-" then
      (Num (fsub (ToNumber (reg s)) (ToNumber (acc s))), err s)
    else (acc s, err s) in
  mkState (acc s) r (op s) e (decimal s) (val r).

(** The click of an operator button whose value is [v]. *)
Definition opClick (v : string) (s : state) : state :=
  if String.eqb v "C" then clear s
  else if String.eqb v "=" then calc s
  else clearAcc (mkState (acc s) (acc s) v (err s) (decimal s) (display s)).

(** A button of the page: of class [numberButton] or [opButton]. *)
Inductive button : Type :=
  | Number (v : string)
  | Operator (v : string).

Definition click (s : state) (b : button) : state :=
  match b with
  | Number v => numberClick v s
  | Operator v => opClick v s
  end.

Definition run (bs : list button) : state := fold_left click bs start.

Definition N : string -> button := Number.
Definition O : string -> button := Operator.

End Calc.

(* ===================================================================== *)
(** * A sample page *)
(* ===================================================================== *)

(** A form with one labelled text field, a second bare field and a submit
    button:
<<
    0  <form id="signup">
    1    <div class="form-group">
    2      <label for="email">Email:</label>
    3      <input id="email" name="email" value=...>
         </div>
    4    <div>
    5      <input id="when" name="when" value=...>
         </div>
    6    <input id="send" type="submit">
       </form>
>> *)

Module Page.
Import JS Dom Val.

Definition node (t i n : string) (cs : list string) (p : place)
    (a : gmap string string) (v h : string) : element :=
  mkElement t i n cs p a None v "" h "".

Definition page (email when : string) : document :=
  [ node "FORM" "signup" "" [] Root ∅ "" "";
    node "DIV" "" "" ["form-group"] (Child 0) ∅ "" "";
    node "LABEL" "" "" [] (Child 1) {[ "for" := "email" ]} "" "Email:";
    node "INPUT" "email" "email" [] (Child 1) ∅ email "";
    node "DIV" "" "" [] (Child 0) ∅ "" "";
    node "INPUT" "when" "when" [] (Child 4) ∅ when "";
    node "INPUT" "send" "" [] (Child 0) {[ "type" := "submit" ]} "" "" ].

Definition email_field : nat := 3.
Definition when_field : nat := 5.
Definition send_button : nat := 6.

(** [new Validator('#signup', validationBehavior, '#send', submitBehavior)]
    on a page without marked controls, and [postValidation] installed or
    not. *)
Definition fresh (email when : string) (validationBehavior submitBehavior : Z)
    (postValidation : bool) : world :=
  mkWorld (page email when)
          (mkValidator [0%nat] [] validationBehavior submitBehavior
                       [send_button] postValidation)
          [] [] None.

(** A custom validation function that only ever warns. *)
Definition Validator_Shout : ValidationFunction :=
  mkVF "Validator_Shout" (fun target d =>
    if String.eqb (val d (control target)) "" then (target, d)
    else warn (name target +:+ " should not be empty.") target d).

Definition disabled_buttons (w : world) : list bool :=
  map (fun n => satisfies (doc w) (has_class "disabled") n)
      (submitButtons (self w)).

Definition states (w : world) : list (string * Z) :=
  map (fun kt => (fst kt, state (this (snd kt)))) (targets (self w)).

Definition help_texts (w : world) : list string :=
  map (fun h => get_html (doc w) [h])
      (scope_find (self w) (doc w) (has_class "help-block")).

Definition rule_names (k : string) (w : world) : option (list string) :=
  option_map (fun vt => keys (validations vt)) (get k (targets (self w))).

Definition counts (k rule : string) (w : world) : option (list (string * f64)) :=
  match get k (targets (self w)) with
  | Some vt => option_map (fun x => map_to_list (refCount x)) (get rule (validations vt))
  | None => None
  end.

(** A page whose e-mail field carries one rule, bound to [change]. *)
Definition with_rule (vf : ValidationFunction) (w : world) : world :=
  addValidation "email" email_field ["change"] vf
                (addTarget email_field None None w).

(** The e-mail field made required twice on [keyup]. *)
Definition twice_required : world :=
  addValidation "email" email_field ["keyup"] Validator_Required
    (addValidation "email" email_field ["keyup"] Validator_Required
       (addTarget email_field None None (fresh "" "" 7 15 false))).

(** ** Dates and addresses in the fields *)

(** The outcome of a validation function on a new target for a field:
    the state and the messages. *)
Definition outcome (vf : ValidationFunction) (field : nat) (w : world)
    : Z * list string :=
  let t := this (new_ValidationTarget (self w) (doc w) field None None) in
  let '(t, _) := vf_method vf t (doc w) in
  (state t, messages t).

Definition check_email (v : string) : Z * list string :=
  outcome Validator_EMail email_field (fresh v "" 7 15 false).

Definition check_date (v : string) : Z * list string :=
  outcome Validator_Date when_field (fresh "" v 7 15 false).

(** The numbers [lo], [lo + 1], ... ([n] of them). *)
Fixpoint range (lo : Z) (n : nat) : list Z :=
  match n with
  | O => []
  | S n' => lo :: range (lo + 1) n'
  end.

(** A year written with two digits. *)
Definition two_digits (n : Z) : string :=
  decimal (n / 10) +:+ decimal (n mod 10).

(** The year [normalizeDate] arrives at for 1 January of the two-digit
    year [n]. *)
Definition normalized_year (n : Z) (window : JS.value) : option f64 :=
  option_map y (normalizeDate ("1/1/" +:+ two_digits n) window).

(** A date of the calendar. *)
Definition calendar_date (m d y : Z) : bool :=
  (1 <=? m) && (m <=? 12) && (1 <=? d)
  && (d <=? nth (Z.to_nat (m - 1)) (Calendar.month_lengths y) 0).

Definition written (m d y : Z) : string :=
  decimal m +:+ "/" +:+ decimal d +:+ "/" +:+ decimal y.

(** The segments of the value of an e-mail field that are not addresses:
    of a semicolon-delimited list the trimmed pieces that do not match
    the pattern, of a single value that is not blank the trimmed value if
    it does not match. *)
Definition invalid_addresses (email : string) : list string :=
  let invalid x := negb (Regex.matches patt x) in
  if contains_char ";" email then List.filter invalid (map trim (split ";" email))
  else if isEmpty email then []
  else List.filter invalid [trim email].

(** [fail] once for every element of [xs]. *)
Definition fail_all (xs : list string) (st : target * document) : target * document :=
  fold_left (fun st x => fail (not_an_address x) (fst st) (snd st)) xs st.

(** A message list with [x] added if it is not there. *)
Definition add_once (x : string) (ms : list string) : list string :=
  if existsb (String.eqb x) ms then ms else ms ++ [x].

End Page.

(* ===================================================================== *)
(** * The keypad of the calculator *)
(* ===================================================================== *)

(** The page of the calculator is not part of the script.  What the
    properties of number entry assume of it is that a number button
    carries one decimal digit or the point. *)

Module Keypad.
Import JS Calc.

(** The value of a digit button: one decimal digit. *)
Definition digit_button (v : string) : bool :=
  match v with
  | String c EmptyString => is_digit c
  | _ => false
  end.

(** The value of a number button: a digit or the point. *)
Definition number_button (v : string) : bool :=
  digit_button v || String.eqb v ".".

Definition pressed (b : button) : bool :=
  match b with
  | Number v => number_button v
  | Operator _ => true
  end.

(** The number of points in a string. *)
Fixpoint points (s : string) : nat :=
  match s with
  | EmptyString => 0
  | String c r => (if Ascii.eqb c "." then 1 else 0) + points r
  end.

(** Digits and points only. *)
Fixpoint numeric (s : string) : bool :=
  match s with
  | EmptyString => true
  | String c r => (is_digit c || Ascii.eqb c ".") && numeric r
  end.

(** A text that starts with a digit other than 0. *)
Definition leads (s : string) : bool :=
  match s with
  | String c _ => is_digit c && negb (Ascii.eqb c "0")
  | EmptyString => false
  end.

(** What the accumulator holds while a number is typed: the text [0.], or
    a text of digits and at most one point that starts with a digit other
    than 0. *)
Definition typed (s : string) : bool :=
  String.eqb s "0." || (leads s && numeric s && Nat.leb (points s) 1).

(** The accumulator is the Number 0 of [clearAcc] or a typed text, and
    the flag [decimal] is set when the text has a point. *)
Definition entry (s : state) : bool :=
  match acc s with
  | Num x => same x (of_Z 0)
  | Str t => typed t && (Nat.eqb (points t) 0 || decimal s)
  | Undefined => false
  end.

(** Two states that differ at most in a register no pending operator will
    read. *)
Definition alike (s1 s2 : state) : Prop :=
  acc s1 = acc s2 /\ op s1 = op s2 /\ err s1 = err s2
  /\ decimal s1 = decimal s2 /\ display s1 = display s2
  /\ (op s1 <> "" -> reg s1 = reg s2).

End Keypad.

(* ===================================================================== *)
(** * The other validation functions *)
(* ===================================================================== *)

Module Rules.
Import JS Dom Regex Val.

(** The tab. *)
Definition tab : string := String "009" EmptyString.

(** White space only. *)
Fixpoint all_space (s : string) : bool :=
  match s with
  | EmptyString => true
  | String c r => is_space c && all_space r
  end.

(** ** The length rules *)


(** ** The phone rule *)

(** The characters of [999-999-9999]. *)
Definition area_code_number : list (ascii -> bool) :=
  [is_digit; is_digit; is_digit; Ascii.eqb "-";
   is_digit; is_digit; is_digit; Ascii.eqb "-";
   is_digit; is_digit; is_digit; is_digit].

(** The pattern that reads one character of each class of [ps] and goes
    on with [r]. *)
Definition classes_then (ps : list (ascii -> bool)) (r : re) : re :=
  fold_right (fun p r => Cat (Class p) r) r ps.

(** [/^\d\d\d-\d\d\d-\d\d\d\d$/] *)
Definition phone_plain : re := classes_then area_code_number Eps.

(** [x] under the flag [i]. *)
Definition x_or_X (c : ascii) : bool := Ascii.eqb c "x" || Ascii.eqb c "X".

(** [/^\d\d\d-\d\d\d-\d\d\d\d x \d{1,}$/i] *)
Definition phone_extension : re :=
  classes_then area_code_number
    (seq [chr " "; Class x_or_X; chr " "; plus digit]).

Definition phone_formats : string :=
  "The phone number must include an area code and must conform to one of the following formats:"
  +:+ nl +:+ tab +:+ "999-999-9999" +:+ nl +:+ tab +:+ "999-999-9999 x 9000.".

(** A phone number format validator. *)
Definition Validator_Phone : ValidationFunction :=
  mkVF "Validator_Phone" (fun target d =>
    let pn := val d (control target) in
    if isEmpty pn then (target, d)
    else
      let valid := false in
      (* 999-999-9999 *)
      let valid := valid || matches phone_plain pn in
      (* 999-999-9999 x 9000 *)
      let valid := valid || matches phone_extension pn in
      if negb valid then fail phone_formats target d else (target, d)).

(** What the two patterns accept, for reference: a string that starts
    with one character of each class of [ps], and the rest of it. *)
Fixpoint shaped (ps : list (ascii -> bool)) (s : string) : option string :=
  match ps, s with
  | [], _ => Some s
  | p :: ps', String c r => if p c then shaped ps' r else None
  | _ :: _, EmptyString => None
  end.

(** No extension, or a blank, an [x], a blank and digits. *)
Definition extension (s : string) : bool :=
  match s with
  | EmptyString => true
  | String a (String b (String c (String n ds))) =>
      Ascii.eqb " " a && x_or_X b && Ascii.eqb " " c && is_digit n && all_digits ds
  | _ => false
  end.

Definition phone_number (s : string) : bool :=
  match shaped area_code_number s with
  | Some r => extension r
  | None => false
  end.

(** ** The format of a date *)

(** The date format of [Validator_Date] without the second alternative
    of its year. *)
Definition date_format_loose : re :=
  seq [ alts [one_to_nine; Cat (chr "0") one_to_nine;
              Cat (chr "1") (Class (between "0" "2"))];
        Class is_sep;
        alts [one_to_nine; Cat (chr "0") one_to_nine;
              Cat (Class (between "1" "2")) digit;
              Cat (chr "3") (Class (between "0" "1"))];
        Class is_sep;
        seq [digit; digit; Star any] ].

(** ** Sequences of dates *)

(** A [Date] object: objects made by different [new] expressions differ
    in identity, whatever their time values. *)
Record DateObject : Type := mkDateObject { identity : nat; time : Date }.

(** A comparator for sequence comparisons: a [ValidationFunction] whose
    method takes two values.  The factory below hands it two Date
    objects. *)
Record Comparator : Type := mkComparator {
  cmp_name : string;
  cmp_method : DateObject -> DateObject -> bool
}.

(** [v1 < v2] and [v1 <= v2] on Date objects compare the time values;
    the time value of an Invalid Date is NaN, which compares false. *)
Definition less (v1 v2 : DateObject) : bool :=
  match time v1, time v2 with
  | Some x, Some y => x <? y
  | _, _ => false
  end.

Definition less_or_equal (v1 v2 : DateObject) : bool :=
  match time v1, time v2 with
  | Some x, Some y => x <=? y
  | _, _ => false
  end.

(** [v1 == v2] on objects: the same object. *)
Definition same_object (v1 v2 : DateObject) : bool :=
  Nat.eqb (identity v1) (identity v2).

Definition Sequence_LT : Comparator :=
  mkComparator "less than" (fun v1 v2 => less v1 v2).
Definition Sequence_GT : Comparator :=
  mkComparator "greater than" (fun v1 v2 => less v2 v1).
Definition Sequence_LTEQ : Comparator :=
  mkComparator "less than or equal to" (fun v1 v2 => less_or_equal v1 v2).
Definition Sequence_GTEQ : Comparator :=
  mkComparator "greater than or equal to" (fun v1 v2 => less_or_equal v2 v1).
Definition Sequence_EQ : Comparator :=
  mkComparator "equal to" (fun v1 v2 => same_object v1 v2).
Definition Sequence_NEQ : Comparator :=
  mkComparator "not equal to" (fun v1 v2 => negb (same_object v1 v2)).

(** [t.attr('date-window')] *)
Definition date_window (d : document) (c : nat) : JS.value :=
  match attr d c "date-window" with
  | Some a => Str a
  | None => Undefined
  end.

(** Produce a validation function for the sequence of two dates.
    [laterDate] is the text of the second date, or a function that gives
    it: it reads the page when the rule runs.  The two [new Date]
    expressions of a run make two objects, numbered 0 and 1 here. *)
Definition Validator_DateSequence_Factory (laterDate : document -> string)
    (nameLaterDate : string) (fnDateComparator : Comparator) : ValidationFunction :=
  mkVF ("Validator_Date_" +:+ cmp_name fnDateComparator +:+ "_" +:+ nameLaterDate)
    (fun target d =>
       let dt1 := val d (control target) in
       let window := date_window d (control target) in
       let dt2 := laterDate d in
       if negb (isEmpty dt1) && negb (isEmpty dt2) then
         if isDate dt1 window && isDate dt2 window then
           let dt1 := mkDateObject 0 (new_Date dt1) in
           let dt2 := mkDateObject 1 (new_Date dt2) in
           if negb (cmp_method fnDateComparator dt1 dt2)
           then fail (name target +:+ " must be " +:+ cmp_name fnDateComparator
                      +:+ " " +:+ nameLaterDate +:+ ".") target d
           else (target, d)
         else (target, d)
       else (target, d)).

End Rules.

(* ===================================================================== *)
(** * What a target reports *)
(* ===================================================================== *)

Module Report.
Import JS Dom Val.

(** [s] begins with [p]. *)
Fixpoint begins (p s : string) : bool :=
  match p, s with
  | EmptyString, _ => true
  | String a p', String b s' => Ascii.eqb a b && begins p' s'
  | String _ _, EmptyString => false
  end.

(** The two kinds of messages [fail] and [warn] record. *)
Definition is_error (m : string) : bool := begins "Error: " m.
Definition is_warning (m : string) : bool := begins "Warning: " m.

(** The state a list of messages stands for: FAIL when it holds an
    error, WARN when it holds a warning. *)
Definition told (ms : list string) : Z :=
  Z.lor (if existsb is_error ms then StateEnum.FAIL else StateEnum.PASS)
        (if existsb is_warning ms then StateEnum.WARN else StateEnum.PASS).

(** State and messages of a target agree: the state is the one the
    messages stand for, every message is an error or a warning, and no
    message is listed twice. *)
Definition coherent (t : target) : Prop :=
  state t = told (messages t)
  /\ forallb (fun m => is_error m || is_warning m) (messages t) = true
  /\ List.NoDup (messages t).

(** A validation function that keeps state and messages in agreement, as
    one does that reports through [fail] and [warn] only. *)
Definition reporter (r : rule) : Prop :=
  forall t d, coherent t -> coherent (fst (r t d)).

Definition reporting (vs : obj validation) : Prop :=
  Forall (fun kv => reporter (method (snd kv))) vs.

(** The attribute [aria-invalid] of the control says whether the target
    has failed. *)
Definition announced (t : target) (d : document) : Prop :=
  attr d (control t) "aria-invalid"
  = Some (if Z.testbit (state t) 1 then "true" else "false").

(** A validation function that keeps the attribute in step with the
    state, as one does that reports through [fail] and [warn] only. *)
Definition announcer (r : rule) : Prop :=
  forall t d,
    is_Some (d !! control t) -> announced t d ->
    announced (fst (r t d)) (snd (r t d))
    /\ control (fst (r t d)) = control t
    /\ is_Some (snd (r t d) !! control t).

Definition announcing (vs : obj validation) : Prop :=
  Forall (fun kv => announcer (method (snd kv))) vs.

(** A target without results, for the control [c]. *)
Definition blank_target (k : string) (c : nat) : target :=
  mkTarget k c [c] k StateEnum.PASS [].

(** The e-mail field of the sample page as a target with the required
    rule. *)
Definition required_email : ValidationTarget :=
  mkVT (blank_target "email" Page.email_field)
       [("Validator_Required",
         mkValidation false ∅ (vf_method Validator_Required))].

(** The e-mail field with an error and a warning, its label as the
    indicator. *)
Definition failed_and_warned : target :=
  mkTarget "email" Page.email_field [2%nat] "Email" 3
           ["Error: Email is a required field."; "Warning: Email is odd."].

End Report.

(* ===================================================================== *)
(** * The results on the page *)
(* ===================================================================== *)

Module Results.
Import JS Dom Val.

(** The behaviour that applies to an update: the submission behaviour
    when submitting, the validation behaviour otherwise. *)
Definition relevant (submitting : bool) (v : Validator) : Z :=
  if submitting then submitBehavior v else validationBehavior v.

(** The bit [b] of that behaviour is set ([HELP], [ICON] and [HIGHLIGHT]
    have the same values in [SubmitEnum] and [ValidateEnum]). *)
Definition asks (b : Z) (submitting : bool) (v : Validator) : bool :=
  Z.land (relevant submitting v) b =? b.

(** The validation icons. *)
Definition is_icon : element -> bool := has_class "validationIndicator".

(** The script pastes the full message into markup: it is the content of
    the help block and the title of the icon.  There it stands for
    itself, and the icon is one element, when it is plain text:
    printable ASCII characters and line feeds, none of them a quotation
    mark, an ampersand or an angle bracket. *)
Definition plain_char (c : ascii) : bool :=
  let n := nat_of_ascii c in
  (Nat.eqb n 10 || (Nat.leb 32 n && Nat.leb n 126))
  && negb (existsb (Nat.eqb n) [34; 38; 60; 62]%nat).

Fixpoint plain (s : string) : bool :=
  match s with
  | EmptyString => true
  | String c r => plain_char c && plain r
  end.

(** [setValidationResults] in two steps.  First the prior results are
    cleared; this gives the document and the help block. *)
Definition cleared (t : target) (d : document) : document * jq :=
  let c := control t in
  let '(d, help) := help_block t d in
  let d := set_attr "aria-describedby" (first_id d help) [c] d in
  let d := set_prop_aria_invalid false [c] d in
  let d := removeClass (pPASS HighlightEnum) [c] d in
  let d := removeClass (pFAIL HighlightEnum) [c] d in
  let d := removeClass (pWARN HighlightEnum) [c] d in
  let d := set_html "" help d in
  let d := addClass "hidden" help d in
  (remove (children_where d (indicator t) (has_class "validationIndicator")) d, help).

(** Then, unless the field is blank and has passed, the results are
    shown as the behaviour asks. *)
Definition shown (submitting : bool) (v : Validator) (t : target) (help : jq)
    (d : document) : document :=
  let c := control t in
  let d := set_html (fullMessage t) help d in
  let d := if asks ValidateEnum.HELP submitting v
           then removeClass "hidden" help d else addClass "hidden" help d in
  let d := if asks ValidateEnum.ICON submitting v
           then append (icon t) (indicator t) d else d in
  if asks ValidateEnum.HIGHLIGHT submitting v then
    if state t =? StateEnum.WARN then addClass (pWARN HighlightEnum) [c] d
    else if state t =? StateEnum.FAIL then addClass (pFAIL HighlightEnum) [c] d
    else addClass (pPASS HighlightEnum) [c] d
  else d.

End Results.

(* ===================================================================== *)
(** * More sample pages *)
(* ===================================================================== *)

Module Samples.
Import JS Dom Val Page Rules.

(** A handler bound to the event [ev] of the element [trigger]. *)
Definition handles_event (trigger : nat) (ev : string)
    (h : nat * string * string) : bool :=
  let '(n, e, _) := h in Nat.eqb n trigger && String.eqb e ev.

(** The sample page with a rule on each field, both triggered by [keyup]
    on the e-mail field. *)
Definition shared_trigger : world :=
  addValidation "when" email_field ["keyup"] Validator_Date
    (addTarget when_field None None
       (addValidation "email" email_field ["keyup"] Validator_Required
          (addTarget email_field None None (fresh "" "" 7 15 true)))).

(** A second function under the name of the required rule. *)
Definition Validator_Impostor : ValidationFunction :=
  mkVF "Validator_Required" (fun target d => (target, d)).


(** The sample page with its form group switched off. *)
Definition switched_off (email : string) : document :=
  alter (with_classes ["form-group"; "disabled"]) 1%nat (page email "").

(** Two radio buttons of one name, without ids. *)
Definition radios : document :=
  [ node "FORM" "poll" "" [] Root ∅ "" "";
    node "INPUT" "" "answer" [] (Child 0) {[ "type" := "radio" ]} "yes" "";
    node "INPUT" "" "answer" [] (Child 0) {[ "type" := "radio" ]} "no" "" ].

(** The sample page with the same date in both fields, and the rule that
    compares the first with the second. *)
Definition same_dates : document := page "02/10/2015" "02/10/2015".

Definition the_second_date (d : document) : string := val d when_field.

(** The sample page under a validator whose scope is the document, with
    the e-mail field required, after a validation pass. *)
Definition whole_document : world :=
  validateAll false
    (with_rule Validator_Required
       (mkWorld (page "" "")
                (mkValidator [] [] 7 15 [send_button] true) [] [] None)).

End Samples.

(* ===================================================================== *)
(** * The constructor *)
(* ===================================================================== *)

Module Build.
Import JS Dom Val Report.

(** [:reset] *)
Definition is_reset (e : element) : bool :=
  (String.eqb (tag e) "INPUT" || String.eqb (tag e) "BUTTON")
  && match attrs e !! "type" with
     | Some t => String.eqb t "reset"
     | None => false
     end.

(** [form] *)
Definition is_form (e : element) : bool := String.eqb (tag e) "FORM".

(** A validator on its page, with the two kinds of click handlers the
    constructor binds besides those of the targets: on the submit
    buttons, to [isValid], and on the reset buttons. *)
Record instance : Type := mkInstance {
  on_page : world;
  submit_clicks : jq;
  reset_clicks : jq
}.

(** [self.addTarget(this).addValidation(this, ['keyup', 'change'], vf)] *)
Definition automatic (vf : ValidationFunction) (w : world) (c : nat) : world :=
  let w := addTarget c None None w in
  addValidation (id_or_name (doc w) c) c ["keyup"; "change"] vf w.

(** [new Validator(scopeSelector, validationBehavior, submitSelector,
    submitBehavior)] on the document [d].  A selector is given by the
    elements it matches; [submitSelector] may be left out.  No
    [postValidation] is installed yet: it is assigned to the validator
    once it exists. *)
Definition new_Validator (d : document) (scopeSelector : element -> bool)
    (validationBehavior : Z) (submitSelector : option (element -> bool))
    (submitBehavior : Z) : instance :=
  let scope := select d scopeSelector in
  let self0 := mkValidator scope [] validationBehavior submitBehavior [] false in
  let submitButtons := match submitSelector with
                       | Some P => scope_find self0 d P
                       | None => []
                       end in
  let self := mkValidator scope [] validationBehavior submitBehavior
                          submitButtons false in
  let clicks := if (0 <? Z.of_nat (length submitButtons))
                   && (submitBehavior =? SubmitEnum.SUMMARY)
                then submitButtons else [] in
  (* If the page has a reset button, re-run all validations when it is
     clicked. *)
  let resets := scope_find self d is_reset in
  let w := mkWorld d self [] [] None in
  (* Automatic Validations *)
  let w := fold_left (fun w c => require c None None w)
                     (scope_find self (doc w) (has_class "valRequired")) w in
  let w := fold_left (automatic Validator_Date)
                     (scope_find self (doc w) (has_class "valDate")) w in
  let w := fold_left (automatic Validator_EMail)
                     (scope_find self (doc w) (has_class "valEMail")) w in
  (* Perform a full validation on instantiation. *)
  mkInstance (validateAll false w) clicks resets.

(** [this.targets[k].clear()] *)
Definition clear_key (w : world) (k : string) : world :=
  match get k (targets (self w)) with
  | Some vt =>
      let '(t, d) := clear (self w) (this vt) (doc w) in
      with_doc d (with_self (with_targets (set k (mkVT t (validations vt))
                                               (targets (self w))) (self w)) w)
  | None => w
  end.

(** The handler of the reset buttons.  [reset] is what the browser does
    to the document on [form.reset()].  Without a form below the scope
    [find('form')[0]] is [undefined] and the call throws: the handler
    ends there. *)
Definition reset_click (reset : nat -> document -> document) (w : world)
    : option world :=
  match scope_find (self w) (doc w) is_form with
  | [] => None
  | form :: _ =>
      Some (fold_left clear_key (keys (targets (self w)))
                      (with_doc (reset form (doc w)) w))
  end.

(** Every target agrees with its messages and carries reporting rules
    only. *)
Definition sound (w : world) : Prop :=
  Forall (fun kt => coherent (this (snd kt)) /\ reporting (validations (snd kt)))
         (targets (self w)).

(** A target as [clear] leaves it. *)
Definition cleared_target (vt : ValidationTarget) : Prop :=
  state (this vt) = StateEnum.PASS /\ messages (this vt) = [].

End Build.

(* ===================================================================== *)
(** * Tactics *)
(* ===================================================================== *)

(** Closed facts about concrete pages and inputs are settled by running
    the definitions, conjunct by conjunct. *)
Ltac by_computation :=
  repeat match goal with
         | |- _ /\ _ => split
         end;
  vm_compute; repeat match goal with
                     | |- _ /\ _ => split
                     end; reflexivity.

(* ===================================================================== *)
(** * Properties of objects *)
(* ===================================================================== *)

Module ObjFacts.
Import JS.

Section Laws.
Context {V : Type}.
Implicit Types (o : obj V) (k : string) (v : V).

Lemma get_update_same k v o :
  get k (update k v o) = match get k o with Some _ => Some v | None => None end.
Proof.
  induction o as [|[k' v'] r IH]; simpl; [reflexivity|].
  destruct (String.eqb k k') eqn:E; simpl.
  - rewrite String.eqb_refl. reflexivity.
  - rewrite E. exact IH.
Qed.

Lemma get_update_other k k' v o :
  k <> k' -> get k' (update k v o) = get k' o.
Proof.
  intros Hne. induction o as [|[k1 v1] r IH]; simpl; [reflexivity|].
  destruct (String.eqb k k1) eqn:E; simpl.
  - apply String.eqb_eq in E. subst k1.
    destruct (String.eqb k' k) eqn:E'; [|reflexivity].
    apply String.eqb_eq in E'. congruence.
  - destruct (String.eqb k' k1); [reflexivity|exact IH].
Qed.

Lemma get_insert_new_same k v o :
  get k o = None -> get k (insert_new k v o) = Some v.
Proof.
  induction o as [|[k' v'] r IH]; simpl; intros H.
  - rewrite String.eqb_refl. reflexivity.
  - destruct (String.eqb k k') eqn:E; [discriminate|].
    destruct (before k k'); simpl.
    + rewrite String.eqb_refl. reflexivity.
    + rewrite E. exact (IH H).
Qed.

Lemma get_insert_new_other k k' v o :
  k <> k' -> get k' (insert_new k v o) = get k' o.
Proof.
  intros Hne. induction o as [|[k1 v1] r IH]; simpl.
  - destruct (String.eqb k' k) eqn:E; [|reflexivity].
    apply String.eqb_eq in E. congruence.
  - destruct (before k k1); simpl.
    + destruct (String.eqb k' k) eqn:E; [|reflexivity].
      apply String.eqb_eq in E. congruence.
    + destruct (String.eqb k' k1); [reflexivity|exact IH].
Qed.

(** Reading back what was written. *)
Lemma get_set_same k v o : get k (set k v o) = Some v.
Proof.
  unfold set. destruct (get k o) eqn:E.
  - rewrite get_update_same, E. reflexivity.
  - apply get_insert_new_same, E.
Qed.

Lemma get_set_other k k' v o : k <> k' -> get k' (set k v o) = get k' o.
Proof.
  intros Hne. unfold set. destruct (get k o).
  - apply get_update_other, Hne.
  - apply get_insert_new_other, Hne.
Qed.

Lemma remove_absent k o : get k o = None -> remove k o = o.
Proof.
  induction o as [|[k' v'] r IH]; simpl; intros H; [reflexivity|].
  destruct (String.eqb k k'); [discriminate|]. rewrite (IH H). reflexivity.
Qed.

Lemma remove_update k v o : remove k (update k v o) = remove k o.
Proof.
  induction o as [|[k' v'] r IH]; simpl; [reflexivity|].
  destruct (String.eqb k k') eqn:E; simpl.
  - rewrite String.eqb_refl. reflexivity.
  - rewrite E, IH. reflexivity.
Qed.

Lemma remove_insert_new k v o : get k o = None -> remove k (insert_new k v o) = o.
Proof.
  induction o as [|[k' v'] r IH]; simpl; intros H.
  - rewrite String.eqb_refl. reflexivity.
  - destruct (String.eqb k k') eqn:E; [discriminate|].
    destruct (before k k'); simpl.
    + rewrite String.eqb_refl, E, (remove_absent k r H). reflexivity.
    + rewrite E, (IH H). reflexivity.
Qed.

(** Deleting a property undoes its creation, however often it was
    overwritten in between. *)
Lemma remove_set k v o : remove k (set k v o) = remove k o.
Proof.
  unfold set. destruct (get k o) eqn:E.
  - apply remove_update.
  - rewrite (remove_insert_new k v o E), (remove_absent k o E). reflexivity.
Qed.

Lemma get_remove_same k o : get k (remove k o) = None.
Proof.
  induction o as [|[k' v'] r IH]; simpl; [reflexivity|].
  destruct (String.eqb k k') eqn:E; [exact IH|]. simpl. rewrite E. exact IH.
Qed.

Lemma get_remove_other k k' o : k <> k' -> get k' (remove k o) = get k' o.
Proof.
  intros Hne. induction o as [|[k1 v1] r IH]; simpl; [reflexivity|].
  destruct (String.eqb k k1) eqn:E; simpl.
  - apply String.eqb_eq in E. subst k1.
    destruct (String.eqb k' k) eqn:E'; [|exact IH].
    apply String.eqb_eq in E'. congruence.
  - destruct (String.eqb k' k1); [reflexivity|exact IH].
Qed.

Lemma keys_update k v o : get k o <> None -> keys (update k v o) = keys o.
Proof.
  induction o as [|[k' v'] r IH]; simpl; intros H; [reflexivity|].
  destruct (String.eqb k k') eqn:E; simpl.
  - apply String.eqb_eq in E. subst. reflexivity.
  - f_equal. exact (IH H).
Qed.

(** Overwriting a property creates none. *)
Lemma keys_set_present k v o : get k o <> None -> keys (set k v o) = keys o.
Proof.
  intros H. unfold set. destruct (get k o) eqn:E; [|congruence].
  apply keys_update. congruence.
Qed.

Lemma length_insert_new k v o : length (insert_new k v o) = S (length o).
Proof.
  induction o as [|[k' v'] r IH]; simpl; [reflexivity|].
  destruct (before k k'); simpl; [reflexivity|]. rewrite IH. reflexivity.
Qed.

Lemma length_set_absent k v o : get k o = None -> length (set k v o) = S (length o).
Proof. intros H. unfold set. rewrite H. apply length_insert_new. Qed.

Lemma length_keys o : length (keys o) = length o.
Proof. induction o as [|x r IH]; simpl; [reflexivity|]. rewrite IH. reflexivity. Qed.

Lemma get_in k o : get k o = None <-> ~ In k (keys o).
Proof.
  induction o as [|[k' v'] r IH]; simpl.
  - split; [intros _ []|reflexivity].
  - destruct (String.eqb k k') eqn:E.
    + apply String.eqb_eq in E. subst.
      split; [discriminate|]. intros H. exfalso. apply H. left. reflexivity.
    + apply String.eqb_neq in E. rewrite IH.
      split; [intros H [H1|H1]; [congruence|exact (H H1)]
             |intros H H1; apply H; right; exact H1].
Qed.

Lemma keys_insert_new k v o x :
  In x (keys (insert_new k v o)) <-> x = k \/ In x (keys o).
Proof.
  induction o as [|[k' v'] r IH]; simpl.
  - split; [intros [H|[]]; left; congruence | intros [H|[]]; left; congruence].
  - destruct (before k k'); simpl.
    + split; [intros [H|H]; [left; congruence|right; exact H]
             |intros [H|H]; [left; congruence|right; exact H]].
    + rewrite IH. split; [intros [H|[H|H]]|intros [H|[H|H]]]; auto.
Qed.

Lemma NoDup_insert_new k v o :
  get k o = None -> List.NoDup (keys o) -> List.NoDup (keys (insert_new k v o)).
Proof.
  induction o as [|[k' v'] r IH]; simpl; intros H Hn.
  - constructor; [simpl; tauto|constructor].
  - destruct (String.eqb k k') eqn:E; [discriminate|].
    apply String.eqb_neq in E. inversion Hn as [|? ? Hk' Hr]; subst.
    destruct (before k k'); simpl.
    + constructor; [|exact Hn].
      intros [H1|H1]; [congruence|]. apply get_in in H. exact (H H1).
    + constructor; [|exact (IH H Hr)].
      rewrite keys_insert_new. intros [H1|H1]; [congruence|exact (Hk' H1)].
Qed.

(** An object never holds a property twice. *)
Lemma NoDup_set k v o : List.NoDup (keys o) -> List.NoDup (keys (set k v o)).
Proof.
  intros Hn. unfold set. destruct (get k o) eqn:E.
  - rewrite keys_update; [exact Hn|congruence].
  - apply NoDup_insert_new; assumption.
Qed.

Lemma keys_remove k o x :
  In x (keys (remove k o)) -> In x (keys o).
Proof.
  induction o as [|[k' v'] r IH]; simpl; [tauto|].
  destruct (String.eqb k k'); simpl; intros H.
  - right. exact (IH H).
  - destruct H as [H|H]; [left; exact H|right; exact (IH H)].
Qed.

Lemma NoDup_remove k o : List.NoDup (keys o) -> List.NoDup (keys (remove k o)).
Proof.
  induction o as [|[k' v'] r IH]; simpl; intros Hn; [constructor|].
  inversion Hn as [|? ? Hk' Hr]; subst.
  destruct (String.eqb k k'); simpl; [exact (IH Hr)|].
  constructor; [|exact (IH Hr)].
  intros H. apply Hk'. exact (keys_remove k r k' H).
Qed.
End Laws.

End ObjFacts.

(* ===================================================================== *)
(** * Properties of the document *)
(* ===================================================================== *)

Module DomFacts.
Import JS Dom.

(** What a change made to every element of a jQuery object establishes
    holds afterwards of each of them. *)
Section Each.
Variable P : element -> Prop.
Variable f : element -> element.
Hypothesis establishes : forall e, P (f e).

Lemma each_preserves (q : jq) (d : document) n e :
  d !! n = Some e -> P e -> exists e', each f q d !! n = Some e' /\ P e'.
Proof.
  revert d e. induction q as [|a q IH]; intros d e Hn He; [eauto|].
  unfold each in *. cbn [fold_left].
  destruct (Nat.eq_dec a n) as [->|Hne].
  - apply (IH _ (f e)); [|apply establishes].
    rewrite list_lookup_alter_eq, Hn. reflexivity.
  - apply (IH _ e); [|exact He].
    rewrite list_lookup_alter_ne by assumption. exact Hn.
Qed.

Lemma each_establishes (q : jq) (d : document) n e :
  In n q -> d !! n = Some e -> exists e', each f q d !! n = Some e' /\ P e'.
Proof.
  revert d e. induction q as [|a q IH]; intros d e Hin Hn; [destruct Hin|].
  unfold each in *. cbn [fold_left].
  destruct (Nat.eq_dec a n) as [->|Hne].
  - apply (each_preserves q _ n (f e)); [|apply establishes].
    rewrite list_lookup_alter_eq, Hn. reflexivity.
  - destruct Hin as [->|Hin]; [congruence|].
    apply (IH _ e Hin). rewrite list_lookup_alter_ne by assumption. exact Hn.
Qed.
End Each.

Lemma addClass_has c q d n e :
  c <> "" -> In n q -> d !! n = Some e ->
  satisfies (addClass c q d) (has_class c) n = true.
Proof.
  intros Hc Hin Hn. unfold addClass, satisfies.
  match goal with
  | |- context [each ?f q d] =>
      destruct (each_establishes (fun e => has_class c e = true) f) with
        (q := q) (d := d) (n := n) (e := e) as (e' & -> & He'); auto
  end.
  intros x. destruct (has_class c x) eqn:E; cbn [orb]; [exact E|].
  destruct (String.eqb_spec c ""); [congruence|].
  unfold has_class. cbn [classes with_classes]. rewrite existsb_app. cbn.
  rewrite String.eqb_refl. apply orb_true_r.
Qed.

Lemma removeClass_has_not c q d n e :
  In n q -> d !! n = Some e ->
  satisfies (removeClass c q d) (has_class c) n = false.
Proof.
  intros Hin Hn. unfold removeClass, satisfies.
  match goal with
  | |- context [each ?f q d] =>
      destruct (each_establishes (fun e => has_class c e = false) f) with
        (q := q) (d := d) (n := n) (e := e) as (e' & -> & He'); auto
  end.
  intros x. unfold has_class. cbn [classes with_classes].
  induction (classes x) as [|y r IH]; [reflexivity|].
  cbn [List.filter]. destruct (String.eqb c y) eqn:E; cbn [negb]; [exact IH|].
  cbn [existsb]. rewrite E. exact IH.
Qed.

End DomFacts.

(* ===================================================================== *)
(** * Properties of the validator *)
(* ===================================================================== *)

Module ValProps.
Import JS Dom Val Page ObjFacts DomFacts.

(** ** The FAIL bit *)

(** [FAIL] is bit 1: [s & FAIL] is [FAIL] or 0 according to that bit. *)
Lemma land_FAIL s :
  Z.land s StateEnum.FAIL = if Z.testbit s 1 then StateEnum.FAIL else 0.
Proof.
  unfold StateEnum.FAIL. apply Z.bits_inj'. intros n Hn.
  rewrite Z.land_spec.
  destruct (Z.eq_dec n 1) as [->|Hne].
  - destruct (Z.testbit s 1); reflexivity.
  - assert (H2 : Z.testbit 2 n = false).
    { change 2 with (2 ^ 1). rewrite Z.pow2_bits_eqb by lia.
      apply Z.eqb_neq. lia. }
    rewrite H2, andb_false_r.
    destruct (Z.testbit s 1); [rewrite H2|rewrite Z.bits_0]; reflexivity.
Qed.

Lemma land_FAIL_eqb s : (Z.land s StateEnum.FAIL =? StateEnum.FAIL) = Z.testbit s 1.
Proof. rewrite land_FAIL. destruct (Z.testbit s 1); reflexivity. Qed.

Lemma land_FAIL_zero s : (Z.land s StateEnum.FAIL =? 0) = negb (Z.testbit s 1).
Proof. rewrite land_FAIL. destruct (Z.testbit s 1); reflexivity. Qed.

(** ** The cumulative state *)

Lemma fold_lor (ts : obj ValidationTarget) (s0 : Z) :
  fold_left (fun s kt => Z.lor s (state (this (snd kt)))) ts s0
  = Z.lor s0 (cumulative ts).
Proof.
  unfold cumulative. revert s0.
  induction ts as [|x r IH]; intros s0; simpl.
  - rewrite Z.lor_0_r. reflexivity.
  - rewrite IH, (IH (Z.lor StateEnum.PASS _)).
    unfold StateEnum.PASS. rewrite Z.lor_0_l, Z.lor_assoc. reflexivity.
Qed.

Lemma cumulative_cons x (r : obj ValidationTarget) :
  cumulative (x :: r) = Z.lor (status x) (cumulative r).
Proof.
  unfold cumulative at 1. simpl. rewrite fold_lor.
  unfold StateEnum.PASS. rewrite Z.lor_0_l. reflexivity.
Qed.

Lemma cumulative_testbit (ts : obj ValidationTarget) (i : Z) :
  Z.testbit (cumulative ts) i = existsb (fun kt => Z.testbit (status kt) i) ts.
Proof.
  induction ts as [|x r IH].
  - apply Z.bits_0.
  - rewrite cumulative_cons, Z.lor_spec, IH. reflexivity.
Qed.

Lemma cumulative_insert_new k vt (ts : obj ValidationTarget) :
  cumulative (insert_new k vt ts) = Z.lor (cumulative ts) (state (this vt)).
Proof.
  induction ts as [|[k' v'] r IH]; simpl.
  - rewrite cumulative_cons. apply Z.lor_comm.
  - destruct (before k k').
    + rewrite cumulative_cons. apply Z.lor_comm.
    + rewrite !cumulative_cons, IH, Z.lor_assoc. reflexivity.
Qed.

(** A new target has passed and carries no validation function. *)
Lemma new_ValidationTarget_fresh v d c nm ind :
  state (this (new_ValidationTarget v d c nm ind)) = StateEnum.PASS
  /\ validations (new_ValidationTarget v d c nm ind) = [].
Proof.
  unfold new_ValidationTarget.
  repeat match goal with
         | |- context [match ?x with _ => _ end] => destruct x
         end; auto.
Qed.

Lemma state_of_addTarget c nm ind w : state_of (addTarget c nm ind w) = state_of w.
Proof.
  unfold addTarget, state_of.
  destruct (get (id_or_name (doc w) c) (targets (self w))) eqn:E; [reflexivity|].
  simpl. unfold set. rewrite E, cumulative_insert_new.
  rewrite (proj1 (new_ValidationTarget_fresh _ _ _ _ _)).
  apply Z.lor_0_r.
Qed.

(** C2.  The cumulative state is the bitwise OR of the states of all
    targets: a bit is set in it exactly when it is set in the state of
    some target.  A target added under a new key contributes its state to
    the OR, so it cannot clear a FAIL bit that was set; [addTarget], which
    creates targets in state PASS, leaves the cumulative state as it
    was. *)
Theorem cumulative_state_is_the_or_of_all_targets :
  forall (w : world) (k : string) (vt : ValidationTarget) (i : Z),
    get k (targets (self w)) = None ->
    Z.testbit (state_of w) i
    = existsb (fun kt => Z.testbit (state (this (snd kt))) i) (targets (self w))
    /\ cumulative (set k vt (targets (self w)))
       = Z.lor (state_of w) (state (this vt))
    /\ (Z.testbit (state_of w) 1 = true ->
        Z.testbit (cumulative (set k vt (targets (self w)))) 1 = true)
    /\ (forall c nm ind, state_of (addTarget c nm ind w) = state_of w).
Proof.
  intros w k vt i Hk.
  assert (Hset : cumulative (set k vt (targets (self w)))
                 = Z.lor (state_of w) (state (this vt))).
  { unfold set. rewrite Hk. apply cumulative_insert_new. }
  split; [apply cumulative_testbit|].
  split; [exact Hset|].
  split.
  - intros H. rewrite Hset, Z.lor_spec, H. reflexivity.
  - intros c nm ind. apply state_of_addTarget.
Qed.

Lemma negb_existsb {A : Type} (f : A -> bool) (l : list A) :
  negb (existsb f l) = forallb (fun x => negb (f x)) l.
Proof.
  induction l as [|x r IH]; simpl; [reflexivity|].
  rewrite negb_orb, IH. reflexivity.
Qed.

(** ** What a validation pass leaves alone *)

Lemma validate_key_calls s w k : calls (validate_key s w k) = calls w.
Proof.
  unfold validate_key. destruct (get k (targets (self w))); [|reflexivity].
  destruct (validateAll_target s (self w) v (doc w)). reflexivity.
Qed.

Lemma validate_key_config s w k :
  postValidation (self (validate_key s w k)) = postValidation (self w)
  /\ submitBehavior (self (validate_key s w k)) = submitBehavior (self w)
  /\ submitButtons (self (validate_key s w k)) = submitButtons (self w).
Proof.
  unfold validate_key. destruct (get k (targets (self w))); [|auto].
  destruct (validateAll_target s (self w) v (doc w)). auto.
Qed.

Lemma pass_calls s ks w :
  calls (fold_left (validate_key s) ks w) = calls w.
Proof.
  revert w. induction ks as [|k r IH]; intros w; simpl; [reflexivity|].
  rewrite IH. apply validate_key_calls.
Qed.

Lemma pass_config s ks w :
  postValidation (self (fold_left (validate_key s) ks w)) = postValidation (self w)
  /\ submitBehavior (self (fold_left (validate_key s) ks w)) = submitBehavior (self w)
  /\ submitButtons (self (fold_left (validate_key s) ks w)) = submitButtons (self w).
Proof.
  revert w. induction ks as [|k r IH]; intros w; simpl; [auto|].
  destruct (IH (validate_key s w k)) as (H1 & H2 & H3).
  destruct (validate_key_config s w k) as (G1 & G2 & G3).
  rewrite H1, H2, H3. auto.
Qed.

Lemma post_targets w : targets (self (post w)) = targets (self w).
Proof.
  unfold post.
  destruct (postValidation (self w)); simpl;
    destruct (submitBehavior (self w) =? SubmitEnum.DISABLE);
    try destruct (negb _); reflexivity.
Qed.

Lemma post_calls w :
  calls (post w)
  = if postValidation (self w)
    then calls w ++ [negb (Z.testbit (state_of w) 1)]
    else calls w.
Proof.
  unfold post. rewrite land_FAIL_eqb.
  destruct (postValidation (self w)); simpl;
    destruct (submitBehavior (self w) =? SubmitEnum.DISABLE);
    try destruct (negb _); reflexivity.
Qed.

Lemma state_of_post w : state_of (post w) = state_of w.
Proof. unfold state_of. rewrite post_targets. reflexivity. Qed.

(** C8.  A full validation pass calls [postValidation], when one is
    installed, exactly once, with [true] when no target has the FAIL bit
    in its state after the pass and [false] when some target has it.  A
    field that only warns counts as passed. *)
Theorem postValidation_is_called_once_with_all_passed :
  forall (submitting : bool) (w : world),
    let w' := validateAll submitting w in
    calls w'
    = (if postValidation (self w)
       then calls w ++ [forallb (fun kt => negb (Z.testbit (state (this (snd kt))) 1))
                                (targets (self w'))]
       else calls w)
    /\ calls (validateAll false
                (with_rule Validator_Required (fresh "" "" 7 15 true))) = [false]
    /\ calls (validateAll false
                (with_rule Validator_Required (fresh "a@b.com" "" 7 15 true))) = [true]
    /\ calls (validateAll false
                (with_rule Validator_Shout (fresh "a@b.com" "" 7 15 true))) = [true]
    /\ states (validateAll false
                 (with_rule Validator_Shout (fresh "a@b.com" "" 7 15 true)))
       = [("email", StateEnum.WARN)].
Proof.
  intros submitting w w'. split; [|by_computation].
  unfold w', validateAll.
  rewrite post_calls, post_targets, pass_calls.
  destruct (pass_config submitting (keys (targets (self w))) w) as (-> & _ & _).
  destruct (postValidation (self w)); [|reflexivity].
  f_equal. f_equal. unfold state_of.
  set (ts := targets (self _)). clearbody ts.
  rewrite cumulative_testbit. apply negb_existsb.
Qed.

(** ** Registration of validation functions *)

Lemma register_fresh vs b trig tid k ev vf :
  get (vf_name vf) vs = None ->
  register trig tid k [ev] vf (vs, b)
  = (set (vf_name vf) (mkValidation false {[ event_id tid ev := of_Z 1 ]} (vf_method vf)) vs,
     b ++ [(trig, ev, k)]).
Proof.
  intros H. unfold register. rewrite H.
  cbn -[of_Z incr]. unfold add_event. rewrite lookup_empty, insert_empty.
  reflexivity.
Qed.

Lemma register_again vs b trig tid k ev vf x n :
  get (vf_name vf) vs = Some x ->
  refCount x !! event_id tid ev = Some n ->
  register trig tid k [ev] vf (vs, b)
  = (set (vf_name vf) (mkValidation (lock x) (<[ event_id tid ev := incr n ]> (refCount x)) (method x)) vs, b).
Proof.
  intros H Hn. unfold register. rewrite H.
  cbn -[of_Z incr]. unfold add_event. rewrite Hn.
  reflexivity.
Qed.

Lemma unregister_keep vs b trig tid ev vf x :
  get (vf_name vf) vs = Some x ->
  fltb (decr (refCount x !! event_id tid ev)) (of_Z 1) = false ->
  unregister trig tid [ev] vf (vs, b)
  = (set (vf_name vf) (mkValidation (lock x) (<[ event_id tid ev := decr (refCount x !! event_id tid ev) ]> (refCount x)) (method x)) vs, b).
Proof.
  intros H Hn. unfold unregister. rewrite H.
  cbn -[of_Z decr fltb base.size]. unfold remove_event. rewrite Hn.
  destruct (Nat.eqb_spec (base.size (<[event_id tid ev:=decr (refCount x !! event_id tid ev)]> (refCount x))) 0) as [E|E]; [|reflexivity].
  apply map_size_empty_iff in E. exfalso. exact (insert_non_empty _ _ _ E).
Qed.

Lemma unregister_last vs b trig tid ev vf x :
  get (vf_name vf) vs = Some x ->
  fltb (decr (refCount x !! event_id tid ev)) (of_Z 1) = true ->
  delete (event_id tid ev) (refCount x) = ∅ ->
  unregister trig tid [ev] vf (vs, b)
  = (JS.remove (vf_name vf) vs, off trig ev b).
Proof.
  intros H Hn He. unfold unregister. rewrite H.
  cbn -[of_Z decr fltb base.size]. unfold remove_event. rewrite Hn, He.
  reflexivity.
Qed.

Lemma refcount_cycle vs b trig tid k ev vf :
  get (vf_name vf) vs = None ->
  let st1 := register trig tid k [ev] vf (vs, b) in
  let st2 := register trig tid k [ev] vf st1 in
  let st3 := unregister trig tid [ev] vf st2 in
  let st4 := unregister trig tid [ev] vf st3 in
  (option_map refCount (get (vf_name vf) (fst st1)) = Some {[ event_id tid ev := of_Z 1 ]}
   /\ length (fst st1) = S (length vs) /\ snd st1 = b ++ [(trig, ev, k)])
  /\ (option_map refCount (get (vf_name vf) (fst st2)) = Some {[ event_id tid ev := of_Z 2 ]}
      /\ keys (fst st2) = keys (fst st1) /\ snd st2 = snd st1)
  /\ (option_map refCount (get (vf_name vf) (fst st3)) = Some {[ event_id tid ev := of_Z 1 ]}
      /\ keys (fst st3) = keys (fst st1) /\ snd st3 = snd st1)
  /\ (fst st4 = vs /\ snd st4 = off trig ev (snd st1)).
Proof.
  intros H st1 st2 st3 st4.
  set (e := event_id tid ev) in *.
  assert (E1 : st1 = (set (vf_name vf) (mkValidation false {[ e := of_Z 1 ]} (vf_method vf)) vs, b ++ [(trig, ev, k)])).
  { apply register_fresh, H. }
  assert (E2 : st2 = (set (vf_name vf) (mkValidation false {[ e := of_Z 2 ]} (vf_method vf)) (fst st1), snd st1)).
  { unfold st2. rewrite E1 at 1.
    erewrite register_again; [|apply get_set_same|apply lookup_singleton_eq].
    rewrite E1. simpl. rewrite insert_singleton_eq. reflexivity. }
  assert (G1 : get (vf_name vf) (fst st1) <> None).
  { rewrite E1. simpl. rewrite get_set_same. discriminate. }
  assert (E3 : st3 = (set (vf_name vf) (mkValidation false {[ e := of_Z 1 ]} (vf_method vf)) (fst st2), snd st1)).
  { unfold st3. rewrite E2 at 1.
    erewrite unregister_keep; [|apply get_set_same|simpl; fold e; rewrite lookup_singleton_eq; reflexivity ].
    rewrite E2. simpl. fold e. rewrite lookup_singleton_eq, insert_singleton_eq. reflexivity. }
  assert (E4 : st4 = (vs, off trig ev (snd st1))).
  { unfold st4. rewrite E3 at 1.
    erewrite unregister_last; [|apply get_set_same|simpl; fold e; rewrite lookup_singleton_eq; reflexivity|simpl; fold e; apply delete_singleton_eq].
    rewrite E2, E1. simpl. rewrite !remove_set, (remove_absent _ _ H). reflexivity. }
  repeat split.
  - rewrite E1. simpl. rewrite get_set_same. reflexivity.
  - rewrite E1. simpl. apply length_set_absent, H.
  - rewrite E1. reflexivity.
  - rewrite E2. simpl. rewrite get_set_same. reflexivity.
  - rewrite E2. simpl. apply keys_set_present, G1.
  - rewrite E2. reflexivity.
  - rewrite E3. simpl. rewrite get_set_same. reflexivity.
  - rewrite E3. simpl. rewrite keys_set_present.
    + rewrite E2. simpl. apply keys_set_present, G1.
    + rewrite E2. simpl. rewrite get_set_same. discriminate.
  - rewrite E3. reflexivity.
  - rewrite E4. reflexivity.
  - rewrite E4. reflexivity.
Qed.

Lemma run_validation_keys n st :
  keys (validations (fst (run_validation n st))) = keys (validations (fst st)).
Proof.
  destruct st as [vt d]. unfold run_validation.
  destruct (get n (validations vt)) eqn:E; [|reflexivity].
  destruct (lock v); [reflexivity|].
  destruct (method v (this vt) d) as [t d']. simpl.
  rewrite !keys_set_present; [reflexivity|congruence|].
  rewrite get_set_same. discriminate.
Qed.

Lemma run_all_keys ns st :
  keys (validations (fst (fold_left (fun st n => run_validation n st) ns st)))
  = keys (validations (fst st)).
Proof.
  revert st. induction ns as [|n r IH]; intros st; simpl; [reflexivity|].
  rewrite IH. apply run_validation_keys.
Qed.

Lemma unlock_all_keys vs : keys (unlock_all vs) = keys vs.
Proof. unfold unlock_all, keys. rewrite map_map. reflexivity. Qed.

Lemma validateAll_target_keys s v vt d :
  keys (validations (fst (validateAll_target s v vt d))) = keys (validations vt).
Proof.
  unfold validateAll_target.
  destruct (clear v (this vt) d) as [t d1].
  destruct (parents d1 (control t) (has_class "disabled")); [|reflexivity].
  destruct (fold_left _ _ _) as [vt2 d2] eqn:E. simpl.
  rewrite unlock_all_keys.
  change vt2 with (fst (vt2, d2)). rewrite <- E, run_all_keys. reflexivity.
Qed.

Lemma keys_nil {V} (o : obj V) : keys o = [] <-> o = [].
Proof. destruct o; simpl; split; congruence. Qed.

Lemma disposal w c trig events vf vt :
  let k := id_or_name (doc w) c in
  let tid := id_or_name (doc w) trig in
  get k (targets (self w)) = Some vt ->
  let vs := fst (unregister trig tid events vf (validations vt, bound w)) in
  let w' := removeControlFunction c trig events vf w in
  (vs = [] -> get k (targets (self w')) = None)
  /\ (vs <> [] -> get k (targets (self w')) <> None).
Proof.
  intros k tid Hk vs w'.
  unfold w', removeControlFunction. fold k. rewrite Hk.
  unfold removeValidation. rewrite Hk. fold tid.
  set (st := unregister trig tid events vf (validations vt, bound w)) in *.
  set (wm := with_validations k vt st w).
  assert (Hm : get k (targets (self wm)) = Some (mkVT (this vt) vs)).
  { unfold wm, with_validations. simpl. apply get_set_same. }
  unfold validate. 
  assert (Hv : exists vt', get k (targets (self (post (validate_key false wm k)))) = Some vt'
            /\ keys (validations vt') = keys vs).
  { rewrite post_targets. unfold validate_key. rewrite Hm.
    pose proof (validateAll_target_keys false (self wm) (mkVT (this vt) vs) (doc wm)) as Hkeys.
    destruct (validateAll_target false (self wm) (mkVT (this vt) vs) (doc wm)) as [vt' d'].
    exists vt'. simpl. rewrite get_set_same. split; [reflexivity|exact Hkeys]. }
  destruct Hv as (vt' & Hget & Hkeys). rewrite Hget.
  split; intros Hvs.
  - assert (validations vt' = []) as ->.
    { apply keys_nil. rewrite Hkeys, Hvs. reflexivity. }
    change (JS.size (V:=validation) [] =? 0) with true. cbv iota.
    match goal with |- context [clear ?a ?b ?c] => destruct (clear a b c) as [t d] end.
    simpl. apply get_remove_same.
  - destruct (validations vt') eqn:E.
    + exfalso. apply Hvs. apply keys_nil. rewrite <- Hkeys. try rewrite E. reflexivity.
    + unfold JS.size. simpl length. destruct (Z.of_nat (S (length o)) =? 0) eqn:E0; [apply Z.eqb_eq in E0; lia|].
      rewrite Hget. discriminate.
Qed.

(** Registering never duplicates an entry of [validations]. *)
Lemma register_NoDup trig tid k events vf st :
  List.NoDup (keys (fst st)) ->
  List.NoDup (keys (fst (register trig tid k events vf st))).
Proof.
  destruct st as [vs b]. intros Hn. unfold register.
  match goal with
  | |- context [fold_left ?f ?l ?a] => destruct (fold_left f l a) as [rc b']
  end.
  simpl. apply NoDup_set, Hn.
Qed.

Lemma run_validation_counts n' st n :
  counts_of (validations (fst (run_validation n' st))) n
  = counts_of (validations (fst st)) n.
Proof.
  destruct st as [vt d]. unfold run_validation, counts_of.
  destruct (get n' (validations vt)) as [x|] eqn:E; [|reflexivity].
  destruct (lock x); [reflexivity|].
  destruct (method x (this vt) d) as [t d']. cbn [fst validations].
  destruct (String.eqb_spec n' n) as [->|Hne].
  - rewrite get_set_same, E. reflexivity.
  - rewrite !get_set_other by assumption. reflexivity.
Qed.

Lemma run_all_counts ns st n :
  counts_of (validations (fst (fold_left (fun st n => run_validation n st) ns st))) n
  = counts_of (validations (fst st)) n.
Proof.
  revert st. induction ns as [|n' r IH]; intros st; [reflexivity|].
  cbn [fold_left]. rewrite IH. apply run_validation_counts.
Qed.

Lemma unlock_all_counts vs n : counts_of (unlock_all vs) n = counts_of vs n.
Proof.
  unfold counts_of, unlock_all.
  induction vs as [|[k x] r IH]; [reflexivity|].
  cbn [map get fst snd]. destruct (String.eqb n k); [reflexivity|exact IH].
Qed.

Lemma validateAll_target_counts s v vt d n :
  counts_of (validations (fst (validateAll_target s v vt d))) n
  = counts_of (validations vt) n.
Proof.
  unfold validateAll_target.
  destruct (clear v (this vt) d) as [t d1].
  destruct (parents d1 (control t) (has_class "disabled")); [|reflexivity].
  destruct (fold_left _ _ _) as [vt2 d2] eqn:E. cbn [fst validations].
  rewrite unlock_all_counts.
  change vt2 with (fst (vt2, d2)). rewrite <- E, run_all_counts. reflexivity.
Qed.

Lemma post_bound w : bound (post w) = bound w.
Proof.
  unfold post. destruct (postValidation (self w)); cbn;
    destruct (submitBehavior (self w) =? SubmitEnum.DISABLE);
    try destruct (negb _); reflexivity.
Qed.

(** What [validate] leaves of the registrations of its target. *)
Lemma validate_registrations k w vt :
  get k (targets (self w)) = Some vt ->
  exists vt',
    get k (targets (self (validate k w))) = Some vt'
    /\ (forall n, counts_of (validations vt') n = counts_of (validations vt) n)
    /\ keys (validations vt') = keys (validations vt)
    /\ bound (validate k w) = bound w.
Proof.
  intros Hk. unfold validate. rewrite post_targets, post_bound.
  unfold validate_key. rewrite Hk.
  pose proof (validateAll_target_counts false (self w) vt (doc w)) as Hc.
  pose proof (validateAll_target_keys false (self w) vt (doc w)) as Hks.
  destruct (validateAll_target false (self w) vt (doc w)) as [vt' d'].
  exists vt'. cbn. rewrite get_set_same. auto.
Qed.

Lemma addValidation_registers k trig events vf w vt :
  get k (targets (self w)) = Some vt ->
  let st := register trig (id_or_name (doc w) trig) k events vf (validations vt, bound w) in
  get k (targets (self (addValidation k trig events vf w))) = Some (mkVT (this vt) (fst st))
  /\ bound (addValidation k trig events vf w) = snd st
  /\ doc (addValidation k trig events vf w) = doc w.
Proof.
  intros Hk st. unfold addValidation. rewrite Hk. fold st.
  unfold with_validations. cbn. rewrite get_set_same. auto.
Qed.

Lemma removeValidation_unregisters k trig events vf w vt :
  get k (targets (self w)) = Some vt ->
  let st := unregister trig (id_or_name (doc w) trig) events vf (validations vt, bound w) in
  exists vt',
    get k (targets (self (removeValidation k trig events vf w))) = Some vt'
    /\ (forall n, counts_of (validations vt') n = counts_of (fst st) n)
    /\ keys (validations vt') = keys (fst st)
    /\ bound (removeValidation k trig events vf w) = snd st.
Proof.
  intros Hk st. unfold removeValidation. rewrite Hk. fold st.
  assert (Hm : get k (targets (self (with_validations k vt st w)))
               = Some (mkVT (this vt) (fst st))).
  { unfold with_validations. cbn. apply get_set_same. }
  destruct (validate_registrations k _ _ Hm) as (vt' & H1 & H2 & H3 & H4).
  exists vt'. auto.
Qed.

Lemma world_cycle w k trig ev vf vt :
  let tid := id_or_name (doc w) trig in
  let n := vf_name vf in
  let w1 := addValidation k trig [ev] vf w in
  let w2 := addValidation k trig [ev] vf w1 in
  let w3 := removeValidation k trig [ev] vf w2 in
  let w4 := removeValidation k trig [ev] vf w3 in
  get k (targets (self w)) = Some vt ->
  get n (validations vt) = None ->
  id_or_name (doc w3) trig = tid ->
  (registered k n w2 = Some {[ event_id tid ev := of_Z 2 ]}
   /\ bound w2 = bound w ++ [(trig, ev, k)])
  /\ (registered k n w3 = Some {[ event_id tid ev := of_Z 1 ]}
      /\ bound w3 = bound w2)
  /\ (registered k n w4 = None
      /\ is_Some (get k (targets (self w4)))
      /\ bound w4 = off trig ev (bound w2)).
Proof.
  intros tid n w1 w2 w3 w4 Hk Hn Hid.
  destruct (refcount_cycle (validations vt) (bound w) trig tid k ev vf Hn)
    as ((R1 & _ & B1) & (R2 & _ & B2) & (R3 & _ & B3) & _).
  cbv zeta in R1, B1, R2, B2, R3, B3.
  set (st1 := register trig tid k [ev] vf (validations vt, bound w)) in *.
  set (st2 := register trig tid k [ev] vf st1) in *.
  set (st3 := unregister trig tid [ev] vf st2) in *.
  destruct (addValidation_registers k trig [ev] vf w vt Hk) as (T1 & Bw1 & D1).
  fold tid in T1, Bw1. fold st1 in T1, Bw1. fold w1 in T1, Bw1, D1.
  destruct (addValidation_registers k trig [ev] vf w1 _ T1) as (T2 & Bw2 & D2).
  rewrite D1 in T2, Bw2. fold tid in T2, Bw2. cbn [validations this] in T2, Bw2.
  rewrite Bw1 in T2, Bw2. rewrite <- surjective_pairing in T2, Bw2.
  fold st2 in T2, Bw2. fold w2 in T2, Bw2, D2.
  destruct (removeValidation_unregisters k trig [ev] vf w2 _ T2)
    as (vt3 & T3 & C3 & K3 & Bw3).
  rewrite D2, D1 in C3, K3, Bw3. fold tid in C3, K3, Bw3.
  cbn [validations this] in C3, K3, Bw3. rewrite Bw2 in C3, K3, Bw3.
  rewrite <- surjective_pairing in C3, K3, Bw3.
  fold st3 in C3, K3, Bw3. fold w3 in T3, Bw3.
  destruct (removeValidation_unregisters k trig [ev] vf w3 _ T3)
    as (vt4 & T4 & C4 & K4 & Bw4).
  rewrite Hid in C4, K4, Bw4. fold w4 in T4, Bw4.
  (* the second removal *)
  assert (G3 : exists x, get n (validations vt3) = Some x
                         /\ refCount x = {[ event_id tid ev := of_Z 1 ]}).
  { specialize (C3 n). unfold counts_of in C3. fold n in R3. rewrite R3 in C3.
    destruct (get n (validations vt3)) as [x|]; [|discriminate].
    exists x. split; [reflexivity|]. cbn [option_map] in C3.
    injection C3 as C3. exact C3. }
  destruct G3 as (x3 & G3 & RC3).
  assert (U4 : unregister trig tid [ev] vf (validations vt3, bound w3)
               = (JS.remove n (validations vt3), off trig ev (bound w3))).
  { apply unregister_last with x3; [exact G3| |].
    - rewrite RC3, lookup_singleton_eq. reflexivity.
    - rewrite RC3. apply delete_singleton_eq. }
  rewrite U4 in C4, K4, Bw4. cbn [fst snd] in C4, K4, Bw4.
  split; [|split].
  - unfold registered. rewrite T2. split; [exact R2|].
    rewrite Bw2, B2. exact B1.
  - unfold registered. rewrite T3, C3. split; [exact R3|].
    rewrite Bw3, B3, Bw2, B2. reflexivity.
  - unfold registered. rewrite T4, C4. split; [|split].
    + unfold counts_of. rewrite get_remove_same. reflexivity.
    + eauto.
    + rewrite Bw4, Bw3, B3, Bw2, B2. reflexivity.
Qed.


(** [removeControlFunction] is [removeValidation], followed by the disposal
    of the target when no validation function is left. *)
Lemma removeControlFunction_keeps w c trig events vf vt :
  let k := id_or_name (doc w) c in
  get k (targets (self w)) = Some vt ->
  fst (unregister trig (id_or_name (doc w) trig) events vf (validations vt, bound w)) <> [] ->
  removeControlFunction c trig events vf w = removeValidation k trig events vf w.
Proof.
  intros k Hk Hleft.
  destruct (removeValidation_unregisters k trig events vf w vt Hk)
    as (vt' & T & _ & K & _).
  unfold removeControlFunction. fold k. rewrite Hk, T.
  destruct (validations vt') eqn:E.
  - exfalso. apply Hleft. apply keys_nil. rewrite <- K. try rewrite E.
    reflexivity.
  - unfold JS.size. cbn [length].
    destruct (Z.of_nat (S (length o)) =? 0) eqn:E0; [|reflexivity].
    apply Z.eqb_eq in E0. lia.
Qed.

(** C6.  Registrations are counted per validation function and
    [triggerId.event], and a validation function has one entry in
    [validations] however often it is registered.  For a function that is
    not yet registered with a target: registering it twice on one trigger
    and event gives it the count 2 and binds one handler; removing it once
    leaves it registered, with count 1, and the handler bound; removing it
    again deletes its entry and unbinds the handler.
    [removeControlFunction] is this removal, and it disposes of the
    target, deleting it from [targets], exactly when the removal leaves
    the target without validation functions.  On the sample page, with
    the required rule as the only rule of the field, the second removal
    disposes of the target, and so does [unRequire] after [require]. *)
Theorem registration_is_reference_counted :
  forall (w : world) (k : string) (trig : nat) (ev : string)
         (vf : ValidationFunction) (vt : ValidationTarget),
    let tid := id_or_name (doc w) trig in
    let n := vf_name vf in
    let w1 := addValidation k trig [ev] vf w in
    let w2 := addValidation k trig [ev] vf w1 in
    let w3 := removeValidation k trig [ev] vf w2 in
    let w4 := removeValidation k trig [ev] vf w3 in
    get k (targets (self w)) = Some vt ->
    get n (validations vt) = None ->
    id_or_name (doc w3) trig = tid ->
    (registered k n w2 = Some {[ event_id tid ev := of_Z 2 ]}
     /\ bound w2 = bound w ++ [(trig, ev, k)])
    /\ (registered k n w3 = Some {[ event_id tid ev := of_Z 1 ]}
        /\ bound w3 = bound w2)
    /\ (registered k n w4 = None
        /\ is_Some (get k (targets (self w4)))
        /\ bound w4 = off trig ev (bound w2))
    /\ (forall trig' events vf' st,
          List.NoDup (keys (fst st)) ->
          List.NoDup (keys (fst (register trig' tid k events vf' st))))
    /\ (forall (u : world) (c : nat) (events : list string) (vu : ValidationTarget),
          let ku := id_or_name (doc u) c in
          let left := fst (unregister trig (id_or_name (doc u) trig) events vf
                                      (validations vu, bound u)) in
          get ku (targets (self u)) = Some vu ->
          (left = [] ->
           get ku (targets (self (removeControlFunction c trig events vf u))) = None)
          /\ (left <> [] ->
              removeControlFunction c trig events vf u
              = removeValidation ku trig events vf u))
    /\ (let u2 := twice_required in
        let u3 := removeControlFunction email_field email_field ["keyup"]
                                        Validator_Required u2 in
        let u4 := removeControlFunction email_field email_field ["keyup"]
                                        Validator_Required u3 in
        (rule_names "email" u2 = Some ["Validator_Required"]
         /\ counts "email" "Validator_Required" u2 = Some [("email.keyup", of_Z 2)]
         /\ bound u2 = [(email_field, "keyup", "email")])
        /\ (rule_names "email" u3 = Some ["Validator_Required"]
            /\ counts "email" "Validator_Required" u3 = Some [("email.keyup", of_Z 1)]
            /\ bound u3 = [(email_field, "keyup", "email")]
            /\ states (fire email_field "keyup" u3) = [("email", StateEnum.FAIL)])
        /\ (rule_names "email" u4 = None
            /\ targets (self u4) = []
            /\ bound u4 = []
            /\ fire email_field "keyup" u4 = u4))
    /\ (let r := require email_field None None (fresh "" "" 7 15 false) in
        rule_names "email" r = Some ["Validator_Required"]
        /\ registered "email" "Validator_Required" r
           = Some {[ "email.keyup" := of_Z 1; "email.change" := of_Z 1 ]}
        /\ bound r = [(email_field, "keyup", "email"); (email_field, "change", "email")]
        /\ states r = [("email", StateEnum.FAIL)]
        /\ targets (self (unRequire email_field r)) = []
        /\ bound (unRequire email_field r) = []).
Proof.
  intros w k trig ev vf vt tid n w1 w2 w3 w4 Hk Hn Hid.
  destruct (world_cycle w k trig ev vf vt Hk Hn Hid) as (H2 & H3 & H4).
  split; [exact H2|]. split; [exact H3|]. split; [exact H4|].
  split; [intros; apply register_NoDup; assumption|].
  split.
  - intros u c events vu ku left Hu. split.
    + apply (proj1 (disposal u c trig events vf vu Hu)).
    + apply removeControlFunction_keeps. exact Hu.
  - split; by_computation.
Qed.

Lemma registration_is_reference_counted_witness :
  let w := addTarget email_field None None (fresh "" "" 7 15 false) in
  let vt := new_ValidationTarget (self (fresh "" "" 7 15 false))
                                 (doc (fresh "" "" 7 15 false)) email_field None None in
  let w2 := addValidation "email" email_field ["keyup"] Validator_Required
              (addValidation "email" email_field ["keyup"] Validator_Required w) in
  let w3 := removeValidation "email" email_field ["keyup"] Validator_Required w2 in
  let w4 := removeValidation "email" email_field ["keyup"] Validator_Required w3 in
  get "email" (targets (self w)) = Some vt
  /\ get "Validator_Required" (validations vt) = None
  /\ id_or_name (doc w3) email_field = id_or_name (doc w) email_field
  /\ registered "email" "Validator_Required" w3 = Some {[ "email.keyup" := of_Z 1 ]}
  /\ registered "email" "Validator_Required" w4 = None.
Proof.
  intros w vt w2 w3 w4.
  split; [reflexivity|]. split; [reflexivity|]. split; [reflexivity|].
  pose proof (registration_is_reference_counted w "email" email_field "keyup"
                Validator_Required vt eq_refl eq_refl eq_refl)
    as (_ & (H3 & _) & (H4 & _) & _).
  split; [exact H3|exact H4].
Defined.

Lemma cumulative_state_is_the_or_of_all_targets_witness :
  let w := validateAll false (with_rule Validator_Required (fresh "" "" 7 15 false)) in
  let vt := new_ValidationTarget (self w) (doc w) when_field None None in
  get "when" (targets (self w)) = None
  /\ Z.testbit (state_of w) 1 = true
  /\ Z.testbit (cumulative (set "when" vt (targets (self w)))) 1 = true.
Proof.
  intros w vt.
  split; [reflexivity|]. split; [reflexivity|].
  exact (proj1 (proj2 (proj2
           (cumulative_state_is_the_or_of_all_targets w "when" vt 1 eq_refl)))
         eq_refl).
Defined.

(** ** Submission *)

Lemma append_cons (c : ascii) (a b : string) :
  String c a +:+ b = String c (a +:+ b).
Proof. reflexivity. Qed.

Lemma append_nil_r (s : string) : s +:+ "" = s.
Proof.
  induction s as [|c r IH]; [reflexivity|].
  rewrite append_cons, IH. reflexivity.
Qed.

Lemma append_assoc (a b c : string) : (a +:+ b) +:+ c = a +:+ (b +:+ c).
Proof.
  induction a as [|x r IH]; [reflexivity|].
  rewrite !append_cons, IH. reflexivity.
Qed.

Lemma fold_listing (f : nat -> string) (hs : list nat) (m : string) :
  fold_left
    (fun message h =>
       let localMessage := escape (f h) in
       if isEmpty localMessage then message
       else message +:+ "<li>" +:+ localMessage +:+ "</li>")
    hs m
  = m +:+ listing (map f hs).
Proof.
  revert m. induction hs as [|h r IH]; intros m.
  - unfold listing. cbn [map List.filter fold_right fold_left].
    rewrite append_nil_r. reflexivity.
  - cbn [fold_left]. rewrite IH. unfold listing.
    cbn [map List.filter].
    destruct (isEmpty (escape (f h))); cbn [negb map fold_right].
    + reflexivity.
    + rewrite !append_assoc. reflexivity.
Qed.

(** The summary lists the help texts of the scope that are not blank. *)
Lemma summary_listing w : summary w = header +:+ listing (help_texts w).
Proof. unfold summary, help_texts. apply fold_listing. Qed.

(** C3.  [isValid] runs a submission-mode pass over all targets.  It
    returns [false] exactly when the cumulative state after the pass has
    the FAIL bit, that is when some target has it; it then stops the
    propagation of the event and prevents its default action, when an
    event is given, and shows the popup that lists the help texts of the
    scope that are not blank.  Otherwise it returns [true] and touches
    neither the event nor the popup: so it does when fields only warn. *)
Theorem isValid_blocks_submission_exactly_on_FAIL :
  forall (ev : option event) (w : world),
    let w1 := validateAll true w in
    isValid ev w
    = (if Z.testbit (state_of w1) 1
       then (mkWorld (doc w1) (self w1) (bound w1) (calls w1)
                     (Some ("Validation Errors",
                            (header +:+ listing (help_texts w1)) +:+ "</ul>")),
             option_map (fun _ => mkEvent true true) ev, false)
       else (w1, ev, true))
    /\ Z.testbit (state_of w1) 1
       = existsb (fun kt => Z.testbit (state (this (snd kt))) 1) (targets (self w1))
    /\ (let '(w2, e, ok) := isValid (Some (mkEvent false false))
                              (with_rule Validator_Required (fresh "" "" 7 15 false)) in
        ok = false
        /\ e = Some (mkEvent true true)
        /\ states w2 = [("email", StateEnum.FAIL)]
        /\ modal w2 = Some ("Validation Errors",
             "Please correct all validation errors on this page before submitting.<br><br><ul><li>Error: Email is a required field.</li></ul>"))
    /\ (let '(w2, e, ok) := isValid (Some (mkEvent false false))
                              (with_rule Validator_Shout (fresh "a@b.com" "" 7 15 false)) in
        ok = true
        /\ e = Some (mkEvent false false)
        /\ states w2 = [("email", StateEnum.WARN)]
        /\ modal w2 = None).
Proof.
  intros ev w w1.
  split; [|split; [apply cumulative_testbit|split; by_computation]].
  unfold isValid. fold w1. rewrite land_FAIL_zero, negb_involutive.
  destruct (Z.testbit (state_of w1) 1); [|reflexivity].
  unfold displayAllErrors, displayInPopup. rewrite summary_listing.
  destruct ev; reflexivity.
Qed.

(** ** The submit button *)

(** What [post] does to the document: with the behaviour [DISABLE] the
    submit buttons get the class [disabled] when the FAIL bit is clear and
    lose it when the FAIL bit is set. *)
Lemma post_doc w :
  doc (post w)
  = if submitBehavior (self w) =? SubmitEnum.DISABLE then
      if Z.testbit (state_of w) 1
      then removeClass "disabled" (submitButtons (self w)) (doc w)
      else addClass "disabled" (submitButtons (self w)) (doc w)
    else doc w.
Proof.
  unfold post. rewrite land_FAIL_eqb.
  destruct (Z.testbit (state_of w) 1); destruct (postValidation (self w)); simpl;
    destruct (submitBehavior (self w) =? SubmitEnum.DISABLE); reflexivity.
Qed.

(** The document after a validation pass. *)
Lemma validateAll_doc submitting w :
  let w1 := fold_left (validate_key submitting) (keys (targets (self w))) w in
  doc (validateAll submitting w)
  = if submitBehavior (self w) =? SubmitEnum.DISABLE then
      if Z.testbit (state_of (validateAll submitting w)) 1
      then removeClass "disabled" (submitButtons (self w)) (doc w1)
      else addClass "disabled" (submitButtons (self w)) (doc w1)
    else doc w1.
Proof.
  intros w1. unfold validateAll. fold w1.
  rewrite post_doc, state_of_post.
  destruct (pass_config submitting (keys (targets (self w))) w) as (_ & H1 & H2).
  fold w1 in H1, H2. rewrite H1, H2. reflexivity.
Qed.

(** With the behaviour [DISABLE], a submit button is disabled after a
    validation pass exactly when the cumulative state lacks the FAIL
    bit. *)
Lemma disabled_exactly_without_failures submitting w n e :
  let pass := fold_left (validate_key submitting) (keys (targets (self w))) w in
  let w' := validateAll submitting w in
  submitBehavior (self w) = SubmitEnum.DISABLE ->
  In n (submitButtons (self w)) ->
  doc pass !! n = Some e ->
  satisfies (doc w') (has_class "disabled") n = negb (Z.testbit (state_of w') 1).
Proof.
  intros pass w' Hb Hin Hn.
  unfold w'. rewrite (validateAll_doc submitting w). fold pass. rewrite Hb.
  change (SubmitEnum.DISABLE =? SubmitEnum.DISABLE) with true. cbv iota.
  destruct (Z.testbit (state_of (validateAll submitting w)) 1); cbn [negb].
  - apply removeClass_has_not with e; assumption.
  - apply addClass_has with e; [discriminate|assumption|assumption].
Qed.

(** C1.  The submit button after a validation pass, at the failing
    inputs.  With the behaviour [DISABLE] and a required field left empty
    the cumulative state has the FAIL bit and the button is not disabled;
    with the field filled in nothing fails and the button is disabled.
    With [DISABLE | SUMMARY] the button is not touched at all.  In general
    a validation pass ends with [post], which removes the class [disabled]
    when the FAIL bit is set and adds it when the bit is clear, and only
    when the behaviour is [DISABLE] and nothing else. *)
Theorem submit_button_is_enabled_while_a_field_fails :
  let failing := validateAll false
                   (with_rule Validator_Required (fresh "" "" 7 SubmitEnum.DISABLE false)) in
  let passing := validateAll false
                   (with_rule Validator_Required (fresh "a@b.com" "" 7 SubmitEnum.DISABLE false)) in
  let both := validateAll false
                (with_rule Validator_Required
                   (fresh "" "" 7 (Z.lor SubmitEnum.DISABLE SubmitEnum.SUMMARY) false)) in
  (Z.testbit (state_of failing) 1 = true /\ disabled_buttons failing = [false])
  /\ (Z.testbit (state_of passing) 1 = false /\ disabled_buttons passing = [true])
  /\ (Z.testbit (state_of both) 1 = true /\ disabled_buttons both = [false])
  /\ (forall submitting w,
        let w1 := fold_left (validate_key submitting) (keys (targets (self w))) w in
        doc (validateAll submitting w)
        = if submitBehavior (self w) =? SubmitEnum.DISABLE then
            if Z.testbit (state_of (validateAll submitting w)) 1
            then removeClass "disabled" (submitButtons (self w)) (doc w1)
            else addClass "disabled" (submitButtons (self w)) (doc w1)
          else doc w1).
Proof.
  intros failing passing both.
  split; [vm_compute; split; reflexivity|].
  split; [vm_compute; split; reflexivity|].
  split; [vm_compute; split; reflexivity|].
  exact validateAll_doc.
Qed.

End ValProps.

(* ===================================================================== *)
(** * Properties of the calendar *)
(* ===================================================================== *)

Module CalendarFacts.
Import JS Val Page Calendar.

(** Linear arithmetic with divisions by constants. *)
Ltac euclid := Z.to_euclidean_division_equations; lia.

Lemma DayFromYear_step y :
  DayFromYear (y + 1) = DayFromYear y + if leap y then 366 else 365.
Proof.
  unfold DayFromYear, leap.
  destruct (y mod 4 =? 0) eqn:E4; destruct (y mod 100 =? 0) eqn:E100;
    destruct (y mod 400 =? 0) eqn:E400; cbn [andb orb negb];
    rewrite ?Z.eqb_eq, ?Z.eqb_neq in *; euclid.
Qed.

Lemma year_length y : sum (month_lengths y) = if leap y then 366 else 365.
Proof. unfold month_lengths. destruct (leap y); reflexivity. Qed.

Lemma year_up_bounds fuel day y0 :
  DayFromYear y0 <= day < DayFromYear (y0 + Z.of_nat fuel + 1) ->
  DayFromYear (year_up fuel day y0) <= day < DayFromYear (year_up fuel day y0 + 1).
Proof.
  revert y0. induction fuel as [|f IH]; intros y0 H.
  - cbn [year_up]. replace (y0 + Z.of_nat 0 + 1) with (y0 + 1) in H by lia. exact H.
  - cbn [year_up]. destruct (Z.leb_spec (DayFromYear (y0 + 1)) day) as [L|L].
    + apply IH. split; [exact L|].
      replace (y0 + 1 + Z.of_nat f + 1) with (y0 + Z.of_nat (S f) + 1) by lia.
      apply H.
    + lia.
Qed.

Lemma estimate_bounds day :
  let y0 := 1970 + day * 400 / 146097 - 2 in
  DayFromYear y0 <= day < DayFromYear (y0 + 4 + 1).
Proof.
  intros y0. unfold y0, DayFromYear. euclid.
Qed.

Lemma YearFromDay_bounds day :
  DayFromYear (YearFromDay day) <= day < DayFromYear (YearFromDay day + 1).
Proof.
  unfold YearFromDay. apply year_up_bounds. apply (estimate_bounds day).
Qed.

Lemma DayFromYear_lt a b : a < b -> DayFromYear a < DayFromYear b.
Proof. intros H. unfold DayFromYear. euclid. Qed.

Lemma year_unique day y y' :
  DayFromYear y <= day < DayFromYear (y + 1) ->
  DayFromYear y' <= day < DayFromYear (y' + 1) ->
  y = y'.
Proof.
  intros H H'.
  destruct (Z.lt_trichotomy y y') as [L|[E|L]]; [|exact E|].
  - assert (DayFromYear (y + 1) <= DayFromYear y').
    { destruct (Z.eq_dec (y + 1) y') as [->|N]; [lia|].
      apply Z.lt_le_incl, DayFromYear_lt. lia. }
    lia.
  - assert (DayFromYear (y' + 1) <= DayFromYear y).
    { destruct (Z.eq_dec (y' + 1) y) as [->|N]; [lia|].
      apply Z.lt_le_incl, DayFromYear_lt. lia. }
    lia.
Qed.

Lemma YearFromDay_spec day y :
  DayFromYear y <= day < DayFromYear (y + 1) -> YearFromDay day = y.
Proof.
  intros H. apply (year_unique day); [apply YearFromDay_bounds|exact H].
Qed.

Lemma month_lengths_positive y : positive_lengths (month_lengths y).
Proof.
  unfold positive_lengths, month_lengths.
  destruct (leap y); repeat constructor.
Qed.

Lemma sum_firstn_nonneg ms k : positive_lengths ms -> 0 <= sum (firstn k ms).
Proof.
  intros H. revert k. induction H as [|l r Hl Hr IH]; intros [|k]; cbn; try lia.
  specialize (IH k). unfold sum in IH. lia.
Qed.

Lemma sum_firstn_nth ms k :
  positive_lengths ms -> (k < length ms)%nat ->
  sum (firstn k ms) + nth k ms 0 <= sum ms.
Proof.
  intros H. revert k. induction H as [|l r Hl Hr IH]; intros [|k] Hk; cbn in *; try lia.
  - pose proof (sum_firstn_nonneg r (length r) Hr) as Hs.
    rewrite firstn_all in Hs. unfold sum in Hs. lia.
  - specialize (IH k). unfold sum in IH. lia.
Qed.

(** The month and the date of the [n]-th day of a year. *)
Lemma month_and_date_of ms m0 k dd :
  positive_lengths ms -> (k < length ms)%nat -> 1 <= dd <= nth k ms 0 ->
  month_and_date ms m0 (sum (firstn k ms) + dd - 1) = (m0 + Z.of_nat k, dd).
Proof.
  intros H. revert m0 k. induction H as [|l r Hl Hr IH]; intros m0 [|k] Hk Hd;
    cbn [length] in Hk; try lia.
  - cbn [firstn sum fold_right nth month_and_date] in *.
    destruct (Z.ltb_spec (0 + dd - 1) l); [|lia].
    f_equal; lia.
  - cbn [firstn nth month_and_date] in *.
    change (sum (l :: firstn k r)) with (l + sum (firstn k r)).
    pose proof (sum_firstn_nonneg r k Hr).
    destruct (Z.ltb_spec (l + sum (firstn k r) + dd - 1) l); [lia|].
    replace (l + sum (firstn k r) + dd - 1 - l) with (sum (firstn k r) + dd - 1) by lia.
    rewrite IH; [f_equal; lia|lia|exact Hd].
Qed.

Lemma month_and_date_valid ms m0 n :
  0 <= n < sum ms ->
  exists k, (k < length ms)%nat
            /\ month_and_date ms m0 n = (m0 + Z.of_nat k, n - sum (firstn k ms) + 1)
            /\ 1 <= n - sum (firstn k ms) + 1 <= nth k ms 0.
Proof.
  revert m0 n. induction ms as [|l r IH]; intros m0 n Hn.
  - cbn in Hn. lia.
  - cbn [month_and_date]. change (sum (l :: r)) with (l + sum r) in Hn.
    destruct (Z.ltb_spec n l) as [L|L].
    + exists 0%nat. cbn. split; [lia|]. split; [f_equal; lia|lia].
    + destruct (IH (m0 + 1) (n - l)) as (k & Hk & E & B); [lia|].
      exists (S k). cbn [length firstn nth].
      change (sum (l :: firstn k r)) with (l + sum (firstn k r)).
      split; [lia|]. rewrite E. split; [f_equal; lia|lia].
Qed.

Lemma calendar_date_spec m d y :
  calendar_date m d y = true <->
  1 <= m <= 12 /\ 1 <= d <= nth (Z.to_nat (m - 1)) (month_lengths y) 0.
Proof.
  unfold calendar_date. rewrite !andb_true_iff, !Z.leb_le. lia.
Qed.

(** A date of the calendar is the date of its day. *)
Lemma civil_of_day_MakeDay y m d :
  calendar_date m d y = true ->
  civil_of_day (MakeDay y (m - 1) d) = mkCivil y (m - 1) d.
Proof.
  intros H. apply calendar_date_spec in H as [Hm Hd].
  assert (Hq : (m - 1) / 12 = 0) by euclid.
  assert (Hr : (m - 1) mod 12 = m - 1) by euclid.
  unfold MakeDay. rewrite Hq, Hr, Z.add_0_r.
  set (k := Z.to_nat (m - 1)) in *.
  assert (Hk : (k < length (month_lengths y))%nat).
  { unfold month_lengths. cbn [length]. unfold k. lia. }
  pose proof (month_lengths_positive y) as Hp.
  pose proof (sum_firstn_nonneg _ k Hp) as H0.
  pose proof (sum_firstn_nth _ k Hp Hk) as H1.
  rewrite year_length in H1.
  assert (Hy : YearFromDay (DayFromYear y + sum (firstn k (month_lengths y)) + d - 1) = y).
  { apply YearFromDay_spec. rewrite DayFromYear_step. lia. }
  unfold civil_of_day. rewrite Hy.
  replace (DayFromYear y + sum (firstn k (month_lengths y)) + d - 1 - DayFromYear y)
    with (sum (firstn k (month_lengths y)) + d - 1) by lia.
  rewrite (month_and_date_of _ 0 k d Hp Hk Hd).
  f_equal. unfold k. lia.
Qed.

(** The date of a day is a date of the calendar, and that day is its. *)
Lemma MakeDay_civil_of_day day :
  let c := civil_of_day day in
  calendar_date (month c + 1) (date c) (year c) = true
  /\ MakeDay (year c) (month c) (date c) = day.
Proof.
  unfold civil_of_day.
  pose proof (YearFromDay_bounds day) as Hb.
  set (y := YearFromDay day) in *.
  rewrite DayFromYear_step, <- year_length in Hb.
  destruct (month_and_date_valid (month_lengths y) 0 (day - DayFromYear y))
    as (k & Hk & E & B); [lia|].
  rewrite E. cbn [year month date].
  assert (Hk12 : (k < 12)%nat).
  { unfold month_lengths in Hk. cbn [length] in Hk. exact Hk. }
  split.
  - apply calendar_date_spec. split; [lia|].
    replace (Z.to_nat (0 + Z.of_nat k + 1 - 1)) with k by lia. exact B.
  - unfold MakeDay.
    assert (Hq : (0 + Z.of_nat k) / 12 = 0) by euclid.
    assert (Hr : (0 + Z.of_nat k) mod 12 = Z.of_nat k) by euclid.
    rewrite Hq, Hr, Z.add_0_r, Nat2Z.id. lia.
Qed.

(** Month, day and year read back from the day [MakeDay] computes are
    those given exactly for the dates of the calendar: a month or a day
    out of range carries over into another date. *)
Lemma read_back_iff_calendar_date y m d :
  civil_of (MakeDay y (m - 1) d) = (y, m, d) <-> calendar_date m d y = true.
Proof.
  unfold civil_of, getFullYear, getMonth, getDate. split.
  - intros H. injection H as Hy Hm Hd.
    destruct (MakeDay_civil_of_day (MakeDay y (m - 1) d)) as [Hv _].
    cbv zeta in Hv. rewrite Hy, Hm, Hd in Hv. exact Hv.
  - intros H. rewrite (civil_of_day_MakeDay y m d H). cbn [year month date].
    replace (m - 1 + 1) with m by lia. reflexivity.
Qed.

End CalendarFacts.

(* ===================================================================== *)
(** * Properties of the date check *)
(* ===================================================================== *)

Module DateProps.
Import JS Dom Val Page CalendarFacts.

(** C4.  The year [normalizeDate] arrives at, at the failing input and
    around it.  Without a [date-window] attribute the window is
    [parseInt(undefined)], which is NaN and not 50: no year is below it,
    and every two-digit year lands in the 1900s, 49 becoming 1949.  With
    the window written out, as 50 or as another number up to 100, years
    below it land in the 2000s and the others in the 1900s. *)
Theorem no_window_means_no_2000s :
  option_map mdy (normalizeDate "1/1/49" Undefined) = Some "1/1/1949"
  /\ option_map mdy (normalizeDate "1/1/51" Undefined) = Some "1/1/1951"
  /\ parseInt Undefined = NaN
  /\ forallb (fun n => match normalized_year n Undefined with
                       | Some x => same x (of_Z (1900 + n))
                       | None => false
                       end) (range 0 100) = true
  /\ option_map mdy (normalizeDate "1/1/49" (Str "50")) = Some "1/1/2049"
  /\ option_map mdy (normalizeDate "1/1/51" (Str "50")) = Some "1/1/1951"
  /\ forallb (fun w =>
        forallb (fun n => match normalized_year n (Str (decimal w)) with
                          | Some x => same x (of_Z (if n <? w then 2000 + n
                                                    else 1900 + n))
                          | None => false
                          end) (range 0 100))
             [0; 1; 30; 49; 50; 51; 70; 99; 100] = true.
Proof. by_computation. Qed.

Lemma normalizeDate_matches data window :
  normalizeDate data window = None <-> rx_match data = None.
Proof.
  unfold normalizeDate. destruct (rx_match data) as [[[f1 f2] f3]|].
  - split; discriminate.
  - split; reflexivity.
Qed.

(** C5.  [isDate] accepts a string exactly when it consists of three
    numbers separated by [/] or [-], the date constructed from the
    normalized [M/D/Y] string is valid, and its month, day and year are
    those parsed from the string, the year being the windowed year.
    1/41/2015 and 13/01/2015 are rejected and 02/10/2015 is accepted, by
    [isDate] and by the Date rule.  Month, day and year read back from
    the constructed day are those it was constructed from exactly for the
    dates of the calendar, 1/41/2015 reading back as 2/10/2015; on months
    0 to 13 and days 0 to 32 of a few years, leap and not, [isDate]
    accepts exactly the dates of the calendar. *)
Theorem isDate_compares_with_the_constructed_date :
  forall (data : string) (window : JS.value),
    (isDate data window = true <->
     exists p day,
       normalizeDate data window = Some p
       /\ new_Date (mdy p) = Some day
       /\ feqb (m p) (fadd (of_Z (getMonth day)) (of_Z 1)) = true
       /\ feqb (d p) (of_Z (getDate day)) = true
       /\ feqb (y p) (of_Z (getFullYear day)) = true)
    /\ map (fun s => isDate s Undefined) ["1/41/2015"; "02/10/2015"; "13/01/2015"]
       = [false; true; false]
    /\ map (fun s => isDate s (Str "50")) ["1/41/2015"; "02/10/2015"; "13/01/2015"]
       = [false; true; false]
    /\ (forall y m d,
          civil_of (Calendar.MakeDay y (m - 1) d) = (y, m, d)
          <-> calendar_date m d y = true)
    /\ option_map civil_of (new_Date "1/41/2015") = Some (2015, 2, 10)
    /\ check_date "1/41/2015"
       = (StateEnum.FAIL, ["Error: when, 1/41/2015 is not a date."])
    /\ check_date "02/10/2015" = (StateEnum.PASS, [])
    /\ check_date "13/01/2015"
       = (StateEnum.FAIL, ["Error: when, 13/01/2015 is not a date."])
    /\ forallb (fun y =>
         forallb (fun m =>
           forallb (fun d =>
             Bool.eqb (isDate (written m d y) Undefined) (calendar_date m d y))
           (range 0 33)) (range 0 14))
         [1900; 2000; 2015; 2016] = true.
Proof.
  intros data window. split; [|split].
  - unfold isDate.
    destruct (rx_match data) as [fs|] eqn:Hrx.
    + destruct (normalizeDate data window) as [p|] eqn:Hn.
      * destruct (new_Date (mdy p)) as [day|] eqn:Hd.
        -- split.
           ++ intros H. apply andb_true_iff in H as [H Hy].
              apply andb_true_iff in H as [Hm Hdd].
              exists p, day. auto.
           ++ intros (p' & day' & Hp & Hday & Hm & Hdd & Hy).
              injection Hp as <-. rewrite Hd in Hday. injection Hday as <-.
              rewrite Hm, Hdd, Hy. reflexivity.
        -- split; [discriminate|].
           intros (p' & day' & Hp & Hday & _).
           injection Hp as <-. rewrite Hd in Hday. discriminate.
      * split; [discriminate|]. intros (p' & day' & Hp & _). discriminate.
    + split; [discriminate|]. intros (p' & day' & Hp & _).
      rewrite (proj2 (normalizeDate_matches data window) Hrx) in Hp.
      discriminate.
  - vm_compute. reflexivity.
  - split; [vm_compute; reflexivity|].
    split; [exact read_back_iff_calendar_date|].
    by_computation.
Qed.

End DateProps.

(* ===================================================================== *)
(** * Properties of the matcher *)
(* ===================================================================== *)

Module RegexFacts.
Import JS Regex.

Lemma app_cons (c : ascii) (a b : string) : String c a +:+ b = String c (a +:+ b).
Proof. reflexivity. Qed.

Lemma app_empty_inv (a b : string) : a +:+ b = "" -> a = "" /\ b = "".
Proof. destruct a; [auto|]. rewrite app_cons. discriminate. Qed.

Lemma app_cons_inv (a b : string) c s :
  a +:+ b = String c s ->
  (a = "" /\ b = String c s) \/ (exists a', a = String c a' /\ s = a' +:+ b).
Proof.
  destruct a as [|x a']; [auto|].
  rewrite app_cons. intros H. injection H as -> <-. right. eauto.
Qed.

Lemma nullable_spec r : nullable r = true <-> Matches r "".
Proof.
  split.
  - induction r; simpl; intros H; try discriminate.
    + constructor.
    + apply andb_true_iff in H as [H1 H2].
      change "" with ("" +:+ ""). constructor; auto.
    + apply orb_true_iff in H as [H|H]; [apply MAltL|apply MAltR]; auto.
    + constructor.
  - intros H. remember "" as s eqn:E.
    induction H; simpl; try discriminate; auto.
    + apply app_empty_inv in E as [-> ->].
      rewrite IHMatches1, IHMatches2; auto.
    + rewrite IHMatches; auto.
    + rewrite IHMatches; auto. apply orb_true_r.
Qed.

(** A non-empty match of a star starts with a non-empty match of its body. *)
Lemma star_cons r t :
  Matches (Star r) t ->
  forall c s, t = String c s ->
  exists s1 s2, s = s1 +:+ s2 /\ Matches r (String c s1) /\ Matches (Star r) s2.
Proof.
  intros H. remember (Star r) as q eqn:Eq.
  induction H; try discriminate; injection Eq as ->.
  intros c s E. apply app_cons_inv in E as [[-> ->]|(a' & -> & ->)].
  - apply IHMatches2; reflexivity.
  - eauto.
Qed.

Lemma cat_inv r1 r2 s :
  Matches (Cat r1 r2) s ->
  exists a b, s = a +:+ b /\ Matches r1 a /\ Matches r2 b.
Proof. intros H. inversion H; subst. eauto. Qed.

Lemma deriv_spec c r s : Matches (deriv c r) s <-> Matches r (String c s).
Proof.
  revert s. induction r; intros s; simpl.
  - split; intros H; inversion H.
  - split; intros H; inversion H.
  - destruct (p c) eqn:E.
    + split; intros H; inversion H; subst; constructor; assumption.
    + split; intros H; inversion H; subst; congruence.
  - destruct (nullable r1) eqn:N.
    + split.
      * intros H. inversion H; subst.
        -- match goal with H1 : Matches (Cat _ _) _ |- _ => inversion H1; subst end.
           rewrite <- app_cons. constructor; [apply IHr1|]; assumption.
        -- change (String c s) with ("" +:+ String c s).
           constructor; [apply nullable_spec, N|apply IHr2; assumption].
      * intros H. apply cat_inv in H as (a & b & E & Ha & Hb).
        symmetry in E.
        apply app_cons_inv in E as [[-> ->]|(a' & -> & ->)].
        -- apply MAltR, IHr2, Hb.
        -- apply MAltL. constructor; [apply IHr1, Ha|exact Hb].
    + split.
      * intros H. inversion H; subst.
        rewrite <- app_cons. constructor; [apply IHr1|]; assumption.
      * intros H. apply cat_inv in H as (a & b & E & Ha & Hb).
        symmetry in E.
        apply app_cons_inv in E as [[-> ->]|(a' & -> & ->)].
        -- apply nullable_spec in Ha. congruence.
        -- constructor; [apply IHr1, Ha|exact Hb].
  - split.
    + intros H. inversion H; subst; [apply MAltL, IHr1|apply MAltR, IHr2]; assumption.
    + intros H. inversion H; subst; [apply MAltL, IHr1|apply MAltR, IHr2]; assumption.
  - split.
    + intros H. inversion H; subst.
      rewrite <- app_cons. apply MStarS; [apply IHr|]; assumption.
    + intros H.
      destruct (star_cons r _ H c s eq_refl) as (s1 & s2 & -> & H1 & H2).
      constructor; [apply IHr, H1|exact H2].
Qed.

(** The derivative matcher decides the language of the pattern. *)
Lemma matches_spec r s : matches r s = true <-> Matches r s.
Proof.
  revert r. induction s as [|c s IH]; intros r; simpl.
  - apply nullable_spec.
  - rewrite IH. apply deriv_spec.
Qed.

End RegexFacts.

(* ===================================================================== *)
(** * Properties of the e-mail rule *)
(* ===================================================================== *)

Module EMailProps.
Import JS Dom Regex Val Page.

Lemma fail_messages x t d :
  messages (fst (fail x t d)) = add_once ("Error: " +:+ x) (messages t).
Proof.
  unfold fail. cbn [fst]. unfold addMessage, add_once.
  cbn [messages with_state].
  destruct (existsb (String.eqb ("Error: " +:+ x)) (messages t)); reflexivity.
Qed.

Lemma fail_state x t d : state (fst (fail x t d)) = Z.lor (state t) StateEnum.FAIL.
Proof.
  unfold fail. cbn [fst]. unfold addMessage.
  cbn [messages with_state].
  destruct (existsb _ (messages t)); reflexivity.
Qed.

Lemma fail_all_messages xs st :
  messages (fst (fail_all xs st))
  = fold_left (fun ms x => add_once ("Error: " +:+ not_an_address x) ms)
              xs (messages (fst st)).
Proof.
  revert st. induction xs as [|x r IH]; intros st; [reflexivity|].
  unfold fail_all in *. cbn [fold_left]. rewrite IH, fail_messages. reflexivity.
Qed.

Lemma fail_all_state xs st :
  state (fst (fail_all xs st))
  = match xs with
    | [] => state (fst st)
    | _ => Z.lor (state (fst st)) StateEnum.FAIL
    end.
Proof.
  revert st. induction xs as [|x r IH]; intros st; [reflexivity|].
  unfold fail_all in *. cbn [fold_left]. rewrite IH, fail_state.
  destruct r; [reflexivity|].
  rewrite <- Z.lor_assoc, Z.lor_diag. reflexivity.
Qed.

(** Failing for the invalid segments is failing for the list of the
    invalid segments. *)
Lemma segments_filter segs st :
  fold_left
    (fun st x =>
       if negb (matches patt (trim x))
       then fail (not_an_address (trim x)) (fst st) (snd st)
       else st)
    segs st
  = fail_all (List.filter (fun x => negb (matches patt x)) (map trim segs)) st.
Proof.
  revert st. induction segs as [|x r IH]; intros st; [reflexivity|].
  cbn [fold_left map List.filter]. rewrite IH.
  destruct (negb (matches patt (trim x))); reflexivity.
Qed.

(** C7.  The EMail rule fails once for every invalid address and for
    nothing else: for every segment of a semicolon-delimited value that,
    trimmed, does not match the pattern, and for a single value that is
    not blank and, trimmed, does not match.  Each failure adds, unless it
    is there already, the message that names the trimmed segment, and sets
    the FAIL bit.  [a@b.com] passes, [a@b.com;bad] fails with the one
    message that names [bad], and [a@b.com; c@d.org] passes. *)
Theorem EMail_reports_the_invalid_segments :
  forall (t : target) (d : document),
    let bad := invalid_addresses (val d (control t)) in
    let r := vf_method Validator_EMail t d in
    r = fail_all bad (t, d)
    /\ messages (fst r)
       = fold_left (fun ms x => add_once ("Error: " +:+ x +:+ " is not a valid email address.") ms)
                   bad (messages t)
    /\ state (fst r) = match bad with
                       | [] => state t
                       | _ => Z.lor (state t) StateEnum.FAIL
                       end
    /\ check_email "a@b.com" = (StateEnum.PASS, [])
    /\ check_email "a@b.com;bad"
       = (StateEnum.FAIL, ["Error: bad is not a valid email address."])
    /\ check_email "a@b.com; c@d.org" = (StateEnum.PASS, [])
    /\ check_email "x@y; a@b.com ;x@y;  z "
       = (StateEnum.FAIL, ["Error: x@y is not a valid email address.";
                           "Error: z is not a valid email address."])
    /\ invalid_addresses "a@b.com;bad" = ["bad"]
    /\ map (matches patt) ["a@b.com"; "c@d.org"; "bad"] = [true; true; false].
Proof.
  intros t d bad r.
  assert (Hr : r = fail_all bad (t, d)).
  { unfold r, bad, invalid_addresses. cbn [vf_method Validator_EMail].
    destruct (contains_char ";" (val d (control t))).
    - apply segments_filter.
    - destruct (isEmpty (val d (control t))); [reflexivity|].
      cbn [negb map List.filter].
      destruct (matches patt (trim (val d (control t)))); reflexivity. }
  split; [exact Hr|]. rewrite Hr.
  split; [apply (fail_all_messages bad (t, d))|].
  split; [apply (fail_all_state bad (t, d))|].
  by_computation.
Qed.

End EMailProps.

(* ===================================================================== *)
(** * Properties of the calculator *)
(* ===================================================================== *)

Module CalcProps.
Import JS Calc.

Lemma digit_not_space c : is_digit c = true -> is_space c = false.
Proof.
  unfold is_digit, is_space. intros H.
  apply andb_true_iff in H as [H1 H2].
  apply Z.leb_le in H1. apply Z.leb_le in H2.
  repeat (apply orb_false_iff; split);
    [ apply andb_false_iff; right; apply Z.leb_gt; lia
    | apply Z.eqb_neq; lia | apply Z.eqb_neq; lia ].
Qed.

Lemma radix_digit_10 c :
  radix_digit 10 c = if is_digit c then Some (digit_val c) else None.
Proof.
  unfold radix_digit, is_digit, digit_val.
  destruct ((48 <=? code c) && (code c <=? 57)) eqn:E.
  - apply andb_true_iff in E as [H1 H2].
    apply Z.leb_le in H1. apply Z.leb_le in H2.
    destruct (code c - 48 <? 10) eqn:L; [reflexivity|].
    apply Z.ltb_ge in L. lia.
  - assert (Hc : 0 <= code c < 256).
    { unfold code. pose proof (N_ascii_bounded c) as Hb. lia. }
    destruct ((97 <=? code c) && (code c <=? 122)) eqn:E1.
    + apply andb_true_iff in E1 as [H1 H2]. apply Z.leb_le in H1.
      destruct (code c - 87 <? 10) eqn:L; [|reflexivity].
      apply Z.ltb_lt in L. lia.
    + destruct ((65 <=? code c) && (code c <=? 90)) eqn:E2.
      * apply andb_true_iff in E2 as [H1 H2]. apply Z.leb_le in H1.
        destruct (code c - 55 <? 10) eqn:L; [|reflexivity].
        apply Z.ltb_lt in L. lia.
      * rewrite Z.ltb_irrefl. reflexivity.
Qed.

(** The digits of a number stop at the decimal point. *)
Lemma span_radix_point ip rest :
  all_digits ip = true ->
  fst (span_radix 10 (ip +:+ String "." rest)) = fst (span_radix 10 ip).
Proof.
  induction ip as [|c r IH]; intros H; simpl in *.
  - reflexivity.
  - apply andb_true_iff in H as [Hc Hr].
    rewrite radix_digit_10, Hc.
    specialize (IH Hr).
    destruct (span_radix 10 (r +:+ String "." rest)) as [ds t].
    destruct (span_radix 10 r) as [ds' t']. simpl in *. congruence.
Qed.

Lemma digit_cases c :
  is_digit c = true ->
  c = "0"%char \/ (c <> "0"%char /\ c <> "-"%char /\ c <> "+"%char).
Proof.
  intros H.
  destruct c as [[] [] [] [] [] [] [] []]; try discriminate H;
    solve [ left; reflexivity | right; repeat split; discriminate ].
Qed.

Lemma digit_not_x c : is_digit c = true -> c <> "x"%char /\ c <> "X"%char.
Proof.
  intros H.
  destruct c as [[] [] [] [] [] [] [] []]; try discriminate H;
    split; discriminate.
Qed.

Lemma parse_tail b neg (p q : list Z * string) :
  fst p = fst q ->
  match p with
  | ([], _) => NaN
  | (ds, _) => of_int neg (digits_value b ds)
  end
  = match q with
    | ([], _) => NaN
    | (ds, _) => of_int neg (digits_value b ds)
    end.
Proof. destruct p, q; simpl; intros ->; reflexivity. Qed.

(** [parseInt] reads the integer part of a decimal numeral only. *)
Lemma parseInt_str_fraction ip fp :
  all_digits ip = true ->
  parseInt_str (ip +:+ String "." fp) = parseInt_str ip.
Proof.
  intros H. pose proof (span_radix_point ip fp H) as Hs.
  destruct ip as [|c r]; [reflexivity|].
  simpl in H. apply andb_true_iff in H as [Hc Hr].
  unfold parseInt_str. change (String c r +:+ String "." fp)
    with (String c (r +:+ String "." fp)) in *.
  simpl trimStart. rewrite (digit_not_space c Hc).
  assert (Hsign : forall t, split_sign (String c t) = (false, String c t)).
  { intros t. destruct (digit_cases c Hc) as [-> | (_ & Hm & Hp)]; [reflexivity|].
    unfold split_sign.
    destruct c as [[] [] [] [] [] [] [] []]; try reflexivity; congruence. }
  rewrite !Hsign.
  assert (Hhex : forall t,
             (forall c' t', t = String c' t' -> c' <> "x"%char /\ c' <> "X"%char) ->
             match String c t with
             | String "0" (String "x" r0) => (16, r0)
             | String "0" (String "X" r0) => (16, r0)
             | _ => (10, String c t)
             end = (10, String c t)).
  { intros t Ht.
    destruct (digit_cases c Hc) as [-> | (H0 & _ & _)].
    - destruct t as [|c' t']; [reflexivity|].
      destruct (Ht c' t' eq_refl) as [Hx HX].
      destruct c' as [[] [] [] [] [] [] [] []]; try reflexivity; congruence.
    - destruct c as [[] [] [] [] [] [] [] []]; try reflexivity; congruence. }
  rewrite (Hhex (r +:+ String "." fp)), (Hhex r).
  - apply parse_tail. exact Hs.
  - intros c' t' ->. simpl in Hr. apply andb_true_iff in Hr as [Hc' _].
    apply digit_not_x; assumption.
  - intros c' t' E. destruct r as [|c2 r2]; simpl in E.
    + injection E as <- _. split; discriminate.
    + injection E as <- _. simpl in Hr. apply andb_true_iff in Hr as [Hc' _].
      apply digit_not_x; assumption.
Qed.

(** C9.  With [+] pending, [calc] adds [parseInt(reg)] and
    [parseInt(acc)]: when both are decimal numerals the digits after the
    points are dropped, and 1.5 + 2.7 displays 3.  With [-], [*] and [/]
    pending the operands go through the ordinary conversion to Number,
    which keeps their fractions: 1.5 - 2.7, 1.5 * 2.7 and 1.5 / 2.7 display
    -1.2000000000000002, 4.050000000000001 and 0.5555555555555555. *)
Theorem addition_discards_fractions :
  forall (ip fp jp gp : string) (e dec : bool) (disp : string),
    all_digits ip = true ->
    all_digits jp = true ->
    let sum := fadd (parseInt (Str ip)) (parseInt (Str jp)) in
    calc (mkState (Str (jp +:+ String "." gp)) (Str (ip +:+ String "." fp))
                  "+" e dec disp)
    = mkState (Str (jp +:+ String "." gp)) (Num sum) "+" e dec (NumberToString sum)
    /\ (forall a r,
          calc (mkState a r "+" e dec disp)
          = mkState a (Num (fadd (parseInt r) (parseInt a))) "+" e dec
                    (NumberToString (fadd (parseInt r) (parseInt a))))
    /\ (forall a r,
          calc (mkState a r "-" e dec disp)
          = mkState a (Num (fsub (ToNumber r) (ToNumber a))) "-" e dec
                    (NumberToString (fsub (ToNumber r) (ToNumber a))))
    /\ (forall a r,
          calc (mkState a r "*" e dec disp)
          = mkState a (Num (fmul (ToNumber r) (ToNumber a))) "*" e dec
                    (NumberToString (fmul (ToNumber r) (ToNumber a))))
    /\ (forall a r,
          feqb (parseFloat a) (of_Z 0) = false ->
          calc (mkState a r "/" e dec disp)
          = mkState a (Num (fdiv (ToNumber r) (ToNumber a))) "/" e dec
                    (NumberToString (fdiv (ToNumber r) (ToNumber a))))
    /\ display (run [N "1"; N "."; N "5"; O "+"; N "2"; N "."; N "7"; O "="]) = "3"
    /\ display (run [N "1"; N "."; N "5"; O "-"; N "2"; N "."; N "7"; O "="])
       = "-1.2000000000000002"
    /\ display (run [N "1"; N "."; N "5"; O "*"; N "2"; N "."; N "7"; O "="])
       = "4.050000000000001"
    /\ display (run [N "1"; N "."; N "5"; O "/"; N "2"; N "."; N "7"; O "="])
       = "0.5555555555555555".
Proof.
  intros ip fp jp gp e dec disp Hi Hj sum.
  split; [|split; [|split; [|split; [|split]]]].
  - unfold calc; simpl. unfold sum, parseInt; simpl.
    rewrite (parseInt_str_fraction ip fp Hi), (parseInt_str_fraction jp gp Hj).
    reflexivity.
  - reflexivity.
  - reflexivity.
  - reflexivity.
  - intros a r H. unfold calc.
    cbn -[feqb parseFloat of_Z fdiv ToNumber NumberToString val].
    rewrite H. reflexivity.
  - by_computation.
Qed.

Lemma addition_discards_fractions_witness :
  all_digits "1" = true
  /\ all_digits "2" = true
  /\ calc (mkState (Str "2.7") (Str "1.5") "+" false true "2.7")
     = mkState (Str "2.7") (Num (of_Z 3)) "+" false true "3".
Proof.
  split; [reflexivity|]. split; [reflexivity|].
  exact (proj1 (addition_discards_fractions "1" "5" "2" "7" false true "2.7"
                  eq_refl eq_refl)).
Defined.

(** C10.  With [/] pending and an accumulator that parses to 0, [calc]
    does not divide: the register becomes the string [Divide by zero.],
    which is displayed, and the error flag is set.  A number click in that
    state acts as on the cleared calculator: accumulator 0, no operator,
    no error. *)
Theorem division_by_zero_is_an_error :
  forall (a r : value) (e dec : bool) (disp num : string),
    feqb (parseFloat a) (of_Z 0) = true ->
    let s := calc (mkState a r "/" e dec disp) in
    s = mkState a (Str "Divide by zero.") "/" true dec "Divide by zero."
    /\ numberClick num s = numberClick num (clear s)
    /\ clear s = mkState (Num (of_Z 0)) (Str "Divide by zero.") "" false false "0"
    /\ run [N "8"; O "/"; N "0"; O "="]
       = mkState (Num (of_Z 0)) (Str "Divide by zero.") "/" true false "Divide by zero."
    /\ run [N "8"; O "/"; N "0"; O "="; N "5"]
       = mkState (Str "5") (Str "Divide by zero.") "" false false "5".
Proof.
  intros a r e dec disp num H s.
  assert (Hs : s = mkState a (Str "Divide by zero.") "/" true dec "Divide by zero.").
  { unfold s, calc.
    cbn -[feqb parseFloat of_Z fdiv ToNumber NumberToString val].
    rewrite H. reflexivity. }
  split; [exact Hs|]. rewrite Hs.
  split; [reflexivity|].
  split; [reflexivity|].
  split; vm_compute; reflexivity.
Qed.

Lemma division_by_zero_is_an_error_witness :
  feqb (parseFloat (Num (of_Z 0))) (of_Z 0) = true
  /\ calc (mkState (Num (of_Z 0)) (Str "8") "/" false false "8")
     = mkState (Num (of_Z 0)) (Str "Divide by zero.") "/" true false
               "Divide by zero.".
Proof.
  split; [reflexivity|].
  exact (proj1 (division_by_zero_is_an_error (Num (of_Z 0)) (Str "8") false false
                  "8" "5" eq_refl)).
Defined.

End CalcProps.

(* ===================================================================== *)
(** * Properties of number entry *)
(* ===================================================================== *)

Module KeypadProps.
Import JS Calc Keypad.

Lemma point_is_not_zero : loose_eq (Str ".") zero = false.
Proof. vm_compute. reflexivity. Qed.

Lemma zero_point_is_zero : loose_eq (Str "0.") zero = true.
Proof. vm_compute. reflexivity. Qed.

(** X1.  A second decimal point is ignored: clicking the point twice is
    clicking it once, whatever the state of the calculator, and after the
    click the flag [decimal] is set and the error flag is clear. *)
Theorem a_second_point_is_ignored :
  forall s : state,
    numberClick "." (numberClick "." s) = numberClick "." s
    /\ decimal (numberClick "." s) = true
    /\ err (numberClick "." s) = false.
Proof.
  intros [a r o e dc disp].
  destruct e, dc; repeat split; try reflexivity.
  all: unfold numberClick;
       cbn [err decimal clear clearAcc acc reg op display String.eqb Ascii.eqb
            Bool.eqb andb negb];
       rewrite ?point_is_not_zero, ?andb_false_r;
       cbn [err decimal acc andb String.eqb Ascii.eqb Bool.eqb negb];
       reflexivity.
Qed.

(** X2.  A number below one cannot be typed.  On the cleared accumulator
    the point gives the text [0.], which still equals 0: the next button
    is taken as the first of a new number.  A button whose value equals 0
    is ignored, and any other value replaces [0.]; the flag [decimal]
    stays set, so that no point can follow.  Typing [.5] displays 5. *)
Theorem a_leading_point_is_lost :
  forall (s : state) (num : string),
    acc s = zero -> err s = false -> decimal s = false -> num <> "." ->
    let s1 := numberClick "." s in
    s1 = mkState (Str "0.") (reg s) (op s) false true "0."
    /\ numberClick num s1
       = (if loose_eq (Str num) zero then s1
          else mkState (Str num) (reg s) (op s) false true num).
Proof.
  intros [a r o e dc disp] num Ha He Hd Hn. cbn [acc err decimal] in *. subst.
  assert (H1 : numberClick "." (mkState zero r o false false disp)
               = mkState (Str "0.") r o false true "0.").
  { reflexivity. }
  cbv zeta. cbn [reg op]. rewrite H1. split; [reflexivity|].
  unfold numberClick.
  cbv beta iota zeta delta [err decimal acc reg op display].
  destruct (String.eqb_spec num ".") as [->|_]; [congruence|].
  cbv beta iota zeta delta [andb negb]. rewrite zero_point_is_zero.
  destruct (loose_eq (Str num) zero); [reflexivity|].
  cbv beta iota zeta delta [add ToString val].
  rewrite ValProps.append_nil_r. reflexivity.
Qed.

Lemma a_leading_point_is_lost_witness :
  numberClick "5" (numberClick "." start)
  = mkState (Str "5") Undefined "" false true "5".
Proof.
  exact (proj2 (a_leading_point_is_lost start "5" eq_refl eq_refl eq_refl
                  ltac:(discriminate))).
Defined.

(** ** The accumulator *)

Lemma points_append a b : points (a +:+ b) = (points a + points b)%nat.
Proof.
  induction a as [|c r IH]; [reflexivity|].
  rewrite ValProps.append_cons. cbn [points]. rewrite IH. lia.
Qed.

Lemma numeric_append a b : numeric (a +:+ b) = numeric a && numeric b.
Proof.
  induction a as [|c r IH]; [reflexivity|].
  rewrite ValProps.append_cons. cbn [numeric]. rewrite IH, andb_assoc. reflexivity.
Qed.

Lemma leads_append a b : leads a = true -> leads (a +:+ b) = true.
Proof.
  destruct a as [|c r]; [discriminate|]. rewrite ValProps.append_cons. auto.
Qed.

Lemma digit_is_no_point c : is_digit c = true -> Ascii.eqb c "." = false.
Proof.
  intros H. destruct (Ascii.eqb_spec c ".") as [->|]; [discriminate H|reflexivity].
Qed.

Lemma digit_button_inv v :
  digit_button v = true -> exists c, v = String c "" /\ is_digit c = true.
Proof.
  destruct v as [|c [|? ?]]; try discriminate. intros H. eauto.
Qed.

(** Of the digit buttons only [0] equals 0. *)
Lemma digit_not_zero c :
  is_digit c = true -> loose_eq (Str (String c "")) zero = false ->
  Ascii.eqb c "0" = false.
Proof.
  intros Hd Hz. destruct (Ascii.eqb_spec c "0") as [->|]; [|reflexivity].
  vm_compute in Hz. discriminate Hz.
Qed.

Lemma typed_more t v :
  typed t = true -> String.eqb t "0." = false -> numeric v = true ->
  (points t + points v <= 1)%nat -> typed (t +:+ v) = true.
Proof.
  unfold typed. intros H H0 Hv Hp. rewrite H0 in H. cbn [orb] in H.
  apply andb_true_iff in H as [H _]. apply andb_true_iff in H as [Hl Hn].
  rewrite (leads_append _ _ Hl), numeric_append, Hn, Hv, points_append.
  cbn [andb]. rewrite (proj2 (Nat.leb_le _ _) Hp). apply orb_true_r.
Qed.

Lemma entry_clear s : entry (clear s) = true.
Proof. reflexivity. Qed.

Lemma entry_numberClick v s :
  number_button v = true -> entry s = true -> entry (numberClick v s) = true.
Proof.
  intros Hv Hs. unfold numberClick.
  assert (Hs1 : entry (if err s then clear s else s) = true).
  { destruct (err s); [apply entry_clear|exact Hs]. }
  set (s1 := if err s then clear s else s) in *. clearbody s1. clear s Hs.
  destruct s1 as [a r o e dc disp]. unfold entry in Hs1.
  cbv beta iota zeta delta [err decimal acc reg op display] in *.
  destruct (String.eqb_spec v ".") as [->|Hne].
  - (* the point *)
    destruct dc; cbn [andb negb].
    + unfold entry. exact Hs1.
    + rewrite point_is_not_zero, !andb_false_r.
      unfold entry. cbn [acc decimal].
      destruct a as [|x|t]; [discriminate| |].
      * destruct x as [[]| | |]; try discriminate Hs1. reflexivity.
      * rewrite orb_false_r in Hs1. apply andb_true_iff in Hs1 as [Ht Hp].
        apply Nat.eqb_eq in Hp. cbn [add ToString].
        rewrite orb_true_r, andb_true_r. apply typed_more; auto.
        -- destruct (String.eqb_spec t "0."); [subst; discriminate Hp|reflexivity].
        -- cbn. lia.
  - (* a digit *)
    unfold number_button in Hv. apply orb_true_iff in Hv as [Hv|Hv];
      [|apply String.eqb_eq in Hv; congruence].
    apply digit_button_inv in Hv as (c & -> & Hc).
    cbn [andb negb].
    destruct (loose_eq a zero) eqn:Ha.
    + destruct (loose_eq (Str (String c "")) zero) eqn:Hz.
      * unfold entry. exact Hs1.
      * unfold entry. cbn [andb negb acc decimal add ToString].
        rewrite ValProps.append_nil_r. unfold typed, leads.
        rewrite Hc, (digit_not_zero c Hc Hz). cbn [numeric points andb negb].
        rewrite Hc, (digit_is_no_point c Hc).
        cbn [orb andb Nat.leb Nat.eqb Nat.add]. rewrite orb_true_r. reflexivity.
    + unfold entry. cbn [andb negb acc decimal].
      destruct a as [|x|t]; [discriminate| |].
      * destruct x as [[]| | |]; try discriminate Hs1. discriminate Ha.
      * apply andb_true_iff in Hs1 as [Ht Hp].
        cbn [add ToString].
        assert (Hpt : points (String c "") = 0%nat).
        { cbn [points]. rewrite (digit_is_no_point c Hc). reflexivity. }
        rewrite points_append, Hpt, Nat.add_0_r, Hp, andb_true_r.
        apply typed_more.
        -- exact Ht.
        -- destruct (String.eqb_spec t "0.") as [->|]; [|reflexivity].
           rewrite zero_point_is_zero in Ha. discriminate Ha.
        -- cbn [numeric]. rewrite Hc. reflexivity.
        -- rewrite Hpt, Nat.add_0_r. unfold typed in Ht.
           apply orb_true_iff in Ht as [Ht|Ht].
           ++ apply String.eqb_eq in Ht. subst. cbn. lia.
           ++ apply andb_true_iff in Ht as [_ Ht]. apply Nat.leb_le in Ht. exact Ht.
Qed.

Lemma entry_opClick v s : entry s = true -> entry (opClick v s) = true.
Proof.
  intros Hs. unfold opClick.
  destruct (String.eqb v "C"); [apply entry_clear|].
  destruct (String.eqb v "="); [|reflexivity].
  unfold calc.
  match goal with
  | |- context [let '(r, e) := ?x in _] => destruct x as [r e]
  end.
  exact Hs.
Qed.

Lemma entry_click b s : pressed b = true -> entry s = true -> entry (click s b) = true.
Proof.
  destruct b as [v|v]; intros Hb Hs.
  - apply entry_numberClick; assumption.
  - apply entry_opClick; assumption.
Qed.

Lemma entry_clicks bs s :
  forallb pressed bs = true -> entry s = true -> entry (fold_left click bs s) = true.
Proof.
  revert s. induction bs as [|b r IH]; intros s Hb Hs; [exact Hs|].
  cbn [forallb] in Hb. apply andb_true_iff in Hb as [Hb Hr].
  cbn [fold_left]. apply IH; [exact Hr|]. apply entry_click; assumption.
Qed.

(** X3.  Whatever is clicked, as long as the number buttons carry a digit
    or the point, the accumulator is the Number 0 or a text that is [0.]
    or starts with a digit other than 0, consists of digits and points
    and has at most one point; when it has a point the flag [decimal] is
    set.  So the accumulator never has a leading zero nor a second
    point. *)
Theorem the_accumulator_is_zero_or_a_numeral :
  forall bs : list button,
    forallb pressed bs = true ->
    let s := run bs in
    entry s = true
    /\ (forall t, acc s = Str t ->
          (t = "0." \/ leads t = true)
          /\ numeric t = true /\ (points t <= 1)%nat
          /\ (points t = 1%nat -> decimal s = true)).
Proof.
  intros bs Hb s.
  assert (He : entry s = true) by (apply entry_clicks; [exact Hb|reflexivity]).
  split; [exact He|].
  intros t Ht. unfold entry in He. rewrite Ht in He.
  apply andb_true_iff in He as [Hty Hd].
  unfold typed in Hty. apply orb_true_iff in Hty as [H0|H1].
  - apply String.eqb_eq in H0. subst t.
    split; [left; reflexivity|]. split; [reflexivity|].
    split; [cbn; lia|]. intros _. exact Hd.
  - apply andb_true_iff in H1 as [H1 Hp]. apply andb_true_iff in H1 as [Hl Hn].
    apply Nat.leb_le in Hp.
    split; [right; exact Hl|]. split; [exact Hn|]. split; [exact Hp|].
    intros H1. rewrite H1 in Hd. exact Hd.
Qed.

Lemma the_accumulator_is_zero_or_a_numeral_witness :
  entry (run [N "1"; N "."; N "."; N "5"; O "+"; N "0"; N "0"; N "."; N "7"]) = true.
Proof.
  exact (proj1 (the_accumulator_is_zero_or_a_numeral
                  [N "1"; N "."; N "."; N "5"; O "+"; N "0"; N "0"; N "."; N "7"]
                  eq_refl)).
Defined.

(** ** Clearing *)

Lemma alike_clear s1 s2 : alike (clear s1) (clear s2).
Proof. unfold alike. cbn. repeat split; auto. congruence. Qed.

Lemma alike_numberClick v s1 s2 :
  alike s1 s2 -> alike (numberClick v s1) (numberClick v s2).
Proof.
  intros H.
  assert (H1 : alike (if err s1 then clear s1 else s1) (if err s2 then clear s2 else s2)).
  { pose proof H as (_ & _ & He & _). rewrite <- He.
    destruct (err s1); [apply alike_clear|exact H]. }
  unfold numberClick.
  set (t1 := if err s1 then clear s1 else s1) in *.
  set (t2 := if err s2 then clear s2 else s2) in *.
  clearbody t1 t2. clear s1 s2 H.
  destruct t1 as [a1 r1 o1 e1 d1 p1], t2 as [a2 r2 o2 e2 d2 p2].
  unfold alike in *. cbv beta iota zeta delta [err decimal acc reg op display] in *.
  destruct H1 as (<- & <- & <- & <- & <- & Hr).
  destruct (String.eqb v "." && d1); [auto 10|].
  destruct (String.eqb v ".").
  - destruct (loose_eq a1 zero && loose_eq (Str v) zero); [auto 10|].
    destruct (if loose_eq a1 zero && negb true then _ else _) as [a n].
    auto 10.
  - destruct (loose_eq a1 zero && loose_eq (Str v) zero); [auto 10|].
    destruct (if loose_eq a1 zero && negb false then _ else _) as [a n].
    auto 10.
Qed.

Lemma alike_calc s1 s2 : alike s1 s2 -> alike (calc s1) (calc s2).
Proof.
  destruct s1 as [a1 r1 o1 e1 d1 p1], s2 as [a2 r2 o2 e2 d2 p2].
  unfold alike. cbv beta iota zeta delta [err decimal acc reg op display].
  intros (<- & <- & <- & <- & <- & Hr).
  destruct (String.eqb_spec o1 "") as [->|Hne].
  - unfold calc. cbn. repeat split; auto.
  - rewrite <- (Hr Hne). repeat split; auto.
Qed.

Lemma alike_opClick v s1 s2 : alike s1 s2 -> alike (opClick v s1) (opClick v s2).
Proof.
  intros H. unfold opClick.
  destruct (String.eqb v "C"); [apply alike_clear|].
  destruct (String.eqb v "="); [apply alike_calc, H|].
  unfold alike in *. cbn. destruct H as (-> & _ & -> & _ & -> & _). auto 10.
Qed.

Lemma alike_clicks bs s1 s2 :
  alike s1 s2 -> alike (fold_left click bs s1) (fold_left click bs s2).
Proof.
  revert s1 s2. induction bs as [|b r IH]; intros s1 s2 H; [exact H|].
  cbn [fold_left]. apply IH. destruct b as [v|v]; cbn [click].
  - apply alike_numberClick, H.
  - apply alike_opClick, H.
Qed.

(** X4.  The button [C] starts over: after it, every sequence of clicks
    leaves the display, the accumulator, the operator and the two flags
    as it leaves them on the freshly loaded page.  ([clear] keeps the
    register, but no operator is pending that would read it.) *)
Theorem clearing_starts_over :
  forall (s : state) (bs : list button),
    let after := fold_left click bs (opClick "C" s) in
    display after = display (run bs)
    /\ acc after = acc (run bs)
    /\ op after = op (run bs)
    /\ err after = err (run bs)
    /\ decimal after = decimal (run bs).
Proof.
  intros s bs after.
  assert (H : alike after (run bs)).
  { unfold after, run, start. apply alike_clicks.
    change (opClick "C" s) with (clear s). apply alike_clear. }
  unfold alike in H. tauto.
Qed.

(** ** Operators *)

(** X5.  An operator button other than [C] and [=] stores the accumulator
    in the register and clears the accumulator; the display stays.  What
    it leaves does not depend on the register nor on the operator that
    was pending: an operation that was not completed is dropped, and
    after [=] the next operator continues with the last operand, not with
    the result.  With nothing typed after it, [=] computes with 0 as the
    second operand, which for [/] is the division by zero. *)
Theorem an_operator_discards_what_was_pending :
  forall (v : string) (s : state),
    v <> "C" -> v <> "=" ->
    opClick v s = mkState zero (acc s) v (err s) false (display s)
    /\ (forall s', acc s' = acc s -> err s' = err s -> display s' = display s ->
                   opClick v s' = opClick v s)
    /\ reg (opClick v (opClick "=" s)) = acc s
    /\ opClick "=" (opClick "/" s)
       = mkState zero (Str "Divide by zero.") "/" true false "Divide by zero.".
Proof.
  intros v s Hc He.
  assert (H : forall x, opClick v x = mkState zero (acc x) v (err x) false (display x)).
  { intros x. unfold opClick.
    destruct (String.eqb_spec v "C"); [congruence|].
    destruct (String.eqb_spec v "="); [congruence|]. reflexivity. }
  split; [apply H|]. split; [|split].
  - intros s' Ha Hr Hd. rewrite !H, Ha, Hr, Hd. reflexivity.
  - rewrite H. cbn [reg]. unfold opClick. cbn [String.eqb Ascii.eqb Bool.eqb].
    unfold calc.
    match goal with
    | |- context [let '(r, e) := ?x in _] => destruct x as [r e]
    end.
    reflexivity.
  - destruct s as [a r o e dc disp]. reflexivity.
Qed.

Lemma an_operator_discards_what_was_pending_witness :
  reg (opClick "*" (opClick "=" (run [N "2"; O "+"; N "3"]))) = Str "3"
  /\ display (run [N "2"; O "+"; N "3"; O "="; O "*"; N "4"; O "="]) = "12".
Proof.
  split; [|vm_compute; reflexivity].
  exact (proj1 (proj2 (proj2 (an_operator_discards_what_was_pending "*"
                                (run [N "2"; O "+"; N "3"])
                                ltac:(discriminate) ltac:(discriminate))))).
Defined.

End KeypadProps.

(* ===================================================================== *)
(** * Properties of handlers and registrations *)
(* ===================================================================== *)

Module HandlerProps.
Import JS Dom Val Page ObjFacts ValProps Samples.

Lemma off_spec trig ev b h :
  In h (off trig ev b) <-> In h b /\ handles_event trig ev h = false.
Proof.
  unfold off. rewrite filter_In. destruct h as [[n e] k]. cbn.
  rewrite negb_true_iff. reflexivity.
Qed.

Lemma validate_key_other s w k k' :
  k <> k' ->
  get k' (targets (self (validate_key s w k))) = get k' (targets (self w)).
Proof.
  intros Hne. unfold validate_key.
  destruct (get k (targets (self w))) as [vt|]; [|reflexivity].
  destruct (validateAll_target s (self w) vt (doc w)) as [vt' d'].
  cbn. apply get_set_other, Hne.
Qed.

Lemma validate_other k k' w :
  k <> k' -> get k' (targets (self (validate k w))) = get k' (targets (self w)).
Proof.
  intros Hne. unfold validate. rewrite post_targets. apply validate_key_other, Hne.
Qed.

Lemma removeValidation_other k k' trig events vf w :
  k <> k' ->
  get k' (targets (self (removeValidation k trig events vf w)))
  = get k' (targets (self w)).
Proof.
  intros Hne. unfold removeValidation.
  destruct (get k (targets (self w))) as [vt|]; [|reflexivity].
  rewrite validate_other by assumption.
  unfold with_validations. cbn. apply get_set_other, Hne.
Qed.

Lemma one_less_than_one : fltb (decr (Some (of_Z 1))) (of_Z 1) = true.
Proof. vm_compute. reflexivity. Qed.

Lemma unregister_unbinds vs b trig tid ev vf x :
  get (vf_name vf) vs = Some x ->
  refCount x !! event_id tid ev = Some (of_Z 1) ->
  snd (unregister trig tid [ev] vf (vs, b)) = off trig ev b.
Proof.
  intros Hx Hc. unfold unregister. rewrite Hx.
  cbn [fold_left]. unfold remove_event. rewrite Hc, one_less_than_one.
  destruct (Nat.eqb _ 0); reflexivity.
Qed.

(** X22.  Handlers are unbound for all targets at once.  When
    [removeValidation] takes the last reference of a validation function
    to an event of a trigger, [off] removes every handler of the
    validator for that event on that element: afterwards no target is
    triggered by it, although the other targets keep their registrations
    and their counts.  On the sample page, with a rule of each field
    triggered by [keyup] on the e-mail field, removing the rule of the
    e-mail field leaves no handler bound while the date rule still counts
    one registration. *)
Theorem removing_the_last_reference_unbinds_every_target :
  forall (w : world) (k : string) (trig : nat) (ev : string)
         (vf : ValidationFunction) (vt : ValidationTarget) (x : validation),
    let tid := id_or_name (doc w) trig in
    get k (targets (self w)) = Some vt ->
    get (vf_name vf) (validations vt) = Some x ->
    refCount x !! event_id tid ev = Some (of_Z 1) ->
    let w' := removeValidation k trig [ev] vf w in
    bound w' = off trig ev (bound w)
    /\ (forall k', ~ In (trig, ev, k') (bound w'))
    /\ (forall k' n, k' <> k -> registered k' n w' = registered k' n w).
Proof.
  intros w k trig ev vf vt x tid Hk Hx Hc w'.
  destruct (removeValidation_unregisters k trig [ev] vf w vt Hk)
    as (vt' & _ & _ & _ & Hb).
  fold tid in Hb. fold w' in Hb.
  rewrite (unregister_unbinds _ _ trig tid ev vf x Hx Hc) in Hb.
  split; [exact Hb|]. split.
  - intros k' Hin. rewrite Hb in Hin. apply off_spec in Hin as [_ Hh].
    cbn in Hh. rewrite Nat.eqb_refl, String.eqb_refl in Hh. discriminate Hh.
  - intros k' n Hne. unfold registered, w'.
    rewrite removeValidation_other by congruence. reflexivity.
Qed.

Lemma removing_the_last_reference_unbinds_every_target_witness :
  let w' := removeValidation "email" email_field ["keyup"] Validator_Required
                             shared_trigger in
  In (email_field, "keyup", "when") (bound shared_trigger)
  /\ bound w' = []
  /\ registered "when" "Validator_Date" w' = Some {[ "email.keyup" := of_Z 1 ]}.
Proof.
  intros w'.
  pose proof (removing_the_last_reference_unbinds_every_target
                shared_trigger "email" email_field "keyup" Validator_Required
                _ _ eq_refl eq_refl eq_refl) as (Hb & _ & Hr).
  split; [right; left; reflexivity|]. split.
  - exact Hb.
  - exact (Hr "when" "Validator_Date" ltac:(discriminate)).
Defined.

(** X23.  A name is registered with the function it came with first.
    When a target already has a validation function of some name,
    [addValidation] with another function of that name counts the events
    on the existing entry and keeps the method of the entry: the new
    function is never called.  On the sample page an impostor registered
    under the name of the required rule leaves the empty required field
    failing. *)
Theorem a_registered_name_keeps_its_function :
  forall (w : world) (k : string) (trig : nat) (events : list string)
         (vf vf' : ValidationFunction) (vt : ValidationTarget) (x : validation),
    get k (targets (self w)) = Some vt ->
    get (vf_name vf) (validations vt) = Some x ->
    vf_name vf' = vf_name vf ->
    let w' := addValidation k trig events vf' w in
    exists vt' x',
      get k (targets (self w')) = Some vt'
      /\ get (vf_name vf) (validations vt') = Some x'
      /\ method x' = method x
      /\ keys (validations vt') = keys (validations vt).
Proof.
  intros w k trig events vf vf' vt x Hk Hx Hn w'.
  destruct (addValidation_registers k trig events vf' w vt Hk) as (Ht & _ & _).
  fold w' in Ht. unfold register in Ht. rewrite Hn, Hx in Ht.
  cbn [from_option id] in Ht. unfold id in Ht.
  match type of Ht with
  | context [fold_left ?f events ?a] => destruct (fold_left f events a) as [rc b]
  end.
  cbn [fst] in Ht.
  eexists. eexists. split; [exact Ht|]. cbn [validations].
  rewrite get_set_same. split; [reflexivity|]. split; [reflexivity|].
  apply keys_set_present. congruence.
Qed.

Lemma a_registered_name_keeps_its_function_witness :
  let w := with_rule Validator_Required (fresh "" "" 7 15 false) in
  states (validateAll false (addValidation "email" email_field ["keyup"]
                                           Validator_Impostor w))
  = [("email", StateEnum.FAIL)]
  /\ exists vt' x',
       get "email" (targets (self (addValidation "email" email_field ["keyup"]
                                                 Validator_Impostor w))) = Some vt'
       /\ get "Validator_Required" (validations vt') = Some x'
       /\ method x' = vf_method Validator_Required.
Proof.
  intros w. split; [vm_compute; reflexivity|].
  destruct (a_registered_name_keeps_its_function w "email" email_field ["keyup"]
              Validator_Required Validator_Impostor _ _ eq_refl eq_refl eq_refl)
    as (vt' & x' & H1 & H2 & H3 & _).
  exists vt', x'. auto.
Defined.

(** ** Events *)







(** ** Counts that are not numbers *)

Lemma not_a_count :
  fltb (decr None) (of_Z 1) = false /\ decr None = NaN /\ incr NaN = NaN.
Proof. vm_compute. auto. Qed.

(** X25.  Removing an event that was never registered for a validation
    function does not leave things as they were.  The count of the event
    becomes [undefined - 1], which is NaN and not below 1: the entry stays
    in [refCount] with the count NaN and no handler is unbound.  Adding
    the event afterwards increments NaN to NaN and binds no handler, so
    the function can no longer be triggered by that event. *)
Theorem removing_an_event_never_added_leaves_NaN :
  forall (w : world) (k : string) (trig : nat) (ev : string)
         (vf : ValidationFunction) (vt : ValidationTarget) (x : validation),
    let tid := id_or_name (doc w) trig in
    let n := vf_name vf in
    let w1 := removeValidation k trig [ev] vf w in
    let w2 := addValidation k trig [ev] vf w1 in
    get k (targets (self w)) = Some vt ->
    get n (validations vt) = Some x ->
    refCount x !! event_id tid ev = None ->
    id_or_name (doc w1) trig = tid ->
    (registered k n w1 = Some (<[ event_id tid ev := NaN ]> (refCount x))
     /\ bound w1 = bound w)
    /\ (registered k n w2 = Some (<[ event_id tid ev := NaN ]> (refCount x))
        /\ bound w2 = bound w).
Proof.
  intros w k trig ev vf vt x tid n w1 w2 Hk Hx Hc Hid.
  destruct not_a_count as (Hlt & Hd & Hi).
  destruct (removeValidation_unregisters k trig [ev] vf w vt Hk)
    as (vt1 & T1 & C1 & K1 & B1).
  fold tid in C1, K1, B1. fold w1 in T1, B1.
  assert (U : unregister trig tid [ev] vf (validations vt, bound w)
              = (set n (mkValidation (lock x) (<[ event_id tid ev := NaN ]> (refCount x))
                                     (method x)) (validations vt), bound w)).
  { rewrite (unregister_keep _ _ trig tid ev vf x Hx); rewrite Hc; [|exact Hlt].
    rewrite Hd. reflexivity. }
  rewrite U in C1, K1, B1. cbn [fst snd] in C1, K1, B1.
  assert (R1 : registered k n w1 = Some (<[ event_id tid ev := NaN ]> (refCount x))).
  { unfold registered. rewrite T1, C1. unfold counts_of.
    rewrite get_set_same. reflexivity. }
  split; [split; [exact R1|exact B1]|].
  destruct (addValidation_registers k trig [ev] vf w1 vt1 T1) as (T2 & B2 & _).
  fold w2 in T2, B2. rewrite Hid in T2, B2.
  unfold registered in R1. rewrite T1 in R1. unfold counts_of in R1.
  destruct (get n (validations vt1)) as [x1|] eqn:G1; [|discriminate R1].
  cbn [option_map] in R1. injection R1 as R1.
  rewrite (register_again _ _ trig tid k ev vf x1 NaN G1) in T2, B2
    by (rewrite R1; apply lookup_insert_eq).
  cbn [fst snd] in T2, B2.
  split.
  - unfold registered. rewrite T2. unfold counts_of. cbn [validations].
    rewrite get_set_same. cbn [option_map refCount].
    rewrite Hi, R1, insert_insert_eq. reflexivity.
  - rewrite B2. exact B1.
Qed.

Lemma removing_an_event_never_added_leaves_NaN_witness :
  let w := with_rule Validator_Required (fresh "" "" 7 15 false) in
  let w1 := removeValidation "email" email_field ["keyup"] Validator_Required w in
  let w2 := addValidation "email" email_field ["keyup"] Validator_Required w1 in
  registered "email" "Validator_Required" w2
  = Some (<[ "email.keyup" := NaN ]> {[ "email.change" := of_Z 1 ]})
  /\ bound w2 = [(email_field, "change", "email")].
Proof.
  intros w w1 w2.
  exact (proj2 (removing_an_event_never_added_leaves_NaN
                  w "email" email_field "keyup" Validator_Required _ _
                  eq_refl eq_refl eq_refl eq_refl)).
Defined.

End HandlerProps.

(* ===================================================================== *)
(** * Properties of what a target reports *)
(* ===================================================================== *)

Module ReportProps.
Import JS Dom Val Page ObjFacts Report.

Lemma existsb_eqb_In (m : string) (ms : list string) :
  existsb (String.eqb m) ms = true <-> In m ms.
Proof.
  rewrite existsb_exists. split.
  - intros (x & Hx & E). apply String.eqb_eq in E. subst. exact Hx.
  - intros H. exists m. split; [exact H|apply String.eqb_refl].
Qed.

Lemma NoDup_snoc (m : string) (ms : list string) :
  List.NoDup ms -> ~ In m ms -> List.NoDup (ms ++ [m]).
Proof.
  intros Hn Hm. induction Hn as [|x l Hx Hl IH]; cbn.
  - constructor; [tauto|constructor].
  - constructor.
    + rewrite in_app_iff. cbn. intros [H|[H|[]]]; [tauto|].
      apply Hm. left. symmetry. exact H.
    + apply IH. intros H. apply Hm. right. exact H.
Qed.

Lemma told_values ms :
  told ms = match existsb is_error ms, existsb is_warning ms with
            | true, true => 3 | true, false => 2 | false, true => 1 | false, false => 0
            end.
Proof.
  unfold told. destruct (existsb is_error ms), (existsb is_warning ms); reflexivity.
Qed.

(** Recording a message of the kind that goes with the bit [s] keeps
    state and messages in agreement. *)
Lemma coherent_addMessage m s t :
  (is_error m = true /\ is_warning m = false /\ s = StateEnum.FAIL)
  \/ (is_warning m = true /\ is_error m = false /\ s = StateEnum.WARN) ->
  coherent t ->
  coherent (addMessage m (with_state (Z.lor (state t) s) t)).
Proof.
  intros Hm (Hs & Hk & Hn). unfold addMessage. cbn [messages with_state].
  destruct (existsb (String.eqb m) (messages t)) eqn:E.
  - unfold coherent. cbn [state messages with_state].
    split; [|auto]. rewrite Hs, !told_values.
    apply existsb_eqb_In in E.
    destruct Hm as [(He & Hw & ->)|(Hw & He & ->)].
    + assert (existsb is_error (messages t) = true) as ->.
      { apply existsb_exists. eauto. }
      destruct (existsb is_warning (messages t)); reflexivity.
    + assert (existsb is_warning (messages t) = true) as ->.
      { apply existsb_exists. eauto. }
      destruct (existsb is_error (messages t)); reflexivity.
  - unfold coherent. cbn [state messages with_state with_messages].
    split; [|split].
    + rewrite Hs, !told_values, !existsb_app. cbn [existsb].
      destruct Hm as [(He & Hw & ->)|(Hw & He & ->)]; rewrite He, Hw;
        destruct (existsb is_error (messages t)), (existsb is_warning (messages t));
        reflexivity.
    + rewrite forallb_app, Hk. cbn [forallb andb].
      destruct Hm as [(He & Hw & _)|(Hw & He & _)]; rewrite He, Hw; reflexivity.
    + apply NoDup_snoc; [exact Hn|].
      intros H. apply existsb_eqb_In in H. congruence.
Qed.

Lemma coherent_fail x t d : coherent t -> coherent (fst (fail x t d)).
Proof.
  intros H. unfold fail. cbn [fst]. apply coherent_addMessage; [|exact H].
  left. auto.
Qed.

Lemma coherent_warn x t d : coherent t -> coherent (fst (warn x t d)).
Proof.
  intros H. unfold warn. cbn [fst]. apply coherent_addMessage; [|exact H].
  right. auto.
Qed.

Lemma coherent_clear v t d : coherent (fst (clear v t d)).
Proof.
  unfold clear. cbn [fst]. unfold coherent. cbn. repeat split. constructor.
Qed.

Lemma coherent_pass t : coherent t -> (state t = StateEnum.PASS <-> messages t = []).
Proof.
  intros (Hs & Hk & _). rewrite Hs, told_values. split.
  - destruct (messages t) as [|m r]; [reflexivity|].
    cbn [forallb existsb] in *. apply andb_true_iff in Hk as [Hm _].
    destruct (is_error m), (is_warning m); try discriminate Hm; cbn [orb];
      repeat match goal with
             | |- context [existsb ?f r] => destruct (existsb f r)
             end; discriminate.
  - intros ->. reflexivity.
Qed.

Lemma coherent_bits t :
  coherent t ->
  Z.testbit (state t) 1 = existsb is_error (messages t)
  /\ Z.testbit (state t) 0 = existsb is_warning (messages t).
Proof.
  intros (Hs & _ & _). rewrite Hs, told_values.
  destruct (existsb is_error (messages t)), (existsb is_warning (messages t));
    split; reflexivity.
Qed.

(** X15.  The state of a target is told by its messages.  When state and
    messages agree (the FAIL bit is set exactly when an error is listed,
    the WARN bit exactly when a warning is, there are no other bits, no
    other messages and no message twice) they still agree after [fail],
    after [warn] and after [clear].  Then the state is PASS exactly when
    no message is listed.  Failing twice with one message is failing
    once. *)
Theorem state_and_messages_agree :
  forall (v : Validator) (t : target) (d : document) (x : string),
    coherent t ->
    coherent (fst (fail x t d))
    /\ coherent (fst (warn x t d))
    /\ coherent (fst (clear v t d))
    /\ (state t = StateEnum.PASS <-> messages t = [])
    /\ Z.testbit (state t) 1 = existsb is_error (messages t)
    /\ Z.testbit (state t) 0 = existsb is_warning (messages t)
    /\ fst (fail x (fst (fail x t d)) (snd (fail x t d))) = fst (fail x t d).
Proof.
  intros v t d x H.
  split; [apply coherent_fail, H|].
  split; [apply coherent_warn, H|].
  split; [apply coherent_clear|].
  split; [apply coherent_pass, H|].
  split; [apply coherent_bits, H|].
  split; [apply coherent_bits, H|].
  unfold fail. cbn [fst snd]. unfold addMessage.
  cbn [messages with_state state].
  destruct (existsb (String.eqb ("Error: " +:+ x)) (messages t)) eqn:E.
  - cbn [messages with_state state]. rewrite E.
    unfold with_state. cbn. rewrite <- Z.lor_assoc, Z.lor_diag. reflexivity.
  - cbn [messages with_state with_messages state].
    rewrite existsb_app. cbn [existsb]. rewrite String.eqb_refl, orb_true_r.
    unfold with_state, with_messages. cbn.
    rewrite <- Z.lor_assoc, Z.lor_diag. reflexivity.
Qed.

Lemma coherent_blank k c : coherent (blank_target k c).
Proof. unfold coherent. cbn. repeat split. constructor. Qed.

Lemma state_and_messages_agree_witness :
  let t := blank_target "email" 3 in
  messages (fst (warn "b" (fst (fail "a" t [])) [])) = ["Error: a"; "Warning: b"]
  /\ coherent (fst (fail "a" t [])).
Proof.
  intros t. split; [reflexivity|].
  exact (proj1 (state_and_messages_agree
                  (mkValidator [] [] 0 0 [] false) t [] "a"
                  (coherent_blank "email" 3))).
Defined.

(** ** A validation pass *)

Lemma get_some_In {V : Type} (k : string) (o : obj V) (v : V) :
  get k o = Some v -> In (k, v) o.
Proof.
  induction o as [|[k' v'] r IH]; cbn; [discriminate|].
  destruct (String.eqb_spec k k') as [->|_].
  - intros H. injection H as ->. left. reflexivity.
  - intros H. right. exact (IH H).
Qed.

Lemma Forall_update {V : Type} (P : string * V -> Prop) k v (o : obj V) :
  P (k, v) -> Forall P o -> Forall P (update k v o).
Proof.
  intros Hv H. induction H as [|[k' v'] r Hx Hr IH]; cbn; [constructor|].
  destruct (String.eqb k k'); constructor; auto.
Qed.

Lemma Forall_insert_new {V : Type} (P : string * V -> Prop) k v (o : obj V) :
  P (k, v) -> Forall P o -> Forall P (insert_new k v o).
Proof.
  intros Hv H. induction H as [|[k' v'] r Hx Hr IH]; cbn;
    [repeat constructor; exact Hv|].
  destruct (before k k'); constructor; auto.
Qed.

(** What holds of all properties and of the value assigned holds of all
    properties after the assignment. *)
Lemma Forall_set {V : Type} (P : string * V -> Prop) k v (o : obj V) :
  P (k, v) -> Forall P o -> Forall P (set k v o).
Proof.
  intros Hv H. unfold set.
  destruct (get k o); [apply Forall_update|apply Forall_insert_new]; assumption.
Qed.

Lemma run_validation_coherent n st :
  coherent (this (fst st)) -> reporting (validations (fst st)) ->
  coherent (this (fst (run_validation n st)))
  /\ reporting (validations (fst (run_validation n st))).
Proof.
  destruct st as [vt d]. cbn [fst]. intros Hc Hr. unfold run_validation.
  destruct (get n (validations vt)) as [x|] eqn:E; [|auto].
  destruct (lock x); [auto|].
  assert (Hx : reporter (method x)).
  { apply get_some_In in E. unfold reporting in Hr.
    rewrite List.Forall_forall in Hr. exact (Hr _ E). }
  pose proof (Hx (this vt) d Hc) as Hc'.
  destruct (method x (this vt) d) as [t d']. cbn [fst this validations] in *.
  split; [exact Hc'|].
  unfold reporting. apply Forall_set; [exact Hx|].
  apply Forall_set; [exact Hx|exact Hr].
Qed.

Lemma run_all_coherent ns st :
  coherent (this (fst st)) -> reporting (validations (fst st)) ->
  coherent (this (fst (fold_left (fun st n => run_validation n st) ns st)))
  /\ reporting (validations (fst (fold_left (fun st n => run_validation n st) ns st))).
Proof.
  revert st. induction ns as [|n r IH]; intros st Hc Hr; [auto|].
  cbn [fold_left]. destruct (run_validation_coherent n st Hc Hr) as [Hc' Hr'].
  apply IH; assumption.
Qed.

Lemma reporting_unlock_all vs : reporting vs -> reporting (unlock_all vs).
Proof.
  unfold reporting, unlock_all. intros H.
  induction H as [|[k x] r Hx Hr IH]; cbn; constructor; auto.
Qed.

Lemma validateAll_target_coherent s v vt d :
  reporting (validations vt) ->
  coherent (this (fst (validateAll_target s v vt d)))
  /\ reporting (validations (fst (validateAll_target s v vt d))).
Proof.
  intros Hr. unfold validateAll_target.
  pose proof (coherent_clear v (this vt) d) as Hc.
  destruct (clear v (this vt) d) as [t d1]. cbn [fst] in Hc.
  destruct (parents d1 (control t) (has_class "disabled")); [|auto].
  pose proof (run_all_coherent (keys (validations (mkVT t (validations vt))))
                               (mkVT t (validations vt), d1) Hc Hr) as [H1 H2].
  destruct (fold_left _ _ _) as [vt2 d2]. cbn [fst this validations] in *.
  split; [exact H1|apply reporting_unlock_all, H2].
Qed.

Lemma reporter_Required : reporter (vf_method Validator_Required).
Proof.
  intros t d H. cbn [vf_method Validator_Required].
  destruct (blank_control d (control t)); [apply coherent_fail, H|exact H].
Qed.

Lemma reporter_Date : reporter (vf_method Validator_Date).
Proof.
  intros t d H. cbn [vf_method Validator_Date].
  destruct (negb (isEmpty _)); [|exact H].
  destruct (negb (isDate _ _)); [apply coherent_fail, H|].
  destruct (negb (Regex.matches _ _)); [apply coherent_fail, H|exact H].
Qed.

Lemma reporter_EMail : reporter (vf_method Validator_EMail).
Proof.
  intros t d H. cbn [vf_method Validator_EMail].
  destruct (contains_char ";" _).
  - generalize (split ";" (val d (control t))). intros segs.
    assert (G : forall st, coherent (fst st) ->
                coherent (fst (fold_left
                  (fun st x =>
                     if negb (Regex.matches patt (trim x))
                     then fail (not_an_address (trim x)) (fst st) (snd st)
                     else st) segs st))).
    { induction segs as [|x r IH]; intros st Hst; [exact Hst|].
      cbn [fold_left]. apply IH.
      destruct (negb _); [apply coherent_fail, Hst|exact Hst]. }
    apply (G (t, d)). exact H.
  - destruct (negb (isEmpty _)); [|exact H].
    destruct (negb (Regex.matches _ _)); [apply coherent_fail, H|exact H].
Qed.

(** X16.  A validation pass over a target leaves its state and its
    messages in agreement, whatever they were before, provided that its
    validation functions keep them in agreement: then the target has
    passed exactly when it lists no message.  The required rule, the
    date rule and the e-mail rule do. *)
Theorem a_pass_leaves_state_and_messages_in_agreement :
  forall (submitting : bool) (v : Validator) (vt : ValidationTarget) (d : document),
    Forall (fun kv => reporter (method (snd kv))) (validations vt) ->
    let t := this (fst (validateAll_target submitting v vt d)) in
    coherent t
    /\ (state t = StateEnum.PASS <-> messages t = [])
    /\ reporter (vf_method Validator_Required)
    /\ reporter (vf_method Validator_Date)
    /\ reporter (vf_method Validator_EMail).
Proof.
  intros s v vt d Hr t.
  assert (Hc : coherent t) by (apply validateAll_target_coherent, Hr).
  split; [exact Hc|]. split; [apply coherent_pass, Hc|].
  split; [apply reporter_Required|].
  split; [apply reporter_Date|apply reporter_EMail].
Qed.

Lemma a_pass_leaves_state_and_messages_in_agreement_witness :
  let w := fresh "" "" 7 15 false in
  let t := this (fst (validateAll_target false (self w) required_email (doc w))) in
  messages t = ["Error: email is a required field."]
  /\ coherent t.
Proof.
  intros w t. split; [vm_compute; reflexivity|].
  refine (proj1 (a_pass_leaves_state_and_messages_in_agreement
                   false (self w) required_email (doc w) _)).
  constructor; [exact reporter_Required|constructor].
Defined.

(** ** The full message *)

Lemma fold_message (ms : list string) (m : string) :
  m <> "" ->
  fold_left (fun m x => (if String.eqb m "" then m else m +:+ nl) +:+ x) ms m
  = m +:+ fold_right (fun x r => nl +:+ x +:+ r) "" ms.
Proof.
  revert m. induction ms as [|x r IH]; intros m Hm; cbn [fold_left fold_right].
  - rewrite ValProps.append_nil_r. reflexivity.
  - destruct (String.eqb_spec m "") as [->|_]; [congruence|].
    rewrite IH.
    + rewrite !ValProps.append_assoc. reflexivity.
    + destruct m as [|c m']; [congruence|]. discriminate.
Qed.

Lemma concat_tail (x : string) (r : list string) :
  String.concat nl (x :: r) = x +:+ fold_right (fun y t => nl +:+ y +:+ t) "" r.
Proof.
  revert x. induction r as [|y r IH]; intros x.
  - cbn. rewrite ValProps.append_nil_r. reflexivity.
  - change (String.concat nl (x :: y :: r)) with (x +:+ nl +:+ String.concat nl (y :: r)).
    rewrite IH. reflexivity.
Qed.

Lemma message_not_empty m : is_error m || is_warning m = true -> m <> "".
Proof. intros H ->. discriminate H. Qed.

(** X17.  For a target whose state and messages agree, [fullMessage] is
    the list of the messages joined by line feeds, and it is empty
    exactly when the target has passed. *)
Theorem the_full_message_is_the_messages_line_by_line :
  forall t : target,
    coherent t ->
    fullMessage t = String.concat nl (messages t)
    /\ (fullMessage t = "" <-> state t = StateEnum.PASS).
Proof.
  intros t H. pose proof (coherent_pass t H) as Hp.
  destruct H as (_ & Hk & _). unfold fullMessage.
  destruct (messages t) as [|x r] eqn:E.
  - split; [reflexivity|]. split; [intros _; apply Hp; reflexivity|reflexivity].
  - cbn [forallb] in Hk. apply andb_true_iff in Hk as [Hx _].
    apply message_not_empty in Hx.
    cbn [fold_left String.eqb]. change ("" +:+ x) with x.
    rewrite (fold_message r x Hx), concat_tail.
    split; [reflexivity|]. split.
    + intros H0. destruct x as [|c x']; [congruence|]. discriminate H0.
    + intros H0. apply Hp in H0. discriminate H0.
Qed.

Lemma coherent_failed_and_warned : coherent failed_and_warned.
Proof.
  unfold coherent. split; [reflexivity|]. split; [reflexivity|].
  constructor; [|constructor; [|constructor]]; cbn; intuition discriminate.
Qed.

Lemma the_full_message_is_the_messages_line_by_line_witness :
  fullMessage failed_and_warned
  = "Error: Email is a required field." +:+ nl +:+ "Warning: Email is odd.".
Proof.
  exact (proj1 (the_full_message_is_the_messages_line_by_line
                  failed_and_warned coherent_failed_and_warned)).
Defined.

End ReportProps.

(* ===================================================================== *)
(** * Properties of the results on the page *)
(* ===================================================================== *)

Module ResultsProps.
Import JS Dom Val Page DomFacts Report Results.

(** ** Changes of every element of a jQuery object *)

Lemma each_cons f a (q : jq) (d : document) : each f (a :: q) d = each f q (alter f a d).
Proof. reflexivity. Qed.

Lemma length_each f (q : jq) (d : document) : length (each f q d) = length d.
Proof.
  revert d. induction q as [|a q IH]; intros d; [reflexivity|].
  rewrite each_cons, IH. apply length_alter.
Qed.

(** A change that keeps a field of every element keeps it in the
    document. *)
Lemma each_field {A : Type} (g : element -> A) f (q : jq) (d : document) n :
  (forall e, g (f e) = g e) -> g <$> (each f q d !! n) = g <$> (d !! n).
Proof.
  intros H. revert d. induction q as [|a q IH]; intros d; [reflexivity|].
  rewrite each_cons, IH. destruct (Nat.eq_dec a n) as [->|Hne].
  - rewrite list_lookup_alter_eq. destruct (d !! n); cbn; [f_equal; apply H|reflexivity].
  - rewrite list_lookup_alter_ne by assumption. reflexivity.
Qed.

Lemma satisfies_lookup (d : document) P n :
  satisfies d P n = default false (P <$> d !! n).
Proof. unfold satisfies. destruct (d !! n); reflexivity. Qed.

Lemma each_keeps (P : element -> bool) f (q : jq) (d : document) n :
  (forall e, P (f e) = P e) -> satisfies (each f q d) P n = satisfies d P n.
Proof.
  intros H. rewrite !satisfies_lookup, (each_field P) by exact H. reflexivity.
Qed.

Lemma each_one f c (d : document) (P : element -> bool) :
  satisfies (each f [c] d) P c
  = match d !! c with Some e => P (f e) | None => false end.
Proof.
  unfold each, satisfies. cbn [fold_left]. rewrite list_lookup_alter_eq.
  destruct (d !! c); reflexivity.
Qed.

Lemma each_untouched f (q : jq) (d : document) n :
  ~ In n q -> each f q d !! n = d !! n.
Proof.
  revert d. induction q as [|a q IH]; intros d Hn; [reflexivity|].
  rewrite each_cons, IH by (intros H; apply Hn; right; exact H).
  apply list_lookup_alter_ne. intros ->. apply Hn. left. reflexivity.
Qed.

Lemma each_is_Some f (q : jq) (d : document) n :
  is_Some (each f q d !! n) <-> is_Some (d !! n).
Proof. rewrite !lookup_lt_is_Some, length_each. reflexivity. Qed.

Lemma append_lookup e (q : jq) (d : document) n :
  (n < length d)%nat -> append e q d !! n = d !! n.
Proof.
  revert d. induction q as [|p q IH]; intros d Hn; [reflexivity|].
  unfold append in *. cbn [fold_left]. rewrite IH.
  - apply lookup_app_l. exact Hn.
  - rewrite length_app. lia.
Qed.

Lemma append_keeps e (q : jq) (d : document) (P : element -> bool) n :
  is_Some (d !! n) -> satisfies (append e q d) P n = satisfies d P n.
Proof.
  intros H. unfold satisfies. rewrite append_lookup; [reflexivity|].
  apply lookup_lt_is_Some. exact H.
Qed.

Lemma append_is_Some e (q : jq) (d : document) n :
  is_Some (d !! n) -> is_Some (append e q d !! n).
Proof.
  intros H. rewrite append_lookup; [exact H|]. apply lookup_lt_is_Some. exact H.
Qed.

(** ** Classes *)

Lemma has_class_filter x y e :
  x <> y ->
  has_class x (with_classes (List.filter (fun z => negb (String.eqb y z)) (classes e)) e)
  = has_class x e.
Proof.
  intros Hne. unfold has_class. cbn [classes with_classes].
  induction (classes e) as [|z r IH]; [reflexivity|].
  cbn [List.filter existsb]. destruct (String.eqb_spec y z) as [->|Hyz]; cbn [negb].
  - rewrite IH. destruct (String.eqb_spec x z); [congruence|reflexivity].
  - cbn [existsb]. rewrite IH. reflexivity.
Qed.

Lemma has_class_added x y e :
  has_class x (if has_class y e || String.eqb y "" then e
               else with_classes (classes e ++ [y]) e)
  = has_class x e || (String.eqb x y && negb (String.eqb y "")).
Proof.
  destruct (String.eqb_spec y "") as [->|Hy].
  - rewrite orb_true_r, andb_false_r, orb_false_r. reflexivity.
  - rewrite orb_false_r, andb_true_r.
    destruct (has_class y e) eqn:E.
    + destruct (String.eqb_spec x y) as [->|]; [rewrite E|rewrite orb_false_r]; reflexivity.
    + unfold has_class. cbn [classes with_classes]. rewrite existsb_app.
      cbn [existsb]. rewrite orb_false_r. reflexivity.
Qed.

Lemma removeClass_keeps x y (q : jq) (d : document) n :
  x <> y ->
  satisfies (removeClass y q d) (has_class x) n = satisfies d (has_class x) n.
Proof. intros H. apply each_keeps. intros e. apply has_class_filter, H. Qed.

Lemma addClass_keeps x y (q : jq) (d : document) n :
  x <> y ->
  satisfies (addClass y q d) (has_class x) n = satisfies d (has_class x) n.
Proof.
  intros H. apply each_keeps. intros e. rewrite has_class_added.
  destruct (String.eqb_spec x y); [congruence|]. apply orb_false_r.
Qed.

Lemma addClass_one x y c (d : document) :
  satisfies (addClass y [c] d) (has_class x) c
  = satisfies d (has_class x) c
    || (String.eqb x y && negb (String.eqb y "") && bool_decide (is_Some (d !! c))).
Proof.
  unfold addClass. rewrite each_one. unfold satisfies.
  destruct (d !! c) as [e|].
  - rewrite has_class_added. rewrite bool_decide_true by eauto.
    rewrite andb_true_r. reflexivity.
  - rewrite bool_decide_false by (intros [? ?]; discriminate).
    rewrite andb_false_r. reflexivity.
Qed.

(** ** The two steps of [setValidationResults] *)

Lemma help_block_below t (d : document) n :
  is_Some (d !! n) -> (help_block t d).1 !! n = d !! n.
Proof.
  intros H. unfold help_block.
  repeat match goal with
         | |- context [match ?x with _ => _ end] => destruct x
         end; cbn [fst]; try reflexivity;
    apply append_lookup, lookup_lt_is_Some, H.
Qed.

Lemma setValidationResults_steps submitting v t d :
  setValidationResults submitting v t d
  = match d !! control t with
    | None => d
    | Some _ =>
        let '(d1, help) := cleared t d in
        if (state t =? StateEnum.PASS) && blank_control d1 (control t) then d1
        else shown submitting v t help d1
    end.
Proof.
  unfold setValidationResults, cleared, shown, asks, relevant.
  destruct (d !! control t); [|reflexivity].
  destruct (help_block t d) as [d1 help].
  destruct submitting; reflexivity.
Qed.

(** ** The highlight *)

Lemma cleared_control t (d : document) e :
  d !! control t = Some e ->
  is_Some ((cleared t d).1 !! control t)
  /\ satisfies (cleared t d).1 (has_class "alert-danger") (control t) = false
  /\ satisfies (cleared t d).1 (has_class "alert-warn") (control t) = false.
Proof.
  intros Hd. unfold cleared.
  pose proof (help_block_below t d (control t) (ex_intro _ e Hd)) as Hb.
  destruct (help_block t d) as [d1 help]. cbn [fst] in Hb |- *.
  assert (H1 : is_Some (d1 !! control t)) by (rewrite Hb; eauto).
  unfold remove, set_html, set_prop_aria_invalid, set_attr.
  split; [|split].
  - rewrite each_is_Some. unfold addClass, removeClass.
    rewrite !each_is_Some. exact H1.
  - rewrite each_keeps by reflexivity.
    rewrite addClass_keeps by discriminate.
    rewrite each_keeps by reflexivity.
    rewrite removeClass_keeps by discriminate.
    match goal with
    | |- satisfies (removeClass _ _ ?x) _ _ = _ =>
        assert (H2 : is_Some (x !! control t))
    end.
    { unfold removeClass. rewrite !each_is_Some. exact H1. }
    destruct H2 as [e2 H2].
    apply removeClass_has_not with e2; [left; reflexivity|exact H2].
  - rewrite each_keeps by reflexivity.
    rewrite addClass_keeps by discriminate.
    rewrite each_keeps by reflexivity.
    match goal with
    | |- satisfies (removeClass _ _ ?x) _ _ = _ =>
        assert (H2 : is_Some (x !! control t))
    end.
    { unfold removeClass. rewrite !each_is_Some. exact H1. }
    destruct H2 as [e2 H2].
    apply removeClass_has_not with e2; [left; reflexivity|exact H2].
Qed.

Lemma shown_highlight submitting v t help (d : document) x :
  is_Some (d !! control t) ->
  x = "alert-danger" \/ x = "alert-warn" ->
  satisfies d (has_class x) (control t) = false ->
  satisfies (shown submitting v t help d) (has_class x) (control t)
  = asks ValidateEnum.HIGHLIGHT submitting v
    && (state t =? if String.eqb x "alert-warn" then StateEnum.WARN else StateEnum.FAIL).
Proof.
  intros Hs Hx H0. unfold shown.
  set (d1 := set_html (fullMessage t) help d).
  set (d2 := if asks ValidateEnum.HELP submitting v
             then removeClass "hidden" help d1 else addClass "hidden" help d1).
  set (d3 := if asks ValidateEnum.ICON submitting v
             then append (icon t) (indicator t) d2 else d2).
  assert (K : x <> "hidden") by (destruct Hx; subst; discriminate).
  assert (S2 : is_Some (d2 !! control t)).
  { unfold d2, d1, set_html, removeClass, addClass.
    destruct (asks ValidateEnum.HELP submitting v); rewrite !each_is_Some; exact Hs. }
  assert (H2 : satisfies d2 (has_class x) (control t) = false).
  { unfold d2. destruct (asks ValidateEnum.HELP submitting v);
      [rewrite removeClass_keeps by exact K|rewrite addClass_keeps by exact K];
      unfold d1, set_html; rewrite each_keeps by reflexivity; exact H0. }
  assert (S3 : is_Some (d3 !! control t)).
  { unfold d3. destruct (asks ValidateEnum.ICON submitting v);
      [apply append_is_Some|]; exact S2. }
  assert (H3 : satisfies d3 (has_class x) (control t) = false).
  { unfold d3. destruct (asks ValidateEnum.ICON submitting v); [|exact H2].
    rewrite append_keeps by exact S2. exact H2. }
  destruct (asks ValidateEnum.HIGHLIGHT submitting v); cbn [andb]; [|exact H3].
  assert (B : bool_decide (is_Some (d3 !! control t)) = true)
    by (apply bool_decide_true; exact S3).
  destruct (state t =? StateEnum.WARN) eqn:Ew;
    [|destruct (state t =? StateEnum.FAIL) eqn:Ef];
    rewrite addClass_one, H3, B; destruct Hx; subst x;
    cbn [String.eqb Ascii.eqb Bool.eqb pWARN pFAIL pPASS HighlightEnum andb orb negb];
    rewrite ?Ew, ?Ef; try reflexivity.
  apply Z.eqb_eq in Ew. rewrite Ew. reflexivity.
Qed.

(** X18.  The highlight follows the state, whatever classes the control
    had before.  After [setValidationResults] the control has the class
    [alert-danger] exactly when the behaviour in force asks for the
    highlight and the state is FAIL, and [alert-warn] exactly when it
    asks for the highlight and the state is WARN.  A target that has
    both failed and warned (state 3) gets neither. *)
Theorem the_highlight_follows_the_state :
  forall (submitting : bool) (v : Validator) (t : target) (d : document) (e : element),
    d !! control t = Some e ->
    let d' := setValidationResults submitting v t d in
    satisfies d' (has_class "alert-danger") (control t)
    = asks ValidateEnum.HIGHLIGHT submitting v && (state t =? StateEnum.FAIL)
    /\ satisfies d' (has_class "alert-warn") (control t)
       = asks ValidateEnum.HIGHLIGHT submitting v && (state t =? StateEnum.WARN).
Proof.
  intros submitting v t d e Hd d'. unfold d'.
  rewrite setValidationResults_steps, Hd.
  destruct (cleared_control t d e Hd) as (Hs & Hf & Hw).
  destruct (cleared t d) as [d1 help]. cbn [fst] in *.
  destruct ((state t =? StateEnum.PASS) && blank_control d1 (control t)) eqn:E.
  - apply andb_true_iff in E as [E _]. apply Z.eqb_eq in E.
    rewrite Hf, Hw, E, !andb_false_r. auto.
  - split.
    + apply (shown_highlight submitting v t help d1 "alert-danger"); auto.
    + apply (shown_highlight submitting v t help d1 "alert-warn"); auto.
Qed.

Lemma the_highlight_follows_the_state_witness :
  let w := fresh "x" "" 7 15 false in
  let d' := setValidationResults false (self w) failed_and_warned (doc w) in
  satisfies d' (has_class "alert-danger") email_field = false
  /\ satisfies d' (has_class "alert-warn") email_field = false.
Proof.
  intros w d'.
  exact (the_highlight_follows_the_state false (self w) failed_and_warned (doc w)
           _ eq_refl).
Defined.

(** ** The help block *)














Lemma blank_control_lookup (d : document) c :
  blank_control d c
  = default true ((fun e => if String.eqb (tag e) "SELECT" then isEmpty (selected e)
                            else isEmpty (value e)) <$> d !! c).
Proof. unfold blank_control. destruct (d !! c); reflexivity. Qed.

Lemma blank_control_each f (q : jq) (d : document) c :
  (forall e, tag (f e) = tag e /\ selected (f e) = selected e /\ value (f e) = value e) ->
  blank_control (each f q d) c = blank_control d c.
Proof.
  intros H. rewrite !blank_control_lookup. f_equal. apply each_field.
  intros e. destruct (H e) as (-> & -> & ->). reflexivity.
Qed.

(** Clearing the prior results leaves the value of the control. *)
Lemma cleared_blank t (d : document) :
  is_Some (d !! control t) ->
  blank_control (cleared t d).1 (control t) = blank_control d (control t).
Proof.
  intros Hs. unfold cleared.
  pose proof (help_block_below t d (control t) Hs) as Hb.
  destruct (help_block t d) as [d1 help]. cbn [fst] in *.
  unfold remove, addClass, set_html, removeClass, set_prop_aria_invalid, set_attr.
  rewrite !blank_control_each;
    try (intros e; try destruct (_ || _); auto).
  unfold blank_control. rewrite Hb. reflexivity.
Qed.



(** ** The icons *)

Lemma place_of_lookup (d : document) n :
  place_of d n = default Detached (at_ <$> d !! n).
Proof. unfold place_of. destruct (d !! n); reflexivity. Qed.

(** Documents with the same places and the same icons have the same
    icons below the same elements. *)
Lemma children_where_ext (d d' : document) (q : jq) P :
  length d = length d' ->
  (forall n, place_of d n = place_of d' n) ->
  (forall n, satisfies d P n = satisfies d' P n) ->
  children_where d q P = children_where d' q P.
Proof.
  intros Hl Hp Hs. unfold children_where.
  assert (Hc : forall p, children d p = children d' p).
  { intros p. unfold children, handles. rewrite Hl.
    apply filter_ext. intros n. rewrite Hp. reflexivity. }
  rewrite (flat_map_ext _ _ Hc). apply filter_ext. exact Hs.
Qed.

Lemma children_where_each f (qs : jq) (d : document) (q : jq) P :
  (forall e, at_ (f e) = at_ e) -> (forall e, P (f e) = P e) ->
  children_where (each f qs d) q P = children_where d q P.
Proof.
  intros Hp HP. apply children_where_ext.
  - apply length_each.
  - intros n. rewrite !place_of_lookup, (each_field at_) by exact Hp. reflexivity.
  - intros n. apply each_keeps, HP.
Qed.

Lemma In_children_where (d : document) (q : jq) P m :
  In m (children_where d q P)
  <-> satisfies d P m = true
      /\ (m < length d)%nat
      /\ exists p, In p q /\ place_of d m = Child p.
Proof.
  unfold children_where. rewrite filter_In, in_flat_map. split.
  - intros [(p & Hp & Hm) Hs]. unfold children in Hm.
    apply filter_In in Hm as [Hh Hc]. unfold handles in Hh. apply in_seq in Hh.
    split; [exact Hs|]. split; [lia|]. exists p. split; [exact Hp|].
    unfold is_child_of in Hc. destruct (place_of d m); try discriminate Hc.
    apply Nat.eqb_eq in Hc. subst. reflexivity.
  - intros (Hs & Hl & p & Hp & Hpl). split; [|exact Hs].
    exists p. split; [exact Hp|]. unfold children. apply filter_In. split.
    + unfold handles. apply in_seq. lia.
    + rewrite Hpl. cbn. apply Nat.eqb_refl.
Qed.

Lemma no_elements {A : Type} (l : list A) : (forall x, ~ In x l) -> l = [].
Proof.
  destruct l as [|a r]; [reflexivity|]. intros H. destruct (H a). left. reflexivity.
Qed.

(** Removing the icons below [q] leaves none. *)
Lemma remove_icons (d : document) (q : jq) P :
  (forall e p, P (with_place p e) = P e) ->
  children_where (remove (children_where d q P) d) q P = [].
Proof.
  intros HP. apply no_elements. intros m Hm.
  apply In_children_where in Hm as (Hs & Hl & p & Hp & Hpl).
  unfold remove in *. rewrite length_each in Hl.
  rewrite each_keeps in Hs by (intros e; apply HP).
  destruct (in_dec Nat.eq_dec m (children_where d q P)) as [Hin|Hnin].
  - apply lookup_lt_is_Some in Hl as [e He].
    destruct (each_establishes (fun e => at_ e = Detached) (with_place Detached))
      with (q := children_where d q P) (d := d) (n := m) (e := e)
      as (e' & H1 & H2); auto.
    unfold place_of in Hpl. rewrite H1, H2 in Hpl. discriminate Hpl.
  - apply Hnin. apply In_children_where. split; [exact Hs|]. split; [exact Hl|].
    exists p. split; [exact Hp|].
    unfold place_of in *. rewrite each_untouched in Hpl by exact Hnin. exact Hpl.
Qed.

Lemma children_snoc (d : document) x p :
  children (d ++ [x]) p
  = children d p ++ (if is_child_of p (at_ x) then [length d] else []).
Proof.
  unfold children, handles. rewrite length_app. cbn [length].
  rewrite Nat.add_1_r, seq_S, List.filter_app. cbn [List.filter Nat.add].
  f_equal.
  - apply filter_ext_in. intros n Hn. apply in_seq in Hn.
    unfold place_of. rewrite lookup_app_l by lia. reflexivity.
  - unfold place_of. rewrite list_lookup_middle by reflexivity. reflexivity.
Qed.

Lemma count_flat_map {A B : Type} (f : A -> list B) (g : B -> bool) (l : list A) :
  length (List.filter g (flat_map f l))
  = fold_right (fun a n => (length (List.filter g (f a)) + n)%nat) 0%nat l.
Proof.
  induction l as [|a r IH]; [reflexivity|].
  cbn [flat_map fold_right]. rewrite List.filter_app, length_app, IH. reflexivity.
Qed.

Lemma count_one (q : jq) (p : nat) (c : nat -> nat) :
  List.NoDup q -> In p q ->
  fold_right (fun a n => (c a + (if Nat.eqb a p then 1 else 0) + n)%nat) 0%nat q
  = S (fold_right (fun a n => (c a + n)%nat) 0%nat q).
Proof.
  intros Hn. induction Hn as [|a r Ha Hr IH]; intros Hin; [destruct Hin|].
  cbn [fold_right]. destruct (Nat.eqb_spec a p) as [->|Hne].
  - assert (H0 : fold_right (fun a n => (c a + (if Nat.eqb a p then 1 else 0) + n)%nat) 0%nat r
                 = fold_right (fun a n => (c a + n)%nat) 0%nat r).
    { clear IH Hr Hin. induction r as [|b r IH]; [reflexivity|].
      cbn [fold_right]. rewrite IH by (intros H; apply Ha; right; exact H).
      destruct (Nat.eqb_spec b p) as [->|_]; [|lia].
      exfalso. apply Ha. left. reflexivity. }
    rewrite H0. lia.
  - destruct Hin as [->|Hin]; [congruence|]. rewrite (IH Hin). lia.
Qed.

(** One more icon below an element of [q] is one more icon below [q]. *)
Lemma icons_snoc (d : document) (q : jq) P x p :
  List.NoDup q -> In p q -> P x = true -> at_ x = Child p ->
  length (children_where (d ++ [x]) q P) = S (length (children_where d q P)).
Proof.
  intros Hn Hp HP Hx. unfold children_where. rewrite !count_flat_map.
  rewrite <- (count_one q p (fun a => length (List.filter (satisfies d P) (children d a))))
    by assumption.
  clear Hn Hp. induction q as [|a r IH]; [reflexivity|].
  cbn [fold_right]. rewrite IH. f_equal.
  rewrite children_snoc, List.filter_app, length_app, Hx. cbn [is_child_of].
  f_equal.
  - f_equal. apply filter_ext_in. intros n Hin. unfold children in Hin.
    apply filter_In in Hin as [Hin _]. unfold handles in Hin. apply in_seq in Hin.
    unfold satisfies. rewrite lookup_app_l by lia. reflexivity.
  - destruct (Nat.eqb a p); [|reflexivity]. cbn [List.filter].
    unfold satisfies. rewrite list_lookup_middle by reflexivity. rewrite HP.
    reflexivity.
Qed.

Lemma append_snoc e p (q : jq) (d : document) :
  append e (q ++ [p]) d = append e q d ++ [with_place (Child p) e].
Proof. unfold append. rewrite fold_left_app. reflexivity. Qed.

(** An icon for every element of [q]. *)
Lemma icons_append e (q0 q : jq) (d : document) P :
  List.NoDup q -> (forall p, P (with_place p e) = true) -> incl q0 q ->
  length (children_where (append e q0 d) q P)
  = (length (children_where d q P) + length q0)%nat.
Proof.
  intros Hn HP. induction q0 as [|p q0 IH] using rev_ind; intros Hi.
  - cbn. lia.
  - rewrite append_snoc.
    rewrite icons_snoc with (p := p); auto.
    + rewrite IH; [rewrite length_app; cbn; lia|].
      intros a Ha. apply Hi. apply in_or_app. left. exact Ha.
    + apply Hi. apply in_or_app. right. left. reflexivity.
Qed.

Lemma icon_is_icon t p : is_icon (with_place p (icon t)) = true.
Proof.
  unfold icon. destruct (state t =? StateEnum.PASS); [reflexivity|].
  destruct (state t =? StateEnum.WARN); reflexivity.
Qed.

Lemma icons_addClass y (qs : jq) (d : document) (q : jq) :
  y <> "validationIndicator" ->
  children_where (addClass y qs d) q is_icon = children_where d q is_icon.
Proof.
  intros Hy. apply children_where_each.
  - intros e. destruct (_ || _); reflexivity.
  - intros e. unfold is_icon. rewrite has_class_added.
    destruct (String.eqb_spec "validationIndicator" y); [congruence|].
    apply orb_false_r.
Qed.

Lemma icons_removeClass y (qs : jq) (d : document) (q : jq) :
  y <> "validationIndicator" ->
  children_where (removeClass y qs d) q is_icon = children_where d q is_icon.
Proof.
  intros Hy. apply children_where_each; [reflexivity|].
  intros e. apply has_class_filter. congruence.
Qed.

(** X20.  Icons do not pile up.  After [setValidationResults] with a
    message that is plain text, the elements of the indicator have,
    together, one validation icon for each of them when the behaviour in
    force asks for the icon, unless the target has passed and its control
    is blank; otherwise they have none.  The icons of earlier updates are
    gone. *)
Theorem one_icon_for_each_indicator :
  forall (submitting : bool) (v : Validator) (t : target) (d : document) (e : element),
    d !! control t = Some e ->
    List.NoDup (indicator t) ->
    plain (fullMessage t) = true ->
    let d' := setValidationResults submitting v t d in
    let quiet := (state t =? StateEnum.PASS) && blank_control d (control t) in
    length (children_where d' (indicator t) (has_class "validationIndicator"))
    = if negb quiet && asks ValidateEnum.ICON submitting v
      then length (indicator t) else 0%nat.
Proof.
  intros submitting v t d e Hd Hn _ d' quiet. unfold d', quiet.
  rewrite setValidationResults_steps, Hd.
  rewrite <- (cleared_blank t d) by eauto.
  assert (H0 : children_where (cleared t d).1 (indicator t) is_icon = []).
  { unfold cleared. destruct (help_block t d) as [d1 help]. cbn [fst].
    apply remove_icons. reflexivity. }
  destruct (cleared t d) as [d1 help]. cbn [fst] in *.
  fold is_icon.
  destruct ((state t =? StateEnum.PASS) && blank_control d1 (control t));
    cbn [negb andb]; [rewrite H0; reflexivity|].
  unfold shown.
  set (d2 := set_html (fullMessage t) help d1).
  set (d3 := if asks ValidateEnum.HELP submitting v
             then removeClass "hidden" help d2 else addClass "hidden" help d2).
  assert (H3 : children_where d3 (indicator t) is_icon = []).
  { unfold d3. destruct (asks ValidateEnum.HELP submitting v);
      [rewrite icons_removeClass by discriminate|rewrite icons_addClass by discriminate];
      unfold d2, set_html; rewrite children_where_each by reflexivity; exact H0. }
  set (d4 := if asks ValidateEnum.ICON submitting v
             then append (icon t) (indicator t) d3 else d3).
  assert (H4 : length (children_where d4 (indicator t) is_icon)
               = if asks ValidateEnum.ICON submitting v
                 then length (indicator t) else 0%nat).
  { unfold d4. destruct (asks ValidateEnum.ICON submitting v).
    - rewrite icons_append; [rewrite H3; reflexivity|exact Hn| |apply incl_refl].
      intros p. apply icon_is_icon.
    - rewrite H3. reflexivity. }
  destruct (asks ValidateEnum.HIGHLIGHT submitting v); [|exact H4].
  destruct (state t =? StateEnum.WARN); [rewrite icons_addClass by discriminate; exact H4|].
  destruct (state t =? StateEnum.FAIL); rewrite icons_addClass by discriminate; exact H4.
Qed.

Lemma one_icon_for_each_indicator_witness :
  let w := fresh "x" "" 7 15 false in
  let once := setValidationResults false (self w) failed_and_warned (doc w) in
  let twice := setValidationResults false (self w) failed_and_warned once in
  children_where once [2%nat] (has_class "validationIndicator") = [8%nat]
  /\ length (children_where twice [2%nat] (has_class "validationIndicator")) = 1%nat.
Proof.
  intros w once twice. split; [vm_compute; reflexivity|].
  assert (He : {e | once !! control failed_and_warned = Some e})
    by (eexists; vm_compute; reflexivity).
  destruct He as [e He].
  pose proof (one_icon_for_each_indicator false (self w) failed_and_warned once e He
                ltac:(repeat constructor; intros []) eq_refl) as H.
  vm_compute in H |- *. exact H.
Defined.

(** ** The attribute aria-invalid *)

Lemma attr_lookup (d : document) n a :
  attr d n a = mjoin ((fun e => attrs e !! a) <$> d !! n).
Proof. unfold attr. destruct (d !! n); reflexivity. Qed.

Lemma each_attr f (q : jq) (d : document) n a :
  (forall e, attrs (f e) !! a = attrs e !! a) ->
  attr (each f q d) n a = attr d n a.
Proof.
  intros H. rewrite !attr_lookup, (each_field (fun e => attrs e !! a)) by exact H.
  reflexivity.
Qed.

Lemma set_attr_other a b x (q : jq) (d : document) n :
  a <> b -> attr (set_attr a x q d) n b = attr d n b.
Proof.
  intros Hne. apply each_attr. intros e. cbn. apply lookup_insert_ne. exact Hne.
Qed.

Lemma set_attr_same a x c (d : document) :
  is_Some (d !! c) -> attr (set_attr a x [c] d) c a = Some x.
Proof.
  intros [e He]. unfold set_attr, each, attr. cbn [fold_left].
  rewrite list_lookup_alter_eq, He. cbn. apply lookup_insert_eq.
Qed.

Lemma append_attr e (q : jq) (d : document) n a :
  is_Some (d !! n) -> attr (append e q d) n a = attr d n a.
Proof.
  intros H. unfold attr. rewrite append_lookup; [reflexivity|].
  apply lookup_lt_is_Some, H.
Qed.

Lemma added_class_attrs y e a :
  attrs (if has_class y e || String.eqb y "" then e
         else with_classes (classes e ++ [y]) e) !! a = attrs e !! a.
Proof. destruct (_ || _); reflexivity. Qed.

Lemma cleared_attr t (d : document) a :
  is_Some (d !! control t) -> a <> "aria-describedby" ->
  attr (cleared t d).1 (control t) a = attr d (control t) a
  /\ is_Some ((cleared t d).1 !! control t).
Proof.
  intros Hs Ha. unfold cleared.
  pose proof (help_block_below t d (control t) Hs) as Hb.
  destruct (help_block t d) as [d1 help]. cbn [fst] in *.
  split.
  - unfold remove, set_html, set_prop_aria_invalid, addClass, removeClass.
    rewrite !each_attr; try reflexivity; try (intros e; apply added_class_attrs).
    rewrite set_attr_other by congruence.
    unfold attr. rewrite Hb. reflexivity.
  - unfold remove, set_html, set_prop_aria_invalid, addClass, removeClass, set_attr.
    rewrite !each_is_Some, Hb. exact Hs.
Qed.

Lemma shown_attr submitting v t help (d : document) a :
  is_Some (d !! control t) ->
  attr (shown submitting v t help d) (control t) a = attr d (control t) a
  /\ is_Some (shown submitting v t help d !! control t).
Proof.
  intros Hs. unfold shown.
  set (d1 := set_html (fullMessage t) help d).
  set (d2 := if asks ValidateEnum.HELP submitting v
             then removeClass "hidden" help d1 else addClass "hidden" help d1).
  set (d3 := if asks ValidateEnum.ICON submitting v
             then append (icon t) (indicator t) d2 else d2).
  assert (H2 : attr d2 (control t) a = attr d (control t) a
               /\ is_Some (d2 !! control t)).
  { unfold d2, d1, set_html, removeClass, addClass.
    destruct (asks ValidateEnum.HELP submitting v);
      rewrite !each_attr, !each_is_Some;
      try reflexivity; try (intros e; apply added_class_attrs); auto. }
  destruct H2 as [H2 S2].
  assert (H3 : attr d3 (control t) a = attr d (control t) a
               /\ is_Some (d3 !! control t)).
  { unfold d3. destruct (asks ValidateEnum.ICON submitting v); [|auto].
    rewrite append_attr by exact S2. split; [exact H2|apply append_is_Some, S2]. }
  destruct H3 as [H3 S3].
  assert (K : forall y, attr (addClass y [control t] d3) (control t) a
                        = attr d (control t) a
                        /\ is_Some (addClass y [control t] d3 !! control t)).
  { intros y. unfold addClass.
    rewrite each_attr by (intros e; apply added_class_attrs).
    rewrite each_is_Some. auto. }
  destruct (asks ValidateEnum.HIGHLIGHT submitting v); [|auto].
  destruct (state t =? StateEnum.WARN); [apply K|].
  destruct (state t =? StateEnum.FAIL); apply K.
Qed.

(** [setValidationResults] writes no attribute of the control but
    [aria-describedby]. *)
Lemma setValidationResults_attr submitting v t (d : document) a :
  is_Some (d !! control t) -> a <> "aria-describedby" ->
  attr (setValidationResults submitting v t d) (control t) a = attr d (control t) a
  /\ is_Some (setValidationResults submitting v t d !! control t).
Proof.
  intros Hs Ha. rewrite setValidationResults_steps.
  destruct Hs as [e He]. rewrite He.
  destruct (cleared_attr t d a (ex_intro _ e He) Ha) as [H1 S1].
  destruct (cleared t d) as [d1 help]. cbn [fst] in *.
  destruct ((state t =? StateEnum.PASS) && blank_control d1 (control t)); [auto|].
  destruct (shown_attr submitting v t help d1 a S1) as [H2 S2].
  rewrite H2. auto.
Qed.

Lemma addMessage_fields m t :
  state (addMessage m t) = state t /\ control (addMessage m t) = control t.
Proof. unfold addMessage. destruct (existsb _ _); auto. Qed.

Lemma announced_fail x t d :
  is_Some (d !! control t) ->
  announced (fst (fail x t d)) (snd (fail x t d))
  /\ control (fst (fail x t d)) = control t
  /\ is_Some (snd (fail x t d) !! control t).
Proof.
  intros Hs. unfold fail. cbn [fst snd].
  destruct (addMessage_fields ("Error: " +:+ x)
              (with_state (Z.lor (state t) StateEnum.FAIL) t)) as [E1 E2].
  unfold announced. rewrite E1, E2. cbn [state control with_state].
  split; [|split; [reflexivity|]].
  - rewrite Z.lor_spec, orb_true_r. apply set_attr_same, Hs.
  - unfold set_attr. rewrite each_is_Some. exact Hs.
Qed.

Lemma announced_clear v t d :
  is_Some (d !! control t) ->
  announced (fst (clear v t d)) (snd (clear v t d))
  /\ control (fst (clear v t d)) = control t
  /\ is_Some (snd (clear v t d) !! control t).
Proof.
  intros Hs. unfold clear. cbn [fst snd control with_state with_messages].
  set (t0 := with_messages [] (with_state StateEnum.PASS t)).
  set (d0 := set_attr "aria-invalid" "false" [control t] d).
  assert (S0 : is_Some (d0 !! control t0)).
  { unfold d0, set_attr. rewrite each_is_Some. exact Hs. }
  destruct (setValidationResults_attr false v t0 d0 "aria-invalid" S0)
    as [H1 S1]; [discriminate|].
  unfold announced. cbn [state control t0 with_state with_messages] in *.
  split; [|auto]. rewrite H1. apply set_attr_same, Hs.
Qed.

Lemma run_validation_announced n st c :
  control (this (fst st)) = c -> is_Some (snd st !! c) ->
  announced (this (fst st)) (snd st) -> announcing (validations (fst st)) ->
  let st' := run_validation n st in
  control (this (fst st')) = c /\ is_Some (snd st' !! c)
  /\ announced (this (fst st')) (snd st') /\ announcing (validations (fst st')).
Proof.
  destruct st as [vt d]. cbn [fst snd]. intros Hc Hs Ha Hr. unfold run_validation.
  destruct (get n (validations vt)) as [x|] eqn:E; [|cbn; auto].
  destruct (lock x); [cbn; auto|].
  assert (Hx : announcer (method x)).
  { apply ReportProps.get_some_In in E. unfold announcing in Hr.
    rewrite List.Forall_forall in Hr. exact (Hr _ E). }
  subst c. destruct (Hx (this vt) d Hs Ha) as (H1 & H2 & H3).
  destruct (method x (this vt) d) as [t d']. cbn [fst snd this validations] in *.
  repeat split; auto.
  unfold announcing. apply ReportProps.Forall_set; [exact Hx|].
  apply ReportProps.Forall_set; [exact Hx|exact Hr].
Qed.

Lemma run_all_announced ns st c :
  control (this (fst st)) = c -> is_Some (snd st !! c) ->
  announced (this (fst st)) (snd st) -> announcing (validations (fst st)) ->
  let st' := fold_left (fun st n => run_validation n st) ns st in
  control (this (fst st')) = c /\ is_Some (snd st' !! c)
  /\ announced (this (fst st')) (snd st').
Proof.
  revert st. induction ns as [|n r IH]; intros st Hc Hs Ha Hr; [cbn; auto|].
  cbn [fold_left].
  destruct (run_validation_announced n st c Hc Hs Ha Hr) as (H1 & H2 & H3 & H4).
  apply IH; assumption.
Qed.

Lemma announcer_Required : announcer (vf_method Validator_Required).
Proof.
  intros t d Hs Ha. cbn [vf_method Validator_Required].
  destruct (blank_control d (control t)); [apply announced_fail, Hs|auto].
Qed.

Lemma announcer_Date : announcer (vf_method Validator_Date).
Proof.
  intros t d Hs Ha. cbn [vf_method Validator_Date].
  destruct (negb (isEmpty _)); [|auto].
  destruct (negb (isDate _ _)); [apply announced_fail, Hs|].
  destruct (negb (Regex.matches _ _)); [apply announced_fail, Hs|auto].
Qed.

Lemma announcer_EMail : announcer (vf_method Validator_EMail).
Proof.
  intros t d Hs Ha. cbn [vf_method Validator_EMail].
  destruct (contains_char ";" _).
  - generalize (split ";" (val d (control t))). intros segs.
    assert (G : forall st,
               control (fst st) = control t -> is_Some (snd st !! control t) ->
               announced (fst st) (snd st) ->
               let st' := fold_left
                  (fun st x =>
                     if negb (Regex.matches patt (trim x))
                     then fail (not_an_address (trim x)) (fst st) (snd st)
                     else st) segs st in
               announced (fst st') (snd st') /\ control (fst st') = control t
               /\ is_Some (snd st' !! control t)).
    { induction segs as [|x r IH]; intros st Hc Hs' Ha'; [cbn; auto|].
      cbn [fold_left]. apply IH.
      - destruct (negb _); [|exact Hc].
        rewrite <- Hc. apply announced_fail. rewrite Hc. exact Hs'.
      - destruct (negb _); [|exact Hs'].
        rewrite <- Hc. apply announced_fail. rewrite Hc. exact Hs'.
      - destruct (negb _); [|exact Ha'].
        apply announced_fail. rewrite Hc. exact Hs'. }
    apply (G (t, d)); auto.
  - destruct (negb (isEmpty _)); [|auto].
    destruct (negb (Regex.matches _ _)); [apply announced_fail, Hs|auto].
Qed.

(** X21.  The attribute [aria-invalid] of the control tells whether the
    target failed.  After a validation pass over a target whose
    validation functions keep the attribute in step with the state, as
    the required rule, the date rule and the e-mail rule do, the
    attribute is [true] when the state has the FAIL bit and [false] when
    it has not; a warning leaves it [false]. *)
Theorem aria_invalid_tells_whether_the_target_failed :
  forall (submitting : bool) (v : Validator) (vt : ValidationTarget)
         (d : document) (e : element),
    d !! control (this vt) = Some e ->
    Forall (fun kv => announcer (method (snd kv))) (validations vt) ->
    let r := validateAll_target submitting v vt d in
    attr (snd r) (control (this vt)) "aria-invalid"
    = Some (if Z.testbit (state (this (fst r))) 1 then "true" else "false")
    /\ announcer (vf_method Validator_Required)
    /\ announcer (vf_method Validator_Date)
    /\ announcer (vf_method Validator_EMail).
Proof.
  intros submitting v vt d e Hd Hr r.
  split; [|split; [exact announcer_Required|split; [exact announcer_Date|
           exact announcer_EMail]]].
  unfold r, validateAll_target.
  destruct (announced_clear v (this vt) d (ex_intro _ e Hd)) as (Ha & Hc & Hs).
  destruct (clear v (this vt) d) as [t d1]. cbn [fst snd] in *.
  destruct (parents d1 (control t) (has_class "disabled")).
  - destruct (run_all_announced (keys (validations (mkVT t (validations vt))))
                (mkVT t (validations vt), d1) (control (this vt)))
      as (H1 & H2 & H3); auto.
    destruct (fold_left _ _ _) as [vt2 d2]. cbn [fst snd this] in *.
    rewrite <- H1 in H2 |- *.
    destruct (setValidationResults_attr submitting v (this vt2) d2 "aria-invalid" H2)
      as [H4 _]; [discriminate|].
    rewrite H4. exact H3.
  - cbn [fst snd this]. unfold announced in Ha. rewrite <- Hc. exact Ha.
Qed.

Lemma aria_invalid_tells_whether_the_target_failed_witness :
  let w := fresh "" "" 7 15 false in
  let r := validateAll_target false (self w) required_email (doc w) in
  state (this (fst r)) = StateEnum.FAIL
  /\ attr (snd r) email_field "aria-invalid" = Some "true".
Proof.
  intros w r. split; [vm_compute; reflexivity|].
  refine (proj1 (aria_invalid_tells_whether_the_target_failed
                   false (self w) required_email (doc w) _ eq_refl _)).
  constructor; [exact announcer_Required|constructor].
Defined.

End ResultsProps.

(* ===================================================================== *)
(** * More properties of the matcher *)
(* ===================================================================== *)

Module MatcherFacts.
Import JS Regex RegexFacts.

Lemma bool_iff (a b : bool) : (a = true <-> b = true) -> a = b.
Proof.
  destruct a, b; intros [H1 H2]; try reflexivity.
  - symmetry. apply H1. reflexivity.
  - apply H2. reflexivity.
Qed.

Lemma matches_Void s : matches Void s = false.
Proof. induction s as [|c s IH]; [reflexivity|exact IH]. Qed.

Lemma matches_Eps s : matches Eps s = String.eqb s "".
Proof. destruct s as [|c s]; [reflexivity|]. cbn. apply matches_Void. Qed.

Lemma matches_Alt a b s : matches (Alt a b) s = matches a s || matches b s.
Proof.
  revert a b. induction s as [|c s IH]; intros a b; [reflexivity|].
  cbn [matches deriv]. apply IH.
Qed.

Lemma matches_Void_Cat r s : matches (Cat Void r) s = false.
Proof. induction s as [|c s IH]; [reflexivity|exact IH]. Qed.

Lemma matches_Eps_Cat r s : matches (Cat Eps r) s = matches r s.
Proof.
  destruct s as [|c s]; [reflexivity|].
  cbn [matches deriv nullable]. rewrite matches_Alt, matches_Void_Cat. reflexivity.
Qed.

(** A pattern that starts with a character class. *)
Lemma matches_Class_Cat p r s :
  matches (Cat (Class p) r) s
  = match s with
    | String c t => p c && matches r t
    | EmptyString => false
    end.
Proof.
  destruct s as [|c s]; [reflexivity|].
  cbn [matches deriv nullable]. destruct (p c).
  - apply matches_Eps_Cat.
  - apply matches_Void_Cat.
Qed.

Lemma Matches_Cat_assoc a b r s :
  Matches (Cat (Cat a b) r) s <-> Matches (Cat a (Cat b r)) s.
Proof.
  split; intros H.
  - apply cat_inv in H as (x & z & -> & Hx & Hz).
    apply cat_inv in Hx as (x1 & x2 & -> & H1 & H2).
    rewrite ValProps.append_assoc. constructor; [exact H1|]. constructor; assumption.
  - apply cat_inv in H as (x & z & -> & Hx & Hz).
    apply cat_inv in Hz as (z1 & z2 & -> & H1 & H2).
    rewrite <- ValProps.append_assoc. constructor; [|exact H2]. constructor; assumption.
Qed.

Lemma matches_Cat_assoc a b r s :
  matches (Cat (Cat a b) r) s = matches (Cat a (Cat b r)) s.
Proof. apply bool_iff. rewrite !matches_spec. apply Matches_Cat_assoc. Qed.

Lemma matches_Cat_Eps r s : matches (Cat r Eps) s = matches r s.
Proof.
  apply bool_iff. rewrite !matches_spec. split; intros H.
  - apply cat_inv in H as (x & z & -> & Hx & Hz). inversion Hz; subst.
    rewrite ValProps.append_nil_r. exact Hx.
  - rewrite <- (ValProps.append_nil_r s). constructor; [exact H|constructor].
Qed.

Lemma matches_Alt_Cat a b r s :
  matches (Cat (Alt a b) r) s = matches (Cat a r) s || matches (Cat b r) s.
Proof.
  apply bool_iff. rewrite orb_true_iff, !matches_spec. split.
  - intros H. apply cat_inv in H as (x & z & -> & Hx & Hz).
    inversion Hx; subst; [left|right]; constructor; assumption.
  - intros [H|H]; apply cat_inv in H as (x & z & -> & Hx & Hz);
      (constructor; [|exact Hz]); [apply MAltL|apply MAltR]; exact Hx.
Qed.

(** Patterns with the same language in the same context. *)
Lemma matches_Cat_ext p r r' :
  (forall s, matches r s = matches r' s) ->
  forall s, matches (Cat p r) s = matches (Cat p r') s.
Proof.
  intros H s. apply bool_iff. rewrite !matches_spec.
  split; intros H1; apply cat_inv in H1 as (x & z & -> & Hx & Hz);
    (constructor; [exact Hx|]); apply matches_spec;
    [rewrite <- H|rewrite H]; apply matches_spec; exact Hz.
Qed.

Lemma matches_Star_any s : matches (Star any) s = true.
Proof.
  induction s as [|c s IH]; [reflexivity|].
  cbn [matches deriv any]. rewrite matches_Eps_Cat. exact IH.
Qed.

Lemma matches_Star_digit s : matches (Star digit) s = all_digits s.
Proof.
  induction s as [|c s IH]; [reflexivity|].
  cbn [matches deriv digit all_digits]. destruct (is_digit c); cbn [andb].
  - rewrite matches_Eps_Cat. exact IH.
  - apply matches_Void_Cat.
Qed.

End MatcherFacts.

(* ===================================================================== *)
(** * Properties of the other validation functions *)
(* ===================================================================== *)

Module RulesProps.
Import JS Dom Regex Val Page RegexFacts MatcherFacts Rules Report Samples.

(** ** Blank values *)

Lemma trimEnd_empty s : String.eqb (trimEnd s) "" = all_space s.
Proof.
  induction s as [|c r IH]; [reflexivity|].
  cbn [trimEnd all_space]. destruct (trimEnd r) as [|c' r'].
  - cbn in IH. rewrite <- IH, andb_true_r. destruct (is_space c); reflexivity.
  - cbn in IH. rewrite <- IH, andb_false_r. reflexivity.
Qed.

Lemma trimStart_space s : all_space (trimStart s) = all_space s.
Proof.
  induction s as [|c r IH]; [reflexivity|].
  cbn [trimStart all_space]. destruct (is_space c) eqn:E; [exact IH|].
  cbn [all_space]. rewrite E. reflexivity.
Qed.

Lemma isEmpty_all_space s : isEmpty s = all_space s.
Proof. unfold isEmpty, trim. rewrite trimEnd_empty. apply trimStart_space. Qed.

Lemma all_space_no_semicolon s : all_space s = true -> contains_char ";" s = false.
Proof.
  induction s as [|c r IH]; [reflexivity|].
  cbn [all_space contains_char]. intros H. apply andb_true_iff in H as [Hc Hr].
  rewrite (IH Hr), orb_false_r.
  destruct (Ascii.eqb_spec ";" c) as [<-|]; [discriminate Hc|reflexivity].
Qed.

(** X6.  [isEmpty] holds of the strings of white space only, the empty
    string among them.  Such a string has no semicolon.  The text of
    [undefined] is not empty. *)
Theorem isEmpty_means_white_space_only :
  forall s : string,
    isEmpty s = all_space s
    /\ (isEmpty s = true -> contains_char ";" s = false)
    /\ isEmpty (ToString Undefined) = false.
Proof.
  intros s. split; [apply isEmpty_all_space|].
  split; [|reflexivity].
  rewrite isEmpty_all_space. apply all_space_no_semicolon.
Qed.



(** ** Phone numbers *)

Lemma matches_classes_then ps r s :
  matches (classes_then ps r) s
  = match shaped ps s with
    | Some t => matches r t
    | None => false
    end.
Proof.
  revert s. induction ps as [|p ps IH]; intros s; [reflexivity|].
  cbn [classes_then fold_right shaped]. rewrite matches_Class_Cat.
  destruct s as [|c t]; [reflexivity|].
  destruct (p c); [apply IH|reflexivity].
Qed.

Lemma matches_plus_digit s :
  matches (Cat (plus digit) Eps) s
  = match s with
    | String c r => is_digit c && all_digits r
    | EmptyString => false
    end.
Proof.
  rewrite matches_Cat_Eps. unfold plus, digit. rewrite matches_Class_Cat.
  destruct s as [|c r]; [reflexivity|].
  fold digit. rewrite matches_Star_digit. reflexivity.
Qed.

Lemma matches_extension s :
  matches Eps s || matches (seq [chr " "; Class x_or_X; chr " "; plus digit]) s
  = extension s.
Proof.
  rewrite matches_Eps. unfold seq, chr. cbn [fold_right].
  destruct s as [|a [|b [|c [|n ds]]]];
    repeat (rewrite matches_Class_Cat); try reflexivity.
  - rewrite !andb_false_r. reflexivity.
  - rewrite !andb_false_r. reflexivity.
  - rewrite matches_plus_digit, !andb_false_r. reflexivity.
  - rewrite matches_plus_digit. cbn [String.eqb orb extension].
    rewrite !andb_assoc. reflexivity.
Qed.

(** X8.  The two patterns of the phone rule accept exactly the strings
    that are three digits, a dash, three digits, a dash and four digits,
    followed by nothing or by a blank, an [x] of either case, a blank and
    one digit or more.  The rule fails every other value that is not
    blank, with the message that lists the two formats. *)
Theorem a_phone_number_has_an_area_code :
  forall (t : target) (d : document),
    let pn := val d (control t) in
    (matches phone_plain pn || matches phone_extension pn = phone_number pn)
    /\ vf_method Validator_Phone t d
       = (if isEmpty pn || phone_number pn then (t, d) else fail phone_formats t d)
    /\ map phone_number ["512-555-0100"; "512-555-0100 x 12"; "512-555-0100 X 7";
                         "555-0100"; "512-555-0100 x"; "512-555-0100x12";
                         " 512-555-0100"; "512-555-0100 "]
       = [true; true; true; false; false; false; false; false].
Proof.
  intros t d pn.
  assert (H : matches phone_plain pn || matches phone_extension pn = phone_number pn).
  { unfold phone_plain, phone_extension, phone_number.
    rewrite !matches_classes_then.
    destruct (shaped area_code_number pn) as [r|]; [|reflexivity].
    apply matches_extension. }
  split; [exact H|]. split; [|vm_compute; reflexivity].
  cbn [vf_method Validator_Phone]. fold pn.
  destruct (isEmpty pn); [reflexivity|].
  cbn [orb]. rewrite H. destruct (phone_number pn); reflexivity.
Qed.

(** ** The format of a date *)

Lemma matches_lit2 a b r s :
  matches (Cat (lit (String a (String b ""))) r) s
  = match s with
    | String x (String y t) => Ascii.eqb a x && Ascii.eqb b y && matches r t
    | _ => false
    end.
Proof.
  unfold lit, seq, chr. cbn [list_ascii_of_string map fold_right].
  rewrite matches_Cat_assoc, matches_Class_Cat.
  destruct s as [|x [|y t]]; [reflexivity| |].
  - rewrite matches_Cat_assoc, matches_Class_Cat. apply andb_false_r.
  - rewrite matches_Cat_assoc, matches_Class_Cat, matches_Eps_Cat.
    rewrite andb_assoc. reflexivity.
Qed.

Lemma digit_19_20 x y :
  Ascii.eqb "1" x && Ascii.eqb "9" y || Ascii.eqb "2" x && Ascii.eqb "0" y = true ->
  is_digit x = true /\ is_digit y = true.
Proof.
  intros H. apply orb_true_iff in H as [H|H]; apply andb_true_iff in H as [Hx Hy];
    apply Ascii.eqb_eq in Hx, Hy; subst; split; reflexivity.
Qed.

(** The alternative [(19|20)\d\d$] of the year adds nothing to [\d\d]. *)
Lemma year_alternative s :
  matches (Alt (seq [digit; digit; Star any])
               (seq [Alt (lit "19") (lit "20"); digit; digit])) s
  = matches (seq [digit; digit; Star any]) s.
Proof.
  rewrite matches_Alt.
  destruct (matches (seq [Alt (lit "19") (lit "20"); digit; digit]) s) eqn:E;
    [|apply orb_false_r].
  rewrite orb_true_r. symmetry.
  unfold seq in *. cbn [fold_right] in *.
  rewrite matches_Alt_Cat, !matches_lit2 in E.
  unfold digit at 1 2. rewrite matches_Class_Cat.
  destruct s as [|x [|y u]]; cbn [orb] in E; try discriminate E.
  rewrite matches_Class_Cat, matches_Cat_Eps, matches_Star_any.
  rewrite <- andb_orb_distrib_l in E. apply andb_true_iff in E as [E _].
  destruct (digit_19_20 x y E) as [-> ->]. reflexivity.
Qed.

(** X9.  The date format takes any two digits for a year.  The
    alternative [(19|20)\d\d$] of the pattern of [Validator_Date] accepts
    nothing that [\d\d] does not, and nothing anchors the end: whatever
    follows two digits of the year is accepted.  So [2/10/3015] passes,
    while [2/10/5], which [isDate] takes for a date, fails on the
    format. *)
Theorem the_date_format_takes_any_two_digits_for_a_year :
  forall s : string,
    matches date_format s = matches date_format_loose s
    /\ check_date "2/10/5"
       = (StateEnum.FAIL, ["Error: when is not a validly formatted date. Use mm/dd/yyyy."])
    /\ isDate "2/10/5" Undefined = true
    /\ check_date "2/10/3015" = (StateEnum.PASS, [])
    /\ check_date "002/10/2015"
       = (StateEnum.FAIL, ["Error: when is not a validly formatted date. Use mm/dd/yyyy."]).
Proof.
  intros s. split; [|by_computation].
  unfold date_format, date_format_loose.
  unfold seq at 1 3. cbn [fold_right].
  revert s. do 4 apply matches_Cat_ext. intros s.
  rewrite !matches_Cat_Eps. apply year_alternative.
Qed.

(** ** Sequences of dates *)

(** X10.  Equal dates are never equal to.  When both values are dates,
    the sequence rule made with [Sequence_EQ] fails, and the one made
    with [Sequence_NEQ] passes, whatever the two dates are: each
    comparison is between two new Date objects.  On the same day the
    rules made with [Sequence_LTEQ] and [Sequence_GTEQ] pass and the one
    made with [Sequence_LT] fails. *)
Theorem equal_dates_are_never_equal_to :
  forall (later : document -> string) (nm : string) (t : target) (d : document),
    let dt1 := val d (control t) in
    let dt2 := later d in
    let window := date_window d (control t) in
    isEmpty dt1 = false -> isEmpty dt2 = false ->
    isDate dt1 window = true -> isDate dt2 window = true ->
    vf_method (Validator_DateSequence_Factory later nm Sequence_EQ) t d
    = fail (name t +:+ " must be equal to " +:+ nm +:+ ".") t d
    /\ vf_method (Validator_DateSequence_Factory later nm Sequence_NEQ) t d = (t, d)
    /\ (new_Date dt1 = new_Date dt2 -> new_Date dt1 <> None ->
        vf_method (Validator_DateSequence_Factory later nm Sequence_LTEQ) t d = (t, d)
        /\ vf_method (Validator_DateSequence_Factory later nm Sequence_GTEQ) t d = (t, d)
        /\ vf_method (Validator_DateSequence_Factory later nm Sequence_LT) t d
           = fail (name t +:+ " must be less than " +:+ nm +:+ ".") t d).
Proof.
  intros later nm t d dt1 dt2 window E1 E2 D1 D2.
  unfold Validator_DateSequence_Factory. cbn [vf_method].
  fold dt1 dt2 window. rewrite E1, E2, D1, D2. cbn [negb andb].
  split; [reflexivity|]. split; [reflexivity|].
  intros Heq Hne. unfold Sequence_LTEQ, Sequence_GTEQ, Sequence_LT.
  cbn [cmp_method cmp_name]. unfold less_or_equal, less. cbn [time].
  rewrite <- Heq. destruct (new_Date dt1) as [day|]; [|congruence].
  rewrite Z.leb_refl, Z.ltb_irrefl. auto.
Qed.

Lemma equal_dates_are_never_equal_to_witness :
  let t := blank_target "start" email_field in
  new_Date (val same_dates email_field) = new_Date (the_second_date same_dates)
  /\ vf_method (Validator_DateSequence_Factory the_second_date "end" Sequence_EQ)
               t same_dates
     = fail ("start" +:+ " must be equal to " +:+ "end" +:+ ".") t same_dates.
Proof.
  intros t. split; [vm_compute; reflexivity|].
  exact (proj1 (equal_dates_are_never_equal_to
                  the_second_date "end" t same_dates
                  ltac:(vm_compute; reflexivity) ltac:(vm_compute; reflexivity)
                  ltac:(vm_compute; reflexivity) ltac:(vm_compute; reflexivity))).
Defined.

End RulesProps.

(* ===================================================================== *)
(** * Properties of targets *)
(* ===================================================================== *)

Module TargetProps.
Import JS Dom Val Page ObjFacts ValProps Samples.

Lemma addTarget_doc c nm ind w : doc (addTarget c nm ind w) = doc w.
Proof.
  unfold addTarget. destruct (get _ (targets (self w))); reflexivity.
Qed.

Lemma addTarget_present c nm ind w :
  get (id_or_name (doc w) c) (targets (self (addTarget c nm ind w))) <> None.
Proof.
  unfold addTarget.
  destruct (get (id_or_name (doc w) c) (targets (self w))) eqn:E.
  - rewrite E. discriminate.
  - cbn. rewrite get_set_same. discriminate.
Qed.

(** X11.  Controls of one key share a target.  A control whose key (its
    id, else its name) a target already has gets no target of its own:
    [addTarget] leaves the validator as it is, and the name and the
    indicator passed with the second control are dropped.  Two radio
    buttons of one name are one target, on the first. *)
Theorem controls_of_one_key_share_a_target :
  forall (w : world) (c1 c2 : nat) (nm1 nm2 : option string) (ind1 ind2 : option jq),
    id_or_name (doc w) c1 = id_or_name (doc w) c2 ->
    addTarget c2 nm2 ind2 (addTarget c1 nm1 ind1 w) = addTarget c1 nm1 ind1 w.
Proof.
  intros w c1 c2 nm1 nm2 ind1 ind2 Hk.
  pose proof (addTarget_present c1 nm1 ind1 w) as Hp.
  unfold addTarget at 1. rewrite addTarget_doc, <- Hk.
  destruct (get _ (targets (self (addTarget c1 nm1 ind1 w)))); [reflexivity|congruence].
Qed.

Lemma controls_of_one_key_share_a_target_witness :
  let w := mkWorld radios (mkValidator [] [] 7 15 [] false) [] [] None in
  let w' := addTarget 2 None None (addTarget 1 None None w) in
  keys (targets (self w')) = ["answer"]
  /\ option_map (fun vt => control (this vt)) (get "answer" (targets (self w'))) = Some 1%nat
  /\ w' = addTarget 1 None None w.
Proof.
  intros w w'. split; [reflexivity|]. split; [reflexivity|].
  exact (controls_of_one_key_share_a_target w 1 2 None None None None eq_refl).
Defined.

(** X12.  A new target has an indicator and a name.  The indicator is
    never empty; the key is the id of the control, else its name.  A name
    and an indicator that are passed, and are not empty, are taken.
    Without an indicator the labels for the control are the indicator,
    and without a name the text of these labels, less its first colon,
    is the name. *)
Theorem a_new_target_has_an_indicator_and_a_name :
  forall (v : Validator) (d : document) (c : nat) (nm : option string)
         (ind : option jq),
    let t := this (new_ValidationTarget v d c nm ind) in
    let labels := scope_find v d (label_for (first_id d [c])) in
    let text := replace_first ":" "" (get_html d labels) in
    indicator t <> []
    /\ key t = id_or_name d c
    /\ control t = c
    /\ (forall n, nm = Some n -> n <> "" -> name t = n)
    /\ (forall i, ind = Some i -> i <> [] -> indicator t = i)
    /\ (ind = None -> labels <> [] ->
        indicator t = labels
        /\ (default "" nm = "" -> text <> "" -> name t = text)).
Proof.
  intros v d c nm ind t labels text. unfold t, new_ValidationTarget.
  fold labels. fold text.
  split.
  { destruct ind as [[|i0 i]|]; [| |destruct labels];
      cbn [indicator this];
      repeat match goal with
             | |- context [match ?x with _ => _ end] => destruct x
             end; discriminate. }
  split.
  { destruct ind as [i|]; [|destruct labels]; reflexivity. }
  split.
  { destruct ind as [i|]; [|destruct labels]; reflexivity. }
  split.
  { intros n -> Hn.
    destruct ind as [i|]; [|destruct labels]; cbn [name this default from_option id];
      unfold or_else at 1; destruct (String.eqb_spec n ""); congruence. }
  split.
  { intros i -> Hi. destruct i; [congruence|]. reflexivity. }
  intros -> Hl. destruct labels as [|l ls] eqn:E; [congruence|].
  cbn [indicator name this]. split; [reflexivity|].
  intros -> Ht. unfold or_else at 1. cbn [String.eqb].
  unfold or_else at 1. destruct (String.eqb_spec text ""); congruence.
Qed.

(** X13.  A disabled section is not validated.  When the control of a
    target is inside an element of the class [disabled], a validation
    pass clears the target and runs none of its validation functions:
    the target has passed and lists no message, whatever the control
    holds. *)
Theorem a_disabled_section_is_not_validated :
  forall (submitting : bool) (v : Validator) (vt : ValidationTarget) (d : document),
    let cleared := clear v (this vt) d in
    parents (snd cleared) (control (this vt)) (has_class "disabled") <> [] ->
    validateAll_target submitting v vt d
    = (mkVT (fst cleared) (validations vt), snd cleared)
    /\ state (this (fst (validateAll_target submitting v vt d))) = StateEnum.PASS
    /\ messages (this (fst (validateAll_target submitting v vt d))) = [].
Proof.
  intros submitting v vt d cleared Hp.
  assert (H : validateAll_target submitting v vt d
              = (mkVT (fst cleared) (validations vt), snd cleared)).
  { unfold validateAll_target. fold cleared.
    destruct cleared as [t d1] eqn:E. cbn [fst snd] in *.
    assert (Hc : control t = control (this vt)).
    { unfold cleared, clear in E. injection E as <- _. reflexivity. }
    rewrite Hc. destruct (parents d1 (control (this vt)) (has_class "disabled"));
      [congruence|reflexivity]. }
  rewrite H. cbn [fst this]. unfold cleared, clear. cbn. auto.
Qed.

Lemma a_disabled_section_is_not_validated_witness :
  let w := fresh "" "" 7 15 false in
  let vt := mkVT (this (new_ValidationTarget (self w) (doc w) email_field None None))
                 [("Validator_Required",
                   mkValidation false ∅ (vf_method Validator_Required))] in
  state (this (fst (validateAll_target true (self w) vt (page "" "")))) = StateEnum.FAIL
  /\ state (this (fst (validateAll_target true (self w) vt (switched_off ""))))
     = StateEnum.PASS.
Proof.
  intros w vt. split; [vm_compute; reflexivity|].
  refine (proj1 (proj2 (a_disabled_section_is_not_validated
                          true (self w) vt (switched_off "") _))).
  vm_compute. discriminate.
Defined.

End TargetProps.

(* ===================================================================== *)
(** * The size of an object *)
(* ===================================================================== *)

Module SizeProps.
Import JS ObjFacts.

Lemma length_update {V : Type} (k : string) (v : V) (o : obj V) :
  length (update k v o) = length o.
Proof.
  induction o as [|[k' v'] r IH]; cbn; [reflexivity|].
  destruct (String.eqb k k'); cbn; [reflexivity|]. rewrite IH. reflexivity.
Qed.

Lemma length_remove {V : Type} (k : string) (o : obj V) :
  List.NoDup (keys o) ->
  length (remove k o)
  = match get k o with Some _ => pred (length o) | None => length o end.
Proof.
  induction o as [|[k' v'] r IH]; cbn; intros Hn; [reflexivity|].
  inversion Hn as [|? ? Hk Hr]; subst.
  destruct (String.eqb_spec k k') as [->|Hne].
  - rewrite remove_absent; [reflexivity|]. apply get_in. exact Hk.
  - cbn. rewrite (IH Hr). destruct (get k r) eqn:E; [|reflexivity].
    destruct r; [discriminate E|reflexivity].
Qed.

(** X14.  [Object.size] counts the properties.  Assigning to a property
    the object has leaves the size, assigning to a new one adds one;
    deleting a property the object has takes one off, deleting another
    leaves the size; the size is 0 for the empty object only.  Both
    operations keep the property names distinct. *)
Theorem size_counts_the_properties :
  forall (V : Type) (o : obj V) (k : string) (v : V),
    List.NoDup (keys o) ->
    size (set k v o) = match get k o with Some _ => size o | None => size o + 1 end
    /\ size (remove k o) = match get k o with Some _ => size o - 1 | None => size o end
    /\ (size o = 0 <-> o = [])
    /\ List.NoDup (keys (set k v o))
    /\ List.NoDup (keys (remove k o)).
Proof.
  intros V o k v Hn. unfold size.
  split; [|split; [|split; [|split]]].
  - unfold set. destruct (get k o).
    + rewrite length_update. reflexivity.
    + rewrite length_insert_new. lia.
  - rewrite (length_remove k o Hn). destruct (get k o) eqn:E; [|reflexivity].
    destruct o; [discriminate E|]. cbn [length]. lia.
  - destruct o; cbn [length]; split; intros H; try reflexivity; try discriminate; lia.
  - apply NoDup_set, Hn.
  - apply NoDup_remove, Hn.
Qed.

Lemma size_counts_the_properties_witness :
  size (set "b" 2 (set "a" 1 ([] : obj Z))) = 2
  /\ size (remove "a" (set "a" 1 ([] : obj Z))) = 0.
Proof.
  split; [reflexivity|].
  exact (proj1 (proj2 (size_counts_the_properties Z (set "a" 1 ([] : obj Z)) "a" 0
                         ltac:(repeat constructor; cbn; tauto)))).
Defined.

End SizeProps.

(* ===================================================================== *)
(** * Properties of the constructor *)
(* ===================================================================== *)

Module BuildProps.
Import JS Dom Val Page ObjFacts ValProps Report ReportProps Samples Build.

Lemma sound_get w k vt :
  sound w -> get k (targets (self w)) = Some vt ->
  coherent (this vt) /\ reporting (validations vt).
Proof.
  intros H Hg. apply get_some_In in Hg. unfold sound in H.
  rewrite List.Forall_forall in H. exact (H _ Hg).
Qed.

Lemma sound_set w k vt :
  sound w -> coherent (this vt) -> reporting (validations vt) ->
  sound (with_self (with_targets (set k vt (targets (self w))) (self w)) w).
Proof. intros H Hc Hr. unfold sound. cbn. apply Forall_set; auto. Qed.

Lemma sound_with_doc d w : sound (with_doc d w) <-> sound w.
Proof. reflexivity. Qed.

Lemma sound_addTarget c nm ind w : sound w -> sound (addTarget c nm ind w).
Proof.
  intros H. unfold addTarget.
  destruct (get _ (targets (self w))); [exact H|].
  apply sound_set; [exact H| |].
  - destruct (new_ValidationTarget_fresh (self w) (doc w) c nm ind) as [Hs Hv].
    unfold new_ValidationTarget in *.
    repeat match goal with
           | |- context [match ?x with _ => _ end] => destruct x
           end; unfold coherent; cbn; repeat split; constructor.
  - rewrite (proj2 (new_ValidationTarget_fresh _ _ _ _ _)). constructor.
Qed.

Lemma sound_addValidation k c events vf w :
  reporter (vf_method vf) -> sound w -> sound (addValidation k c events vf w).
Proof.
  intros Hvf H. unfold addValidation.
  destruct (get k (targets (self w))) as [vt|] eqn:E; [|exact H].
  destruct (sound_get w k vt H E) as [Hc Hr].
  unfold with_validations, with_bound.
  match goal with
  | |- sound (mkWorld _ ?s _ _ _) =>
      change (sound (with_self s w))
  end.
  apply sound_set; [exact H|exact Hc|].
  cbn [validations]. unfold register.
  assert (Hx : reporter (method (default (mkValidation false ∅ (vf_method vf))
                                         (get (vf_name vf) (validations vt))))).
  { destruct (get (vf_name vf) (validations vt)) as [x|] eqn:G; [|exact Hvf].
    apply get_some_In in G. unfold reporting in Hr.
    rewrite List.Forall_forall in Hr. exact (Hr _ G). }
  match goal with
  | |- context [fold_left ?f events ?a] => destruct (fold_left f events a) as [rc b]
  end.
  cbn [fst]. apply Forall_set; [exact Hx|exact Hr].
Qed.

Lemma sound_validate_key s w k : sound w -> sound (validate_key s w k).
Proof.
  intros H. unfold validate_key.
  destruct (get k (targets (self w))) as [vt|] eqn:E; [|exact H].
  destruct (sound_get w k vt H E) as [Hc Hr].
  pose proof (validateAll_target_coherent s (self w) vt (doc w) Hr) as [Hc' Hr'].
  destruct (validateAll_target s (self w) vt (doc w)) as [vt' d'].
  cbn [fst] in *. apply sound_with_doc. apply sound_set; assumption.
Qed.

Lemma sound_post w : sound w -> sound (post w).
Proof. unfold sound. rewrite post_targets. auto. Qed.

Lemma sound_validate k w : sound w -> sound (validate k w).
Proof. intros H. apply sound_post, sound_validate_key, H. Qed.

Lemma sound_fire c ev w : sound w -> sound (fire c ev w).
Proof.
  unfold fire. generalize (bound w). intros hs. revert w.
  induction hs as [|[[n e] k] r IH]; intros w H; [exact H|].
  cbn [fold_left]. apply IH.
  destruct (Nat.eqb n c && String.eqb e ev); [apply sound_validate, H|exact H].
Qed.

Lemma sound_validateAll s w : sound w -> sound (validateAll s w).
Proof.
  intros H. unfold validateAll. apply sound_post.
  generalize (keys (targets (self w))). intros ks. revert w H.
  induction ks as [|k r IH]; intros w H; [exact H|].
  cbn [fold_left]. apply IH, sound_validate_key, H.
Qed.

Lemma sound_require c nm ind w : sound w -> sound (require c nm ind w).
Proof.
  intros H. unfold require. apply sound_fire.
  do 2 (apply sound_addValidation; [exact reporter_Required|]).
  apply sound_addTarget, H.
Qed.

Lemma sound_automatic vf w c :
  reporter (vf_method vf) -> sound w -> sound (automatic vf w c).
Proof.
  intros Hvf H. unfold automatic.
  apply sound_addValidation; [exact Hvf|]. apply sound_addTarget, H.
Qed.

Lemma sound_each (f : world -> nat -> world) (cs : jq) w :
  (forall w c, sound w -> sound (f w c)) -> sound w -> sound (fold_left f cs w).
Proof.
  intros Hf. revert w. induction cs as [|c r IH]; intros w H; [exact H|].
  cbn [fold_left]. apply IH, Hf, H.
Qed.

(** X26.  A new validator agrees with its messages.  When the
    constructor returns, with the automatic validations of the classes
    [valRequired], [valDate] and [valEMail] registered and run, the state
    of every target is the one its messages tell: it has passed exactly
    when it lists no message and has the FAIL bit exactly when it lists
    an error.  The submit buttons get the click handler of the summary
    only under the submit behaviour [SUMMARY], and none without a submit
    selector. *)
Theorem a_new_validator_agrees_with_its_messages :
  forall (d : document) (scopeSelector : element -> bool) (validationBehavior : Z)
         (submitSelector : option (element -> bool)) (submitBehavior : Z),
    let v := new_Validator d scopeSelector validationBehavior submitSelector
                           submitBehavior in
    (forall k vt,
        get k (targets (self (on_page v))) = Some vt ->
        coherent (this vt)
        /\ (state (this vt) = StateEnum.PASS <-> messages (this vt) = [])
        /\ (Z.testbit (state (this vt)) 1 = existsb is_error (messages (this vt))))
    /\ (submit_clicks v <> [] -> submitBehavior = SubmitEnum.SUMMARY)
    /\ (submitSelector = None -> submit_clicks v = []).
Proof.
  intros d sel vb ssel sb v.
  assert (H : sound (on_page v)).
  { unfold v, new_Validator. cbn [on_page].
    apply sound_validateAll.
    apply sound_each; [intros; apply sound_automatic; [exact reporter_EMail|assumption]|].
    apply sound_each; [intros; apply sound_automatic; [exact reporter_Date|assumption]|].
    apply sound_each; [intros; apply sound_require; assumption|].
    constructor. }
  split; [|split].
  - intros k vt Hg. destruct (sound_get _ k vt H Hg) as [Hc _].
    split; [exact Hc|]. split; [apply coherent_pass, Hc|apply coherent_bits, Hc].
  - unfold v, new_Validator. cbn [submit_clicks].
    destruct (0 <? _); cbn [andb]; [|congruence].
    destruct (Z.eqb_spec sb SubmitEnum.SUMMARY); congruence.
  - intros ->. reflexivity.
Qed.

(** ** The reset button *)

Lemma clear_key_other w k k' :
  k <> k' -> get k' (targets (self (clear_key w k))) = get k' (targets (self w)).
Proof.
  intros Hne. unfold clear_key.
  destruct (get k (targets (self w))) as [vt|]; [|reflexivity].
  destruct (clear (self w) (this vt) (doc w)) as [t d].
  cbn. apply get_set_other, Hne.
Qed.

Lemma clear_key_same w k vt :
  get k (targets (self w)) = Some vt ->
  exists vt', get k (targets (self (clear_key w k))) = Some vt' /\ cleared_target vt'.
Proof.
  intros Hg. unfold clear_key. rewrite Hg.
  destruct (clear (self w) (this vt) (doc w)) as [t d] eqn:E.
  cbn. rewrite get_set_same. eexists. split; [reflexivity|].
  unfold clear in E. injection E as <- _. split; reflexivity.
Qed.

Lemma clear_key_keys w k : keys (targets (self (clear_key w k))) = keys (targets (self w)).
Proof.
  unfold clear_key. destruct (get k (targets (self w))) as [vt|] eqn:E; [|reflexivity].
  destruct (clear (self w) (this vt) (doc w)) as [t d].
  cbn. apply keys_set_present. congruence.
Qed.

Lemma clear_key_rest w k :
  calls (clear_key w k) = calls w /\ bound (clear_key w k) = bound w
  /\ modal (clear_key w k) = modal w.
Proof.
  unfold clear_key. destruct (get k (targets (self w))) as [vt|]; [|auto].
  destruct (clear (self w) (this vt) (doc w)) as [t d]. auto.
Qed.

Lemma clear_keys_spec ks w :
  let w' := fold_left clear_key ks w in
  keys (targets (self w')) = keys (targets (self w))
  /\ calls w' = calls w /\ bound w' = bound w /\ modal w' = modal w
  /\ (forall k vt, get k (targets (self w')) = Some vt ->
        In k ks \/ (exists vt0, get k (targets (self w)) = Some vt0 /\ cleared_target vt0) ->
        cleared_target vt).
Proof.
  revert w. induction ks as [|k1 r IH]; intros w; cbn [fold_left].
  - do 4 (split; [reflexivity|]).
    intros k vt Hg [[]|(vt0 & H0 & Hc)]. congruence.
  - destruct (IH (clear_key w k1)) as (Hk & Hcalls & Hb & Hm & Hget).
    destruct (clear_key_rest w k1) as (C1 & C2 & C3).
    cbv zeta in *. rewrite Hk, Hcalls, Hb, Hm, clear_key_keys.
    do 4 (split; [assumption || reflexivity|]).
    intros k vt Hg Hin. apply (Hget k vt Hg).
    destruct (String.eqb_spec k1 k) as [->|Hne].
    + destruct (get k (targets (self w))) as [vt0|] eqn:E.
      * right. apply (clear_key_same w k vt0 E).
      * exfalso.
        assert (Hnone : get k (targets (self (fold_left clear_key r (clear_key w k)))) = None).
        { apply get_in. rewrite Hk, clear_key_keys. apply get_in. exact E. }
        congruence.
    + destruct Hin as [[H1|H1]|(vt0 & H0 & Hc)]; [congruence|left; exact H1|].
      right. exists vt0. rewrite clear_key_other by assumption. auto.
Qed.

Lemma cumulative_cleared (ts : obj ValidationTarget) :
  Forall (fun kt => cleared_target (snd kt)) ts -> cumulative ts = StateEnum.PASS.
Proof.
  intros H. induction H as [|[k vt] r Hx Hr IH]; [reflexivity|].
  rewrite cumulative_cons, IH. unfold status. cbn [snd] in *.
  destruct Hx as [-> _]. reflexivity.
Qed.

Lemma In_get {V : Type} (o : obj V) k v :
  List.NoDup (keys o) -> In (k, v) o -> get k o = Some v.
Proof.
  induction o as [|[k' v'] r IH]; cbn; intros Hn Hin; [destruct Hin|].
  inversion Hn as [|? ? Hk Hr]; subst.
  destruct Hin as [E|Hin].
  - injection E as -> ->. rewrite String.eqb_refl. reflexivity.
  - destruct (String.eqb_spec k k') as [->|_]; [|exact (IH Hr Hin)].
    exfalso. apply Hk. apply (in_map fst) in Hin. exact Hin.
Qed.

(** X27.  A click on a reset button clears every target: each has
    passed and lists no message, and so has the validator.  The targets
    stay registered with their handlers, and [postValidation] is not
    called: the page is not told that the failures are gone.  When no
    form is below the scope the handler throws before it clears
    anything. *)
Theorem a_reset_clears_every_target_without_posting :
  forall (reset : nat -> document -> document) (w w' : world),
    List.NoDup (keys (targets (self w))) ->
    reset_click reset w = Some w' ->
    (forall k vt, get k (targets (self w')) = Some vt ->
                  state (this vt) = StateEnum.PASS /\ messages (this vt) = [])
    /\ state_of w' = StateEnum.PASS
    /\ keys (targets (self w')) = keys (targets (self w))
    /\ calls w' = calls w
    /\ bound w' = bound w
    /\ (forall u, scope_find (self u) (doc u) is_form = [] -> reset_click reset u = None).
Proof.
  intros reset w w' Hn Hr. unfold reset_click in Hr.
  destruct (scope_find (self w) (doc w) is_form) as [|form fs]; [discriminate Hr|].
  injection Hr as <-.
  destruct (clear_keys_spec (keys (targets (self w))) (with_doc (reset form (doc w)) w))
    as (Hk & Hc & Hb & _ & Hg).
  cbv zeta in *. cbn [with_doc self calls bound] in *.
  assert (Hall : forall k vt,
             get k (targets (self (fold_left clear_key (keys (targets (self w)))
                                             (with_doc (reset form (doc w)) w)))) = Some vt ->
             cleared_target vt).
  { intros k vt Hget. apply (Hg k vt Hget). left.
    destruct (in_dec string_dec k (keys (targets (self w)))) as [Hin|Hnin]; [exact Hin|].
    exfalso. rewrite <- Hk in Hnin. apply get_in in Hnin. congruence. }
  split; [exact Hall|]. split; [|split; [exact Hk|split; [exact Hc|split; [exact Hb|]]]].
  - unfold state_of. apply cumulative_cleared. apply List.Forall_forall.
    intros [k vt] Hin. cbn [snd]. apply (Hall k vt).
    apply In_get; [rewrite Hk; exact Hn|exact Hin].
  - intros u Hu. unfold reset_click. rewrite Hu. reflexivity.
Qed.

Lemma a_reset_clears_every_target_without_posting_witness :
  let reset := fun (_ : nat) (d : document) => d in
  let w' := default whole_document (reset_click reset whole_document) in
  state_of whole_document = StateEnum.FAIL
  /\ state_of w' = StateEnum.PASS
  /\ calls w' = calls whole_document
  /\ reset_click reset (fresh "" "" 7 15 true) = None.
Proof.
  intros reset w'.
  assert (E : reset_click reset whole_document = Some w') by (vm_compute; reflexivity).
  assert (Hn : List.NoDup (keys (targets (self whole_document)))).
  { vm_compute. constructor; [intros []|constructor]. }
  pose proof (a_reset_clears_every_target_without_posting
                reset whole_document w' Hn E) as (_ & Hs & _ & Hc & _ & Hnone).
  split; [vm_compute; reflexivity|]. split; [exact Hs|]. split; [exact Hc|].
  apply Hnone. vm_compute. reflexivity.
Defined.

End BuildProps.
